(** * extractor_tool: the commit-history pipeline of [extractor/extractor.go]

    A shallow embedding of the harvester's log parser ([commitWorker]), the
    analysis worker ([libraryWorker]) and the day-bucket aggregator (the
    select loop of [export]), together with the parts of Go's [strings],
    [strconv], [path/filepath] and [time] packages these functions call.

    Go strings are byte sequences: they are modelled by [string] (a list of
    8-bit [ascii]).  Go's [int] is taken to be 64 bits wide and is modelled
    by [Z] with the wrap-around of [+] written out.  The [Libraries] maps are
    [gmap string (list string)]. *)

From Stdlib Require Import ZArith Lia Ascii.
From Stdlib Require String DecimalString.
From stdpp Require Import gmap strings list fin_maps.

Local Open Scope Z_scope.

(** ** Go's [int] *)

Module GoInt.

Definition min_int : Z := - 2 ^ 63.
Definition max_int : Z := 2 ^ 63 - 1.

(** Two's-complement wrap-around of a mathematical integer to 64 bits. *)
Definition wrap (z : Z) : Z := (z + 2 ^ 63) mod 2 ^ 64 - 2 ^ 63.

Definition in_range (z : Z) : Prop := min_int <= z <= max_int.

(** [a + b] and [a += b] on [int]. *)
Definition add (a b : Z) : Z := wrap (a + b).

End GoInt.

(** ** The functions of Go's [strings], [strconv] and [path/filepath] used by
    the extractor

    Each function follows the documented behaviour of the Go standard
    library on byte strings. *)

Module GoStrings.

(** [strings.HasPrefix(s, prefix)]. *)
Fixpoint HasPrefix (s prefix : string) {struct prefix} : bool :=
  match prefix with
  | EmptyString => true
  | String p prefix' =>
      match s with
      | String c s' => Ascii.eqb c p && HasPrefix s' prefix'
      | EmptyString => false
      end
  end.

(** [strings.Contains(s, substr)]: [substr] occurs in [s] at some index. *)
Fixpoint Contains (s substr : string) : bool :=
  if HasPrefix s substr then true
  else match s with
       | EmptyString => false
       | String _ s' => Contains s' substr
       end.

(** [strings.Replace(s, old, new, n)] for a non-empty [old]: the first [n]
    non-overlapping occurrences of [old], found scanning from the left, are
    replaced by [new]; a negative [n] puts no limit.  [left] is the number
    of replacements still allowed ([None]: no limit) and [skip] the number
    of bytes of the occurrence just matched that are still to be passed
    over.  (For an empty [old] Go inserts [new] around every rune; no
    caller in the extractor passes an empty [old].) *)
Fixpoint replace_from (old new : string) (left : option nat) (skip : nat)
    (s : string) : string :=
  match s with
  | EmptyString => EmptyString
  | String c s' =>
      match skip with
      | S k => replace_from old new left k s'
      | O =>
          match left with
          | Some O => s
          | _ =>
              if HasPrefix s old
              then new +:+ replace_from old new (pred <$> left)
                             (String.length old - 1)%nat s'
              else String c (replace_from old new left 0%nat s')
          end
      end
  end.

Definition Replace (s old new : string) (n : Z) : string :=
  replace_from old new (if n <? 0 then None else Some (Z.to_nat n)) 0%nat s.

(** [strings.Split(s, sep)] for a non-empty [sep]: the pieces of [s]
    between the non-overlapping occurrences of [sep]; always at least one
    piece.  [cur] is the piece being read. *)
Fixpoint split_from (sep : string) (skip : nat) (cur : string)
    (s : string) : list string :=
  match s with
  | EmptyString => [cur]
  | String c s' =>
      match skip with
      | S k => split_from sep k cur s'
      | O =>
          if HasPrefix s sep
          then cur :: split_from sep (String.length sep - 1)%nat EmptyString s'
          else split_from sep 0%nat (cur +:+ String c EmptyString) s'
      end
  end.

Definition Split (s sep : string) : list string :=
  split_from sep 0%nat EmptyString s.

(** The ASCII white space of [strings.Fields]: tab, line feed, vertical
    tab, form feed, carriage return and space.  (On input holding bytes
    above 127 Go decodes UTF-8 and also splits at the non-ASCII Unicode
    spaces; the model treats every such byte as part of a field.) *)
Definition isSpace (c : ascii) : bool :=
  let n := nat_of_ascii c in
  ((9 <=? n)%nat && (n <=? 13)%nat) || (n =? 32)%nat.

(** [strings.Fields(s)]: the maximal runs of non-space bytes of [s]. *)
Fixpoint fields_from (cur : option string) (s : string) : list string :=
  match s with
  | EmptyString => match cur with Some f => [f] | None => [] end
  | String c s' =>
      if isSpace c
      then match cur with
           | Some f => f :: fields_from None s'
           | None => fields_from None s'
           end
      else fields_from (Some (default EmptyString cur +:+ String c EmptyString)) s'
  end.

Definition Fields (s : string) : list string := fields_from None s.

Definition isDigit (c : ascii) : bool :=
  let n := nat_of_ascii c in (48 <=? n)%nat && (n <=? 57)%nat.

Definition digitVal (c : ascii) : Z := Z.of_nat (nat_of_ascii c) - 48.

(** The value of a string of decimal digits; [None] when a byte is not a
    digit.  [acc] is the value read so far. *)
Fixpoint digits_from (acc : Z) (s : string) : option Z :=
  match s with
  | EmptyString => Some acc
  | String c s' =>
      if isDigit c then digits_from (10 * acc + digitVal c) s' else None
  end.

(** [strconv.Atoi(s)]: an optional sign and at least one decimal digit;
    [None] stands for a non-nil error (syntax, or value out of the range of
    [int]). *)
Definition Atoi (s : string) : option Z :=
  let '(neg, body) :=
    match s with
    | String "-"%char r => (true, r)
    | String "+"%char r => (false, r)
    | _ => (false, s)
    end in
  match body with
  | EmptyString => None
  | _ =>
      match digits_from 0 body with
      | Some v =>
          let v' := if neg : bool then - v else v in
          if (GoInt.min_int <=? v') && (v' <=? GoInt.max_int)
          then Some v' else None
      | None => None
      end
  end.

(** [filepath.Ext(path)] with [/] as the path separator: the suffix that
    starts at the last dot of the last path element, empty when that
    element has no dot.  [ext] is the suffix found since the last
    separator. *)
Fixpoint ext_from (ext : string) (path : string) : string :=
  match path with
  | EmptyString => ext
  | String c p' =>
      if Ascii.eqb c "/"%char then ext_from EmptyString p'
      else if Ascii.eqb c "."%char then ext_from path p'
      else ext_from ext p'
  end.

Definition Ext (path : string) : string := ext_from EmptyString path.

End GoStrings.

(** ** Go's [time] package, as far as the extractor uses it

    A [Time] is kept as its wall-clock reading in its own location, the
    offset of that location east of UTC in seconds and the abbreviation of
    the zone: the accessors [Year()], [Month()], [Day()] of Go read the
    instant in the time's own location. *)

Module GoTime.

Record Time := mkTime {
  Year : Z; Month : Z; Day : Z;
  Hour : Z; Minute : Z; Second : Z;
  Offset : Z;
  Zone : string
}.

(** The zero value [Time{}]: January 1 of year 1, 00:00:00 UTC.  [time.Parse]
    returns it together with every error. *)
Definition zero : Time := mkTime 1 1 1 0 0 0 0 "UTC".

Definition isLeap (year : Z) : bool :=
  (year mod 4 =? 0) && (negb (year mod 100 =? 0) || (year mod 400 =? 0)).

Definition daysIn (month year : Z) : Z :=
  if month =? 2 then (if isLeap year then 29 else 28)
  else if (month =? 4) || (month =? 6) || (month =? 9) || (month =? 11)
       then 30 else 31.

(** [getnum(s, fixed)]: one or two leading digits; two are required when
    [fixed]. *)
Definition getnum (s : string) (fixed : bool) : option (Z * string) :=
  match s with
  | String c1 rest =>
      if GoStrings.isDigit c1 then
        match rest with
        | String c2 rest2 =>
            if GoStrings.isDigit c2
            then Some (GoStrings.digitVal c1 * 10 + GoStrings.digitVal c2, rest2)
            else if fixed then None else Some (GoStrings.digitVal c1, rest)
        | EmptyString => if fixed then None else Some (GoStrings.digitVal c1, rest)
        end
      else None
  | EmptyString => None
  end.

(** The four-digit year of the [2006] element. *)
Definition getyear (value : string) : option (Z * string) :=
  match value with
  | String c1 (String c2 (String c3 (String c4 rest))) =>
      let p := String c1 (String c2 (String c3 (String c4 EmptyString))) in
      year ← GoStrings.digits_from 0 p; Some (year, rest)
  | _ => None
  end.

(** A literal byte of the layout other than a space. *)
Definition skipByte (c : ascii) (value : string) : option string :=
  match value with
  | String c' rest => if Ascii.eqb c' c then Some rest else None
  | EmptyString => None
  end.

Fixpoint cutspace (s : string) : string :=
  match s with
  | String c rest => if Ascii.eqb c " "%char then cutspace rest else s
  | EmptyString => s
  end.

(** A space of the layout: it matches any number of spaces of the value,
    and the value may also end here. *)
Definition skipSpace (value : string) : option string :=
  match value with
  | String c _ => if Ascii.eqb c " "%char then Some (cutspace value) else None
  | EmptyString => Some value
  end.

Fixpoint cutdigits (s : string) : string :=
  match s with
  | String c rest => if GoStrings.isDigit c then cutdigits rest else s
  | EmptyString => s
  end.

(** A fractional second in the value that the layout does not mention is
    read and dropped: a period or comma followed by at least one digit. *)
Definition skipFraction (value : string) : string :=
  match value with
  | String c (String d rest) =>
      if (Ascii.eqb c "."%char || Ascii.eqb c ","%char) && GoStrings.isDigit d
      then cutdigits rest else value
  | _ => value
  end.

(** The [-0700] element: a sign and four digits; the offset in seconds.
    (The test on the range of the hours and minutes is that of the current
    releases of Go; older ones have none.) *)
Definition getzone (value : string) : option (Z * string) :=
  match value with
  | String sign (String h1 (String h2 (String m1 (String m2 rest)))) =>
      '(hr, _) ← getnum (String h1 (String h2 EmptyString)) true;
      '(mm, _) ← getnum (String m1 (String m2 EmptyString)) true;
      if (24 <? hr) || (60 <? mm) then None
      else
        let zoneOffset := (hr * 60 + mm) * 60 in
        if Ascii.eqb sign "+"%char then Some (zoneOffset, rest)
        else if Ascii.eqb sign "-"%char then Some (- zoneOffset, rest)
        else None
  | _ => None
  end.

(** [time.Parse("2006-01-02 15:04:05 -0700", value)]: [None] stands for a
    non-nil error, with which Go returns [Time{}].  The result reads, in its
    own location, exactly the fields written in [value].  (Its zone
    abbreviation is empty unless the offset is one of the machine's local
    zone; no caller reads it.) *)
Definition Parse (value : string) : option Time :=
  '(year, value) ← getyear value;
  value ← skipByte "-" value;
  '(month, value) ← getnum value true;
  if (month <=? 0) || (12 <? month) then None else
  value ← skipByte "-" value;
  '(day, value) ← getnum value true;
  value ← skipSpace value;
  '(hour, value) ← getnum value false;
  if 24 <=? hour then None else
  value ← skipByte ":" value;
  '(min, value) ← getnum value true;
  if 60 <=? min then None else
  value ← skipByte ":" value;
  '(sec, value) ← getnum value true;
  if 60 <=? sec then None else
  let value := skipFraction value in
  value ← skipSpace value;
  '(zoneOffset, value) ← getzone value;
  match value with
  | EmptyString =>
      if (day <? 1) || (daysIn month year <? day) then None
      else Some (mkTime year month day hour min sec zoneOffset "")
  | _ => None
  end.

(** [time.Date(year, month, day, hour, min, sec, 0, time.UTC)].  Go
    normalises fields that are out of range; the extractor passes the date of
    a [Time], which is in range, so the fields are stored as given. *)
Definition Date (year month day hour min sec : Z) : Time :=
  mkTime year month day hour min sec 0 "UTC".

(** Days from 1970-01-01 to the given date of the proleptic Gregorian
    calendar, and the date of a day number. *)
Definition days_from_civil (y m d : Z) : Z :=
  let y' := if m <=? 2 then y - 1 else y in
  let era := y' / 400 in
  let yoe := y' - era * 400 in
  let doy := (153 * (if 2 <? m then m - 3 else m + 9) + 2) / 5 + d - 1 in
  let doe := yoe * 365 + yoe / 4 - yoe / 100 + doy in
  era * 146097 + doe - 719468.

Definition civil_from_days (z : Z) : Z * Z * Z :=
  let z := z + 719468 in
  let era := z / 146097 in
  let doe := z - era * 146097 in
  let yoe := (doe - doe / 1460 + doe / 36524 - doe / 146096) / 365 in
  let y := yoe + era * 400 in
  let doy := doe - (365 * yoe + yoe / 4 - yoe / 100) in
  let mp := (5 * doy + 2) / 153 in
  let d := doy - (153 * mp + 2) / 5 + 1 in
  let m := if mp <? 10 then mp + 3 else mp - 9 in
  (if m <=? 2 then y + 1 else y, m, d).

(** [t.Unix()]: the instant, in seconds since 1970-01-01 00:00:00 UTC. *)
Definition Unix (t : Time) : Z :=
  days_from_civil (Year t) (Month t) (Day t) * 86400
  + Hour t * 3600 + Minute t * 60 + Second t - Offset t.

(** The decimal digits of a natural number, most significant first. *)
Definition decimal (x : Z) : string :=
  DecimalString.NilZero.string_of_uint (N.to_uint (Z.to_N x)).

Fixpoint zeros (n : nat) : string :=
  match n with O => EmptyString | S k => String "0"%char (zeros k) end.

(** [appendInt(b, x, width)]: [x] in decimal, padded with zeros on the left
    to [width] digits. *)
Definition appendInt (x : Z) (width : nat) : string :=
  let ds := decimal (Z.abs x) in
  (if x <? 0 then "-" else "") +:+ zeros (width - String.length ds) +:+ ds.

(** The [-0700] element of a layout. *)
Definition numericZone (offset : Z) : string :=
  let zone := Z.quot offset 60 in
  (if zone <? 0 then "-" else "+")
  +:+ appendInt (Z.abs zone / 60) 2 +:+ appendInt (Z.abs zone mod 60) 2.

(** [t.Format("2006-01-02 15:04:05 -0700")]. *)
Definition Format (t : Time) : string :=
  appendInt (Year t) 4 +:+ "-" +:+ appendInt (Month t) 2 +:+ "-"
  +:+ appendInt (Day t) 2 +:+ " " +:+ appendInt (Hour t) 2 +:+ ":"
  +:+ appendInt (Minute t) 2 +:+ ":" +:+ appendInt (Second t) 2 +:+ " "
  +:+ numericZone (Offset t).

(** [match(s1, s2)] on one byte: equal, or letters equal up to case. *)
Definition matchByte (c1 c2 : ascii) : bool :=
  Ascii.eqb c1 c2
  || (let l1 := Nat.lor (nat_of_ascii c1) 32 in
      let l2 := Nat.lor (nat_of_ascii c2) 32 in
      (l1 =? l2)%nat && (97 <=? l1)%nat && (l1 <=? 122)%nat).

(** [name] matches the start of [val]; the rest of [val]. *)
Fixpoint matchName (name val : string) : option string :=
  match name, val with
  | EmptyString, _ => Some val
  | String c1 name', String c2 val' =>
      if matchByte c2 c1 then matchName name' val' else None
  | String _ _, EmptyString => None
  end.

(** [lookup(tab, val)]: the index of the first name of [tab] that starts
    [val], and the rest of [val]. *)
Fixpoint lookup_from (i : Z) (tab : list string) (val : string)
    : option (Z * string) :=
  match tab with
  | [] => None
  | v :: tab' =>
      match matchName v val with
      | Some rest => Some (i, rest)
      | None => lookup_from (i + 1) tab' val
      end
  end.

Definition shortDayNames : list string :=
  ["Sun"; "Mon"; "Tue"; "Wed"; "Thu"; "Fri"; "Sat"].

Definition shortMonthNames : list string :=
  ["Jan"; "Feb"; "Mar"; "Apr"; "May"; "Jun";
   "Jul"; "Aug"; "Sep"; "Oct"; "Nov"; "Dec"].

(** [time.Parse("Mon Jan 2 15:04:05 2006 -0700", value)], the layout of
    git's author date. *)
Definition ParseGit (value : string) : option Time :=
  '(_, value) ← lookup_from 0 shortDayNames value;
  value ← skipSpace value;
  '(month, value) ← lookup_from 1 shortMonthNames value;
  value ← skipSpace value;
  '(day, value) ← getnum value false;
  value ← skipSpace value;
  '(hour, value) ← getnum value false;
  if 24 <=? hour then None else
  value ← skipByte ":" value;
  '(min, value) ← getnum value true;
  if 60 <=? min then None else
  value ← skipByte ":" value;
  '(sec, value) ← getnum value true;
  if 60 <=? sec then None else
  let value := skipFraction value in
  value ← skipSpace value;
  '(year, value) ← getyear value;
  value ← skipSpace value;
  '(zoneOffset, value) ← getzone value;
  match value with
  | EmptyString =>
      if (day <? 1) || (daysIn month year <? day) then None
      else Some (mkTime year month day hour min sec zoneOffset "")
  | _ => None
  end.

(** [t.String()], layout ["2006-01-02 15:04:05.999999999 -0700 MST"], for a
    time without fractional second.  A zone without abbreviation is printed
    as its numeric offset. *)
Definition String (t : Time) : string :=
  appendInt (Year t) 4 +:+ "-" +:+ appendInt (Month t) 2 +:+ "-"
  +:+ appendInt (Day t) 2 +:+ " " +:+ appendInt (Hour t) 2 +:+ ":"
  +:+ appendInt (Minute t) 2 +:+ ":" +:+ appendInt (Second t) 2 +:+ " "
  +:+ numericZone (Offset t) +:+ " "
  +:+ (if bool_decide (Zone t = "") then numericZone (Offset t) else Zone t).

End GoTime.



(** ** Data model *)

(** Modelled from the spec: the structs [ChangedFile], [Commit] and
    [OptimizedCommitForExport] of package [commit], whose declarations are
    not among the sources.  Their fields are those of sections 3 and 6 of
    the spec, under the names and with the types the extractor reads and
    writes them. *)

Module ChangedFile.
Record t := mk {
  Path : string;
  Insertions : Z;
  Deletions : Z;
  Language : string
}.
End ChangedFile.

Module Commit.
Record t := mk {
  Hash : string;
  AuthorName : string;
  AuthorEmail : string;
  Date : string;
  ChangedFiles : list ChangedFile.t;
  Libraries : gmap string (list string)
}.
End Commit.

(** The day bucket. *)
Module OptimizedCommitForExport.
Record t := mk {
  AuthorEmails : list string;
  Date : string;
  Languages : list string;
  Libraries : gmap string (list string);
  Insertions : Z;
  Deletions : Z;
  Commits : Z
}.
End OptimizedCommitForExport.

(** ** The harvester: [commitWorker] and [getCommits] *)

(** The errors [commitWorker] returns: the one of [strconv.Atoi] on the
    field it could not read, and the one of line 406, "did not expect
    current commit to be null". *)
Inductive error : Type :=
  | errAtoi (field : string)
  | errNilCommit.

(** What a Go function call comes to: a value, a non-nil [error], or a
    run-time panic (an index out of range), which ends the process. *)
Inductive outcome (A : Type) : Type :=
  | Returned (a : A)
  | Failed (err : error)
  | Panicked.
Arguments Returned {A} a.
Arguments Failed {A} err.
Arguments Panicked {A}.

(** The locals of the scanner loop of [commitWorker]: the commits already
    closed and the commit being read ([nil] before the first header). *)
Record scanState := mkScan {
  commits : list Commit.t;
  currectCommit : option Commit.t
}.

(** The condition of line 394, [strings.Contains("=>", fileName)]. *)
Definition renameSkip (fileName : string) : bool :=
  GoStrings.Contains "=>" fileName.

(** Lines 350-366: the commit announced by a header line. *)
Definition parseHeader (m : string) : outcome Commit.t :=
  let m := GoStrings.Replace m "|||BEGIN|||" "" 1 in
  let bits := GoStrings.Split m "|||SEP|||" in
  match bits !! 3%nat with
  | None => Panicked
  | Some bits3 =>
      let dateStr :=
        match GoTime.ParseGit bits3 with
        | Some t => GoTime.Format t
        | None => ""
        end in
      match bits with
      | bits0 :: bits1 :: bits2 :: _ =>
          Returned {| Commit.Hash := bits0;
                      Commit.AuthorName := bits1;
                      Commit.AuthorEmail := bits2;
                      Commit.Date := dateStr;
                      Commit.ChangedFiles := [];
                      Commit.Libraries := ∅ |}
      | _ => Panicked
      end
  end.

(** A numeric field of a numstat row: [-] stands for 0. *)
Definition statField (field : string) : option Z :=
  GoStrings.Atoi (if bool_decide (field = "-") then "0" else field).

(** Lines 370-414: a numstat row.  ([currectCommit.ChangedFiles] is never
    [nil]: the check of line 409 cannot fail.) *)
Definition parseRow (st : scanState) (m : string) : outcome scanState :=
  let bits := GoStrings.Fields m in
  match bits !! 0%nat with
  | None => Panicked
  | Some insertionsString =>
      match statField insertionsString with
      | None => Failed (errAtoi insertionsString)
      | Some insertions =>
          match bits !! 1%nat with
          | None => Panicked
          | Some deletionsString =>
              match statField deletionsString with
              | None => Failed (errAtoi deletionsString)
              | Some deletions =>
                  match bits !! 2%nat with
                  | None => Panicked
                  | Some fileName =>
                      if renameSkip fileName then Returned st
                      else
                        match currectCommit st with
                        | None => Failed errNilCommit
                        | Some c =>
                            let changedFile :=
                              {| ChangedFile.Path := fileName;
                                 ChangedFile.Insertions := insertions;
                                 ChangedFile.Deletions := deletions;
                                 ChangedFile.Language := "" |} in
                            Returned
                              (mkScan (commits st)
                                 (Some {| Commit.Hash := Commit.Hash c;
                                          Commit.AuthorName := Commit.AuthorName c;
                                          Commit.AuthorEmail := Commit.AuthorEmail c;
                                          Commit.Date := Commit.Date c;
                                          Commit.ChangedFiles :=
                                            Commit.ChangedFiles c ++ [changedFile];
                                          Commit.Libraries := Commit.Libraries c |}))
                        end
                  end
              end
          end
      end
  end.

(** The commits closed so far, with the commit being read appended. *)
Definition flush (st : scanState) : list Commit.t :=
  match currectCommit st with
  | Some c => commits st ++ [c]
  | None => commits st
  end.

(** Lines 337-414: one line of the log output. *)
Definition scanLine (st : scanState) (m : string) : outcome scanState :=
  if bool_decide (m = "") then Returned st
  else if GoStrings.HasPrefix m "|||BEGIN|||" then
    match parseHeader m with
    | Returned c => Returned (mkScan (flush st) (Some c))
    | Failed e => Failed e
    | Panicked => Panicked
    end
  else parseRow st m.

(** Lines 336-415: the scanner loop over the lines of the output. *)
Fixpoint scanLines (st : scanState) (lines : list string) : outcome scanState :=
  match lines with
  | [] => Returned st
  | m :: rest =>
      match scanLine st m with
      | Returned st' => scanLines st' rest
      | Failed e => Failed e
      | Panicked => Panicked
      end
  end.

(** Lines 310-421: the commits of one job, from the lines git printed for
    it. *)
Definition parsePage (lines : list string) : outcome (list Commit.t) :=
  match scanLines (mkScan [] None) lines with
  | Returned st => Returned (flush st)
  | Failed e => Failed e
  | Panicked => Panicked
  end.

(** What a worker sends to the coordinator: a batch on [results] or a signal
    on [noMoreChan]. *)
Inductive harvestEvent : Type :=
  | Results (batch : list Commit.t)
  | NoMore.

(** [commitWorker]: the sends of a worker and the outcome of the call, for
    the outputs of the jobs it takes, in order.  After a [noMoreChan] send
    the worker returns; it also returns when [jobs] is closed. *)
Fixpoint commitWorker (pages : list (list string))
    : list harvestEvent * outcome unit :=
  match pages with
  | [] => ([], Returned tt)
  | lines :: rest =>
      match parsePage lines with
      | Failed e => ([], Failed e)
      | Panicked => ([], Panicked)
      | Returned [] => ([NoMore], Returned tt)
      | Returned batch =>
          let '(sent, res) := commitWorker rest in (Results batch :: sent, res)
      end
  end.

(** What the select of [getCommits] can receive: a batch, an exhaustion
    signal, or the expiry of the deadline.  An error returned by
    [commitWorker] is printed by the goroutine of lines 205-210 and reaches
    no channel. *)
Inductive coordinatorEvent : Type :=
  | FromResults (res : list Commit.t)
  | FromNoMore
  | CtxDone.

(** Lines 235-261: the select loop of [getCommits] on the events it
    receives, and the pair of commits and error it returns.  [None]: the
    events end while the loop still waits (it blocks).  (The offset of the
    next job, which the loop advances and sends at every batch, has no
    bearing on what is returned and is left out.) *)
Fixpoint getCommits_loop (numCPU : Z) (commits : list Commit.t)
    (workersReturnedNoMore : Z) (events : list coordinatorEvent)
    : option (list Commit.t * option error) :=
  match events with
  | [] => None
  | FromResults res :: rest =>
      getCommits_loop numCPU (commits ++ res) workersReturnedNoMore rest
  | FromNoMore :: rest =>
      if workersReturnedNoMore + 1 =? numCPU then Some (commits, None)
      else getCommits_loop numCPU commits (workersReturnedNoMore + 1) rest
  | CtxDone :: _ => Some (commits, None)
  end.



(** ** The analysis worker: [libraryWorker] *)

(** Lines 555-561: the identifiers extracted from one file are stored under
    its language. *)
Definition storeFileLibraries (lang : string) (fileLibraries : list string)
    (libraries : gmap string (list string)) : gmap string (list string) :=
  <[lang := default [] (libraries !! lang)
            ++ map (fun fileLibrary => GoStrings.Replace fileLibrary "../" "" (-1))
                 fileLibraries]> libraries.

(** What a worker sends: an enriched commit on [r.commitPipeline] or a
    completion signal on [results].  The sends of a worker are listed in the
    order in which it makes them. *)
Inductive workerEvent : Type :=
  | SendCommit (c : Commit.t)
  | SendResult.

Definition setLanguage (lang : string) (f : ChangedFile.t) : ChangedFile.t :=
  {| ChangedFile.Path := ChangedFile.Path f;
     ChangedFile.Insertions := ChangedFile.Insertions f;
     ChangedFile.Deletions := ChangedFile.Deletions f;
     ChangedFile.Language := lang |}.

Definition withLibraries (c : Commit.t) (files : list ChangedFile.t)
    (libraries : gmap string (list string)) : Commit.t :=
  {| Commit.Hash := Commit.Hash c;
     Commit.AuthorName := Commit.AuthorName c;
     Commit.AuthorEmail := Commit.AuthorEmail c;
     Commit.Date := Commit.Date c;
     Commit.ChangedFiles := files;
     Commit.Libraries := libraries |}.

Section AnalysisWorker.

(** The language detector, the analyzer registry and the retrieval of a
    file at a revision are outside the extractor package.  An analyzer is
    taken as the list [ExtractLibraries] returns: its error is only printed
    (line 553).  [getFileContent] gives [None] for a non-nil error. *)
Variable ShouldUseFile : string -> bool.
Variable DetectLanguageFromFile : string -> string -> string.
Variable DetectLanguageFromExtension : string -> string.
Variable GetAnalyzer : string -> option (string -> list string).
Variable getFileContent : string -> string -> option string.
Variable SkipLibraries : bool.

(** Lines 511-562: one changed file, when the deadline has not expired.
    [files] is [c.ChangedFiles], whose element [n] is the file.  The content
    read for the detection is used again for the extraction.  (Go reads it
    a second time at line 546 when the first read gave no byte; the
    retrieval being a function of the revision and the path, the result is
    the same.) *)
Definition analyseFile (hash : string) (n : nat) (fileChange : ChangedFile.t)
    (files : list ChangedFile.t) (libraries : gmap string (list string))
    : list ChangedFile.t * gmap string (list string) :=
  let extension := GoStrings.Ext (ChangedFile.Path fileChange) in
  if bool_decide (extension = "") then (files, libraries)
  else
    let extension := String.substring 1 (String.length extension - 1) extension in
    let detected :=
      if ShouldUseFile extension then
        match getFileContent hash (ChangedFile.Path fileChange) with
        | None => None
        | Some fileContents =>
            Some (DetectLanguageFromFile (ChangedFile.Path fileChange) fileContents,
                  Some fileContents)
        end
      else Some (DetectLanguageFromExtension extension, None) in
    match detected with
    | None => (files, libraries)
    | Some (lang, fileContents) =>
        if bool_decide (lang = "") then (files, libraries)
        else
          let files := alter (setLanguage lang) n files in
          if SkipLibraries then (files, libraries)
          else
            match GetAnalyzer lang with
            | None => (files, libraries)
            | Some analyzer =>
                let fetched :=
                  match fileContents with
                  | Some contents => Some contents
                  | None => getFileContent hash (ChangedFile.Path fileChange)
                  end in
                match fetched with
                | None => (files, libraries)
                | Some contents =>
                    (files, storeFileLibraries lang (analyzer contents) libraries)
                end
            end
    end.

(** Lines 497-563: the loop over the changed files of one commit, from file
    [n] on.  [done n] tells whether [ctx.Done()] is ready at the select of
    iteration [n].  [c] carries the identity of the commit; [sent] is what
    the worker has sent so far.  A commit is sent with the files and the
    libraries as they are at the time of the send: once the deadline has
    expired it stays expired, and nothing is written to them afterwards. *)
Fixpoint analyseFiles (done : nat -> bool) (c : Commit.t) (n : nat)
    (remaining : list ChangedFile.t) (files : list ChangedFile.t)
    (libraries : gmap string (list string)) (sent : list workerEvent)
    : list ChangedFile.t * gmap string (list string) * list workerEvent :=
  match remaining with
  | [] => (files, libraries, sent)
  | fileChange :: rest =>
      if done n then
        analyseFiles done c (S n) rest files libraries
          (sent ++ [SendCommit (withLibraries c files libraries); SendResult])
      else
        let '(files', libraries') :=
          analyseFile (Commit.Hash c) n fileChange files libraries in
        analyseFiles done c (S n) rest files' libraries' sent
  end.

(** Lines 487-567: one commit taken from the job queue. *)
Definition analyseCommit (done : nat -> bool) (commitToAnalyse : Commit.t)
    : list workerEvent :=
  let '(files, libraries, sent) :=
    analyseFiles done commitToAnalyse 0 (Commit.ChangedFiles commitToAnalyse)
      (Commit.ChangedFiles commitToAnalyse) ∅ [] in
  sent ++ [SendCommit (withLibraries commitToAnalyse files libraries); SendResult].

(** [libraryWorker]: the sends of a worker for the commits it takes.
    [done k] is the state of the deadline during the [k]-th commit. *)
Fixpoint libraryWorker_from (done : nat -> nat -> bool) (k : nat)
    (commits : list Commit.t) : list workerEvent :=
  match commits with
  | [] => []
  | commitToAnalyse :: rest =>
      analyseCommit (done k) commitToAnalyse
      ++ libraryWorker_from done (S k) rest
  end.

Definition libraryWorker (done : nat -> nat -> bool) (commits : list Commit.t)
    : list workerEvent :=
  libraryWorker_from done 0 commits.

End AnalysisWorker.

(** The enriched commits among the sends of a worker, and the number of
    completion signals. *)
Definition sentCommits (sent : list workerEvent) : list Commit.t :=
  omap (fun e => match e with SendCommit c => Some c | SendResult => None end) sent.

Definition sentResults (sent : list workerEvent) : nat :=
  length (omap (fun e => match e with SendResult => Some tt | SendCommit _ => None end) sent).

(** ** Helpers of the aggregator *)

Definition getStartOfDayFromStringDate (dateString : string) : GoTime.Time :=
  let commitDate := default GoTime.zero (GoTime.Parse dateString) in
  GoTime.Date (GoTime.Year commitDate) (GoTime.Month commitDate)
    (GoTime.Day commitDate) 0 0 0.

Fixpoint contains (slice : list string) (value : string) : bool :=
  match slice with
  | [] => false
  | sliceItem :: rest =>
      if bool_decide (sliceItem = value) then true else contains rest value
  end.

(** The loop of [commitContainsExistingDate], at position [index]. *)
Fixpoint commitContainsExistingDate_from (index : Z)
    (slice : list OptimizedCommitForExport.t) (value : string) : bool * Z :=
  match slice with
  | [] => (false, -1)
  | sliceItem :: rest =>
      if bool_decide (OptimizedCommitForExport.Date sliceItem = value)
      then (true, index)
      else commitContainsExistingDate_from (index + 1) rest value
  end.

Definition commitContainsExistingDate
    (slice : list OptimizedCommitForExport.t) (value : string) : bool * Z :=
  commitContainsExistingDate_from 0 slice value.

(** The loop of [removeDuplicateStrings] with its two locals, the set
    [allKeys] and the slice [list] (here [list_]). *)
Fixpoint removeDuplicateStrings_from (allKeys : gset string)
    (list_ : list string) (slice : list string) : list string :=
  match slice with
  | [] => list_
  | item :: rest =>
      if bool_decide (item ∈ allKeys)
      then removeDuplicateStrings_from allKeys list_ rest
      else removeDuplicateStrings_from ({[item]} ∪ allKeys) (list_ ++ [item]) rest
  end.

Definition removeDuplicateStrings (slice : list string) : list string :=
  removeDuplicateStrings_from ∅ [] slice.

Definition addUniqueEmailToCommitAuthorEmailsSlice (slice : list string)
    (email : string) : list string :=
  if contains slice email then slice else slice ++ [email].

(** ** The aggregator: the select loop of [export] *)

(** Lines 652-661: the languages and the line totals of one commit. *)
Definition commitTotals (files : list ChangedFile.t) : list string * Z * Z :=
  foldl
    (fun '(commitLanguages, commitInsertions, commitDeletions) commitChangedFile =>
       (if negb (contains commitLanguages (ChangedFile.Language commitChangedFile))
           && negb (bool_decide (ChangedFile.Language commitChangedFile = ""))
        then commitLanguages ++ [ChangedFile.Language commitChangedFile]
        else commitLanguages,
        GoInt.add commitInsertions (ChangedFile.Insertions commitChangedFile),
        GoInt.add commitDeletions (ChangedFile.Deletions commitChangedFile)))
    ([], 0, 0) files.

(** Lines 668-672: one item of a commit's library list for a language the
    bucket already has. *)
Definition appendMissing (newLibraryKey : string)
    (newLibraries : gmap string (list string)) (libraryItem : string)
    : gmap string (list string) :=
  if contains (default [] (newLibraries !! newLibraryKey)) libraryItem
  then newLibraries
  else <[newLibraryKey :=
           default [] (newLibraries !! newLibraryKey) ++ [libraryItem]]>
         newLibraries.

(** Lines 667-675: one language of the commit. *)
Definition mergeLibrary (newLibraryKey : string) (newLibrary : list string)
    (newLibraries : gmap string (list string)) : gmap string (list string) :=
  match newLibraries !! newLibraryKey with
  | Some _ => foldl (appendMissing newLibraryKey) newLibraries newLibrary
  | None => <[newLibraryKey := removeDuplicateStrings newLibrary]> newLibraries
  end.

(** Line 666: the range over the commit's map.  Go visits the keys in an
    unspecified order; [map_fold] visits them in some order, and
    [mergeLibraries_any_order] below shows that the order does not matter. *)
Definition mergeLibraries (commitLibraries newLibraries : gmap string (list string))
    : gmap string (list string) :=
  map_fold mergeLibrary newLibraries commitLibraries.

Section Aggregator.

(** [r.HashImportant] and [obfuscation.Obfuscate], which is not part of the
    extractor package; it rewrites the bucket it is given. *)
Variable HashImportant : bool.
Variable Obfuscate : OptimizedCommitForExport.t -> OptimizedCommitForExport.t.

(** Lines 663-682: the bucket at [index] after the commit is merged in. *)
Definition mergeIntoBucket (bucket : OptimizedCommitForExport.t)
    (commitFromPipeline : Commit.t) (commitInsertions commitDeletions : Z)
    : OptimizedCommitForExport.t :=
  let newLibraries :=
    mergeLibraries (Commit.Libraries commitFromPipeline)
      (OptimizedCommitForExport.Libraries bucket) in
  {| OptimizedCommitForExport.AuthorEmails :=
       addUniqueEmailToCommitAuthorEmailsSlice
         (OptimizedCommitForExport.AuthorEmails bucket)
         (Commit.AuthorEmail commitFromPipeline);
     OptimizedCommitForExport.Date := OptimizedCommitForExport.Date bucket;
     OptimizedCommitForExport.Languages := OptimizedCommitForExport.Languages bucket;
     OptimizedCommitForExport.Libraries := newLibraries;
     OptimizedCommitForExport.Insertions :=
       GoInt.add (OptimizedCommitForExport.Insertions bucket) commitInsertions;
     OptimizedCommitForExport.Deletions :=
       GoInt.add (OptimizedCommitForExport.Deletions bucket) commitDeletions;
     OptimizedCommitForExport.Commits :=
       GoInt.add (OptimizedCommitForExport.Commits bucket) 1 |}.

(** Lines 684-703: the bucket created for a commit whose day has none. *)
Definition newBucket (commitFromPipeline : Commit.t) (date : string)
    (commitLanguages : list string) (commitInsertions commitDeletions : Z)
    : OptimizedCommitForExport.t :=
  let librariesWithoutDuplicity :=
    removeDuplicateStrings <$> Commit.Libraries commitFromPipeline in
  let optimizedCommit :=
    {| OptimizedCommitForExport.AuthorEmails := [Commit.AuthorEmail commitFromPipeline];
       OptimizedCommitForExport.Date := date;
       OptimizedCommitForExport.Languages := commitLanguages;
       OptimizedCommitForExport.Libraries := librariesWithoutDuplicity;
       OptimizedCommitForExport.Insertions := commitInsertions;
       OptimizedCommitForExport.Deletions := commitDeletions;
       OptimizedCommitForExport.Commits := 1 |} in
  if HashImportant then Obfuscate optimizedCommit else optimizedCommit.

(** Lines 649-704: the case [commitFromPipeline := <-r.commitPipeline]. *)
Definition receiveCommit
    (preparedCommitsDataForExport : list OptimizedCommitForExport.t)
    (commitFromPipeline : Commit.t) : list OptimizedCommitForExport.t :=
  let commitDateStartHour :=
    getStartOfDayFromStringDate (Commit.Date commitFromPipeline) in
  let '(commitLanguages, commitInsertions, commitDeletions) :=
    commitTotals (Commit.ChangedFiles commitFromPipeline) in
  let '(_, index) :=
    commitContainsExistingDate preparedCommitsDataForExport
      (GoTime.String commitDateStartHour) in
  if -1 <? index then
    match preparedCommitsDataForExport !! Z.to_nat index with
    | Some bucket =>
        <[Z.to_nat index :=
            mergeIntoBucket bucket commitFromPipeline commitInsertions commitDeletions]>
          preparedCommitsDataForExport
    | None => preparedCommitsDataForExport
    end
  else
    preparedCommitsDataForExport
    ++ [newBucket commitFromPipeline (GoTime.String commitDateStartHour)
          commitLanguages commitInsertions commitDeletions].

(** Lines 646-709: the loop, for the commits received before the completion
    signal, in their order of arrival. *)
Definition exportLoop (received : list Commit.t) : list OptimizedCommitForExport.t :=
  foldl receiveCommit [] received.

End Aggregator.


(** ** Notions used to state the properties *)

(** The union of two identifier lists that keeps the order of arrival:
    the items of [new] that [cur] lacks are appended one by one. *)
Definition unionInto (cur new : list string) : list string :=
  foldl (fun l item => if contains l item then l else l ++ [item]) cur new.

(** No library list of the bucket holds an identifier twice. *)
Definition librariesNoDup (b : OptimizedCommitForExport.t) : Prop :=
  forall k v, OptimizedCommitForExport.Libraries b !! k = Some v -> NoDup v.

(** The languages of a commit, as the loop of lines 655-661 collects them. *)
Definition commitLanguagesOf (files : list ChangedFile.t) : list string :=
  foldl
    (fun commitLanguages f =>
       if negb (contains commitLanguages (ChangedFile.Language f))
          && negb (bool_decide (ChangedFile.Language f = ""))
       then commitLanguages ++ [ChangedFile.Language f]
       else commitLanguages)
    [] files.

(** What the harvester recorded of a changed file: its path and counts. *)
Definition fileCounts (f : ChangedFile.t) : string * Z * Z :=
  (ChangedFile.Path f, ChangedFile.Insertions f, ChangedFile.Deletions f).

(** The sum of a count over the changed files of a commit, in [Z]. *)
Definition totalOf (count : ChangedFile.t -> Z) (files : list ChangedFile.t) : Z :=
  foldr (fun f acc => count f + acc) 0 files.

(** The sum of a count over all the changed files of a list of commits. *)
Definition totalOver (count : ChangedFile.t -> Z) (l : list Commit.t) : Z :=
  foldr (fun c acc => totalOf count (Commit.ChangedFiles c) + acc) 0 l.

(** The day key of a commit. *)
Definition dayKey (c : Commit.t) : string :=
  GoTime.String (getStartOfDayFromStringDate (Commit.Date c)).


(** The merge of lines 663-682, with the totals of the commit. *)
Definition mergeCommit (b : OptimizedCommitForExport.t) (c : Commit.t)
    : OptimizedCommitForExport.t :=
  mergeIntoBucket b c
    (GoInt.wrap (totalOf ChangedFile.Insertions (Commit.ChangedFiles c)))
    (GoInt.wrap (totalOf ChangedFile.Deletions (Commit.ChangedFiles c))).

(** The commits of a day among the commits received, in their order of
    arrival, and the bucket they make: the bucket the first one opens, with
    the others merged in. *)
Definition commitsOfDay (key : string) (received : list Commit.t) : list Commit.t :=
  filter (fun c => dayKey c = key) received.

Definition bucketOfDay (HashImportant : bool)
    (Obfuscate : OptimizedCommitForExport.t -> OptimizedCommitForExport.t)
    (key : string) (received : list Commit.t) : list OptimizedCommitForExport.t :=
  match commitsOfDay key received with
  | [] => []
  | c :: rest =>
      [foldl mergeCommit
         (newBucket HashImportant Obfuscate c key
            (commitLanguagesOf (Commit.ChangedFiles c))
            (GoInt.wrap (totalOf ChangedFile.Insertions (Commit.ChangedFiles c)))
            (GoInt.wrap (totalOf ChangedFile.Deletions (Commit.ChangedFiles c))))
         rest]
  end.

(** The start, as an instant, of the UTC day that contains an instant. *)
Definition utcDayStart (unix : Z) : Z := unix / 86400 * 86400.

(** The day key of the data model, in the spec's words: the commit's date
    truncated to a UTC day boundary, that is midnight UTC of the UTC day that
    contains the commit's instant. *)
Definition utcDayOf (t : GoTime.Time) : GoTime.Time :=
  let '(y, m, d) := GoTime.civil_from_days (GoTime.Unix t / 86400) in
  GoTime.Date y m d 0 0 0.

(** The parts of the calendar computation: the year of an era of 400 years
    that holds a day of the era, and the days of the era before a year.  A
    year of the era starts on March 1 and has a 366th day when the calendar
    year that follows its start is a leap year. *)
Definition yearOfEra (doe : Z) : Z :=
  (doe - doe / 1460 + doe / 36524 - doe / 146096) / 365.

Definition daysBefore (yoe : Z) : Z := yoe * 365 + yoe / 4 - yoe / 100.

Definition longYear (yoe : Z) : bool := GoTime.isLeap (yoe + 1).

(** An identifier with its leading relative-path markers stripped, and only
    those, in the spec's words. *)
Fixpoint stripLeadingMarkers_fuel (fuel : nat) (s : string) : string :=
  match fuel with
  | O => s
  | S k =>
      match s with
      | String "."%char (String "."%char (String "/"%char rest)) =>
          stripLeadingMarkers_fuel k rest
      | _ => s
      end
  end.

Definition stripLeadingMarkers (s : string) : string :=
  stripLeadingMarkers_fuel (String.length s) s.

(** Whether the deadline is seen expired at one of the [len] iterations that
    start at iteration [n], counted. *)
Fixpoint expiredIterations (done : nat -> bool) (n len : nat) : nat :=
  match len with
  | O => O
  | S len' => (if done n then 1 else 0)%nat + expiredIterations done (S n) len'
  end.



(** ** Sample data *)

(** Lines of git's output: a header and numstat rows, whose columns git
    separates by tabs. *)
Definition tab : string := String (ascii_of_nat 9) EmptyString.

Definition numstat (insertions deletions path : string) : string :=
  insertions +:+ tab +:+ deletions +:+ tab +:+ path.

Definition headerAnn : string :=
  "|||BEGIN|||h1|||SEP|||Ann|||SEP|||ann@x.org|||SEP|||Mon Jan 1 10:00:00 2024 +0000".

Definition commitAnn (files : list ChangedFile.t) : Commit.t :=
  {| Commit.Hash := "h1"; Commit.AuthorName := "Ann";
     Commit.AuthorEmail := "ann@x.org";
     Commit.Date := "2024-01-01 10:00:00 +0000";
     Commit.ChangedFiles := files;
     Commit.Libraries := ∅ |}.

Definition pageGood : list string :=
  [headerAnn; ""; numstat "3" "1" "a.go"; numstat "-" "-" "img.png"].




(** Two enriched commits of 2024-01-01, by two authors, one touching a Go
    file and one a Python file. *)
Definition commitGo : Commit.t :=
  {| Commit.Hash := "h1"; Commit.AuthorName := "Ann";
     Commit.AuthorEmail := "ann@x.org";
     Commit.Date := "2024-01-01 10:00:00 +0000";
     Commit.ChangedFiles :=
       [ChangedFile.mk "a.go" 3 1 "Go"; ChangedFile.mk "README" 5 0 ""];
     Commit.Libraries := {["Go" := ["fmt"; "os"; "fmt"]]} |}.

Definition commitPython : Commit.t :=
  {| Commit.Hash := "h2"; Commit.AuthorName := "Bob";
     Commit.AuthorEmail := "bob@x.org";
     Commit.Date := "2024-01-01 23:00:00 +0000";
     Commit.ChangedFiles := [ChangedFile.mk "b.py" 7 2 "Python"];
     Commit.Libraries := {["Python" := ["re"]; "Go" := ["os"; "io"]]} |}.

(** A harvested commit with one changed file. *)
Definition commitOneFile : Commit.t :=
  {| Commit.Hash := "h3"; Commit.AuthorName := "Ann";
     Commit.AuthorEmail := "ann@x.org";
     Commit.Date := "2024-01-03 09:00:00 +0000";
     Commit.ChangedFiles := [ChangedFile.mk "main.go" 4 2 ""];
     Commit.Libraries := ∅ |}.

(** Two commits made at the same instant, 2024-01-02 04:00:00 UTC, by authors
    in two time zones. *)
Definition commitEvening : Commit.t :=
  {| Commit.Hash := "h4"; Commit.AuthorName := "Ann";
     Commit.AuthorEmail := "ann@x.org";
     Commit.Date := "2024-01-01 23:00:00 -0500";
     Commit.ChangedFiles := []; Commit.Libraries := ∅ |}.

Definition commitNight : Commit.t :=
  {| Commit.Hash := "h5"; Commit.AuthorName := "Bob";
     Commit.AuthorEmail := "bob@x.org";
     Commit.Date := "2024-01-02 04:00:00 +0000";
     Commit.ChangedFiles := []; Commit.Libraries := ∅ |}.

(** Two commits whose dates do not parse: the empty date the harvester
    stores for a date line it cannot read, and a date in another layout. *)
Definition commitNoDate : Commit.t :=
  {| Commit.Hash := "h6"; Commit.AuthorName := "Ann";
     Commit.AuthorEmail := "ann@x.org";
     Commit.Date := "";
     Commit.ChangedFiles := [ChangedFile.mk "a.go" 1 0 "Go"];
     Commit.Libraries := ∅ |}.


(** An obfuscation that replaces every author email of a bucket. *)
Definition hideEmails (b : OptimizedCommitForExport.t) : OptimizedCommitForExport.t :=
  {| OptimizedCommitForExport.AuthorEmails :=
       map (fun _ => "hidden") (OptimizedCommitForExport.AuthorEmails b);
     OptimizedCommitForExport.Date := OptimizedCommitForExport.Date b;
     OptimizedCommitForExport.Languages := OptimizedCommitForExport.Languages b;
     OptimizedCommitForExport.Libraries := OptimizedCommitForExport.Libraries b;
     OptimizedCommitForExport.Insertions := OptimizedCommitForExport.Insertions b;
     OptimizedCommitForExport.Deletions := OptimizedCommitForExport.Deletions b;
     OptimizedCommitForExport.Commits := OptimizedCommitForExport.Commits b |}.

From Stdlib Require DecimalFacts DecimalN.

(** * The rest of the extractor

    The name of the repository ([initRepo], [GetRepoName]), the selection of
    the user's commits ([getAllEmails], [getEmailsWithoutNames],
    [analyseCommits]) and the jobs [getCommits] hands out. *)

(** ** More of Go's [strings] and [int] *)

(** [strings.HasSuffix(s, suffix)]:
    [len(s) >= len(suffix) && s[len(s)-len(suffix):] == suffix]. *)
Definition HasSuffix (s suffix : string) : bool :=
  (String.length suffix <=? String.length s)%nat
  && bool_decide
       (String.substring (String.length s - String.length suffix)
          (String.length suffix) s = suffix).

(** [strings.TrimSuffix(s, suffix)]: [s[:len(s)-len(suffix)]] when [s] ends
    with [suffix], else [s]. *)
Definition TrimSuffix (s suffix : string) : string :=
  if HasSuffix s suffix
  then String.substring 0 (String.length s - String.length suffix) s
  else s.

(** A byte of a cutset. *)
Fixpoint inCutset (c : ascii) (cutset : string) : bool :=
  match cutset with
  | EmptyString => false
  | String k cutset' => Ascii.eqb c k || inCutset c cutset'
  end.

(** [strings.TrimRight(s, cutset)]: [s] without its trailing bytes that are
    in [cutset]. *)
Fixpoint TrimRight (s cutset : string) : string :=
  match s with
  | EmptyString => EmptyString
  | String c s' =>
      match TrimRight s' cutset with
      | EmptyString => if inCutset c cutset then EmptyString else String c EmptyString
      | r => String c r
      end
  end.

(** [a * b] on [int]. *)
Definition int_mul (a b : Z) : Z := GoInt.wrap (a * b).

(** ** The name of the repository: [initRepo] and [GetRepoName] *)

(** [parts[len(parts)-1]]: a panic on an empty slice. *)
Definition lastPart (parts : list string) : outcome string :=
  match last parts with
  | Some part => Returned part
  | None => Panicked
  end.

(** Lines 119-140.  [RepoPath] is the field [r.RepoPath]. *)
Definition GetRepoName (RepoPath remoteOrigin : string) : outcome string :=
  if bool_decide (remoteOrigin = "") then
    lastPart (GoStrings.Split RepoPath "/")
  else
    let remoteOrigin := TrimSuffix remoteOrigin ".git" in
    if GoStrings.Contains remoteOrigin "http" then
      lastPart (GoStrings.Split remoteOrigin "/")
    else
      match lastPart (GoStrings.Split remoteOrigin ":") with
      | Returned repoName => lastPart (GoStrings.Split repoName "/")
      | Failed e => Failed e
      | Panicked => Panicked
      end.

(** The struct [repo] of lines 733-737. *)
Record repo := mkRepo {
  RepoName : string;
  Emails : list string;
  SuggestedEmails : list string
}.

Definition carriageReturn : ascii := ascii_of_nat 13.
Definition lineFeed : ascii := ascii_of_nat 10.

(** Lines 84-114: [out] is what [git config --get remote.origin.url]
    printed; its error is only reported (line 98) and the output is used in
    either case. *)
Definition initRepo (RepoPath out : string) : outcome repo :=
  let remoteOrigin := out in
  let remoteOrigin :=
    TrimRight remoteOrigin (String carriageReturn (String lineFeed EmptyString)) in
  let remoteOrigin := TrimRight remoteOrigin (String lineFeed EmptyString) in
  match GetRepoName RepoPath remoteOrigin with
  | Returned repoName =>
      Returned {| RepoName := repoName; Emails := []; SuggestedEmails := [] |}
  | Failed e => Failed e
  | Panicked => Panicked
  end.

(** ** The selection of the user's commits *)

(** [fmt.Sprintf("%s -> %s", v.AuthorName, v.AuthorEmail)]. *)
Definition emailEntry (v : Commit.t) : string :=
  Commit.AuthorName v +:+ " -> " +:+ Commit.AuthorEmail v.

(** Lines 264-274: the loop of [getAllEmails] with its two locals. *)
Fixpoint getAllEmails_from (emails : gmap string bool) (allEmails : list string)
    (commits : list Commit.t) : list string :=
  match commits with
  | [] => allEmails
  | v :: rest =>
      match emails !! Commit.AuthorEmail v with
      | None =>
          getAllEmails_from (<[Commit.AuthorEmail v := true]> emails)
            (allEmails ++ [emailEntry v])
            rest
      | Some _ => getAllEmails_from emails allEmails rest
      end
  end.

Definition getAllEmails (commits : list Commit.t) : list string :=
  getAllEmails_from ∅ [] commits.

(** Lines 276-288: the loop of [getEmailsWithoutNames] at index [i].  The
    slice is made with [len(emails)] empty strings and written by index;
    [fields[1]] panics when the entry has no separator. *)
Fixpoint getEmailsWithoutNames_from (i : nat)
    (emailsWithoutNames : gmap string bool) (emailsWithoutNamesArray : list string)
    (emails : list string) : outcome (list string * gmap string bool) :=
  match emails with
  | [] => Returned (emailsWithoutNamesArray, emailsWithoutNames)
  | selectedEmail :: rest =>
      let fields := GoStrings.Split selectedEmail " -> " in
      if (0 <? length fields)%nat then
        match fields !! 1%nat with
        | None => Panicked
        | Some field1 =>
            getEmailsWithoutNames_from (S i)
              (<[field1 := true]> emailsWithoutNames)
              (<[i := field1]> emailsWithoutNamesArray) rest
        end
      else
        getEmailsWithoutNames_from (S i) emailsWithoutNames
          emailsWithoutNamesArray rest
  end.

Definition getEmailsWithoutNames (emails : list string)
    : outcome (list string * gmap string bool) :=
  getEmailsWithoutNames_from 0 ∅ (replicate (length emails) "") emails.

Section AnalyseCommits.

(** [ui.SelectEmail] is outside the extractor package: it shows the entries
    and returns the ones the user picked.  [UserEmails] is the field
    [r.UserEmails]. *)
Variable SelectEmail : list string -> list string.
Variable UserEmails : list string.

(** Lines 159-198.  [got] is what [getCommits] returned; the state is the
    pair of [r.repo.Emails] and [r.userCommits].  The test on the number of
    commits comes before the test on the error. *)
Definition analyseCommits (got : list Commit.t * option error)
    (state : list string * list Commit.t)
    : outcome (list string * list Commit.t) :=
  let '(commits, err) := got in
  let '(repoEmails, userCommitsBefore) := state in
  if (length commits =? 0)%nat then Returned (repoEmails, userCommitsBefore)
  else
    match err with
    | Some e => Failed e
    | None =>
        let allEmails := getAllEmails commits in
        let chosen : outcome (list string * gmap string bool) :=
          if (length UserEmails =? 0)%nat then
            match getEmailsWithoutNames (SelectEmail allEmails) with
            | Returned (emails, emailsMap) =>
                Returned
                  (repoEmails ++ emails,
                   map_fold (fun mail _ selectedEmails => <[mail := true]> selectedEmails)
                     ∅ emailsMap)
            | Failed e => Failed e
            | Panicked => Panicked
            end
          else
            Returned
              (repoEmails ++ UserEmails,
               foldl (fun selectedEmails email => <[email := true]> selectedEmails)
                 ∅ UserEmails) in
        match chosen with
        | Returned (repoEmails, selectedEmails) =>
            Returned
              (repoEmails,
               filter (fun v => is_Some (selectedEmails !! Commit.AuthorEmail v))
                 commits)
        | Failed e => Failed e
        | Panicked => Panicked
        end
    end.

End AnalyseCommits.

(** ** The jobs of [getCommits] *)

(** The struct [req] of lines 739-742. *)
Record req := mkReq {
  Limit : Z;
  Offset : Z
}.

Definition step : Z := 1000.

(** Lines 216-222: the initial jobs, one for every processor, from [x] on;
    [n] is the number of iterations left.  The jobs sent and the value of
    [lastOffset] at the end. *)
Fixpoint initialJobs (x : Z) (n : nat) (lastOffset : Z) : list req * Z :=
  match n with
  | O => ([], lastOffset)
  | S n' =>
      let job := {| Limit := step; Offset := int_mul x step |} in
      let '(jobs, lastOffset') := initialJobs (GoInt.add x 1) n' (int_mul step x) in
      (job :: jobs, lastOffset')
  end.

(** Lines 235-257: the jobs the select loop sends, one at every batch it
    receives, until it returns. *)
Fixpoint nextJobs (numCPU : Z) (lastOffset : Z) (workersReturnedNoMore : Z)
    (events : list coordinatorEvent) : list req :=
  match events with
  | [] => []
  | FromResults res :: rest =>
      let lastOffset := GoInt.add lastOffset step in
      {| Limit := step; Offset := lastOffset |}
      :: nextJobs numCPU lastOffset workersReturnedNoMore rest
  | FromNoMore :: rest =>
      if workersReturnedNoMore + 1 =? numCPU then []
      else nextJobs numCPU lastOffset (workersReturnedNoMore + 1) rest
  | CtxDone :: _ => []
  end.

(** All the jobs [getCommits] sends, for the events its loop receives. *)
Definition getCommits_jobs (numCPU : Z) (events : list coordinatorEvent) : list req :=
  let '(jobs, lastOffset) := initialJobs 0 (Z.to_nat numCPU) 0 in
  jobs ++ nextJobs numCPU lastOffset 0 events.

(** The batches the loop of [getCommits] receives before it returns. *)
Fixpoint batchesReceived (numCPU : Z) (workersReturnedNoMore : Z)
    (events : list coordinatorEvent) : list (list Commit.t) :=
  match events with
  | [] => []
  | FromResults res :: rest =>
      res :: batchesReceived numCPU workersReturnedNoMore rest
  | FromNoMore :: rest =>
      if workersReturnedNoMore + 1 =? numCPU then []
      else batchesReceived numCPU (workersReturnedNoMore + 1) rest
  | CtxDone :: _ => []
  end.

(** ** Notions used to state the further properties *)

(** The number of exhaustion signals among the events of the coordinator. *)
Fixpoint countNoMore (events : list coordinatorEvent) : Z :=
  match events with
  | [] => 0
  | FromNoMore :: rest => 1 + countNoMore rest
  | _ :: rest => countNoMore rest
  end.

(** The job of a page: the page of [step] commits that starts at commit
    [k * step] of the log. *)
Definition pageJob (k : Z) : req := {| Limit := step; Offset := k * step |}.



(** The line git prints for a commit under the format of line 318. *)
Definition headerLine (hash authorName authorEmail authorDate : string) : string :=
  "|||BEGIN|||" +:+ hash +:+ "|||SEP|||" +:+ authorName +:+ "|||SEP|||"
  +:+ authorEmail +:+ "|||SEP|||" +:+ authorDate.

(** A line made of white space only. *)
Fixpoint allSpace (s : string) : bool :=
  match s with
  | EmptyString => true
  | String c s' => GoStrings.isSpace c && allSpace s'
  end.



Section AnalysedCommit.

Variable ShouldUseFile : string -> bool.
Variable DetectLanguageFromFile : string -> string -> string.
Variable DetectLanguageFromExtension : string -> string.
Variable GetAnalyzer : string -> option (string -> list string).
Variable getFileContent : string -> string -> option string.
Variable SkipLibraries : bool.

(** The language the worker finds for a changed file of the commit [hash]
    (lines 515-533); empty when it finds none: the path has no extension,
    the content cannot be read, or the detector knows no language. *)
Definition detectedLanguage (hash : string) (fileChange : ChangedFile.t) : string :=
  let extension := GoStrings.Ext (ChangedFile.Path fileChange) in
  if bool_decide (extension = "") then ""
  else
    let extension := String.substring 1 (String.length extension - 1) extension in
    if ShouldUseFile extension then
      match getFileContent hash (ChangedFile.Path fileChange) with
      | None => ""
      | Some fileContents =>
          DetectLanguageFromFile (ChangedFile.Path fileChange) fileContents
      end
    else DetectLanguageFromExtension extension.

(** The changed file with the language found for it, if one is found. *)
Definition analysedFile (hash : string) (fileChange : ChangedFile.t) : ChangedFile.t :=
  let lang := detectedLanguage hash fileChange in
  if bool_decide (lang = "") then fileChange else setLanguage lang fileChange.

(** The language of a file and the identifiers the analyzer of that
    language extracts from it (lines 539-553), when they are extracted. *)
Definition extractedLibraries (hash : string) (fileChange : ChangedFile.t)
    : option (string * list string) :=
  let lang := detectedLanguage hash fileChange in
  if bool_decide (lang = "") then None
  else if SkipLibraries then None
  else
    match GetAnalyzer lang with
    | None => None
    | Some analyzer =>
        match getFileContent hash (ChangedFile.Path fileChange) with
        | None => None
        | Some contents => Some (lang, analyzer contents)
        end
    end.

(** The libraries of a commit: what is extracted from its files, stored
    file after file. *)
Definition storeExtracted (hash : string) (libraries : gmap string (list string))
    (fileChange : ChangedFile.t) : gmap string (list string) :=
  match extractedLibraries hash fileChange with
  | Some (lang, fileLibraries) => storeFileLibraries lang fileLibraries libraries
  | None => libraries
  end.

(** The commit with every file analysed. *)
Definition analysedCommit (c : Commit.t) : Commit.t :=
  withLibraries c
    (analysedFile (Commit.Hash c) <$> Commit.ChangedFiles c)
    (foldl (storeExtracted (Commit.Hash c)) ∅ (Commit.ChangedFiles c)).

(** The identifiers of a language a file contributes, as they are stored. *)
Definition storedFor (hash lang : string) (fileChange : ChangedFile.t) : list string :=
  match extractedLibraries hash fileChange with
  | Some (lang', fileLibraries) =>
      if bool_decide (lang' = lang)
      then map (fun fileLibrary => GoStrings.Replace fileLibrary "../" "" (-1))
             fileLibraries
      else []
  | None => []
  end.

End AnalysedCommit.

Section SentCommit.

Variable ShouldUseFile : string -> bool.
Variable DetectLanguageFromFile : string -> string -> string.
Variable DetectLanguageFromExtension : string -> string.
Variable GetAnalyzer : string -> option (string -> list string).
Variable getFileContent : string -> string -> option string.
Variable SkipLibraries : bool.

(** A commit [c'] is a reading of the commit [c] by the worker, complete or
    not: it has the hash, the author and the date of [c]; each of its files
    is the file of [c] at the same place, as harvested or with the language
    found for it; and every language that has libraries is not empty, has an
    analyzer, and is the language of one of its files. *)
Definition sentFor (c c' : Commit.t) : Prop :=
  c' = withLibraries c (Commit.ChangedFiles c') (Commit.Libraries c')
  /\ Forall2
       (fun f' f =>
          f' = f
          \/ f' = analysedFile ShouldUseFile DetectLanguageFromFile
                    DetectLanguageFromExtension getFileContent (Commit.Hash c) f)
       (Commit.ChangedFiles c') (Commit.ChangedFiles c)
  /\ forall lang,
       is_Some (Commit.Libraries c' !! lang) ->
       lang <> "" /\ SkipLibraries = false /\ is_Some (GetAnalyzer lang)
       /\ exists f', f' ∈ Commit.ChangedFiles c' /\ ChangedFile.Language f' = lang.

(** What holds of the files and the libraries of the commit [c] when the
    loop of the worker is at file [n]: the files are those of [c] in their
    places, as harvested or with the language found; the files from [n] on
    are untouched; every language that has libraries is not empty, has an
    analyzer and is the language of a file before [n]. *)
Definition workerInv (c : Commit.t) (n : nat) (files : list ChangedFile.t)
    (libraries : gmap string (list string)) : Prop :=
  length files = length (Commit.ChangedFiles c)
  /\ (forall (i : nat) f',
        files !! i = Some f' ->
        exists f, Commit.ChangedFiles c !! i = Some f
                  /\ (f' = f
                      \/ f' = analysedFile ShouldUseFile DetectLanguageFromFile
                                DetectLanguageFromExtension getFileContent
                                (Commit.Hash c) f))
  /\ (forall i : nat, (n <= i)%nat -> files !! i = Commit.ChangedFiles c !! i)
  /\ (forall lang,
        is_Some (libraries !! lang) ->
        lang <> "" /\ SkipLibraries = false /\ is_Some (GetAnalyzer lang)
        /\ exists (i : nat) f',
             (i < n)%nat /\ files !! i = Some f' /\ ChangedFile.Language f' = lang).

End SentCommit.

(** The two sends the worker makes for a commit. *)
Definition sendsOf (c : Commit.t) : list workerEvent := [SendCommit c; SendResult].

(** * Properties

    ** Arithmetic of [int] *)

Section GoIntFacts.
Import GoInt.

Lemma wrap_in_range z : in_range (wrap z).
Proof.
  unfold in_range, wrap, min_int, max_int.
  pose proof (Z.mod_pos_bound (z + 2 ^ 63) (2 ^ 64)). lia.
Qed.

Lemma wrap_id z : in_range z -> wrap z = z.
Proof.
  unfold in_range, wrap, min_int, max_int. intros H.
  rewrite Z.mod_small; lia.
Qed.

Lemma wrap_eqm z : wrap z mod 2 ^ 64 = z mod 2 ^ 64.
Proof.
  unfold wrap.
  rewrite <- Zminus_mod_idemp_l, Z.mod_mod by lia.
  rewrite Zminus_mod_idemp_l. f_equal. lia.
Qed.

Lemma wrap_congr a b : a mod 2 ^ 64 = b mod 2 ^ 64 -> wrap a = wrap b.
Proof.
  intros H. unfold wrap.
  rewrite <- (Zplus_mod_idemp_l a), <- (Zplus_mod_idemp_l b), H. reflexivity.
Qed.

Lemma wrap_add_l a b : wrap (wrap a + b) = wrap (a + b).
Proof.
  apply wrap_congr.
  rewrite <- (Zplus_mod_idemp_l (wrap a)), wrap_eqm, Zplus_mod_idemp_l.
  reflexivity.
Qed.

Lemma wrap_add_r a b : wrap (a + wrap b) = wrap (a + b).
Proof. rewrite (Z.add_comm a), wrap_add_l. f_equal. lia. Qed.

Lemma int_add_comm a b : add a b = add b a.
Proof. unfold add. f_equal. lia. Qed.

Lemma int_add_assoc a b c : add (add a b) c = add a (add b c).
Proof.
  unfold add. rewrite wrap_add_l, wrap_add_r. f_equal. lia.
Qed.

Lemma int_add_exact a b : in_range (a + b) -> add a b = a + b.
Proof. apply wrap_id. Qed.

End GoIntFacts.

(** ** The helpers of the aggregator *)

Lemma contains_elem_of slice value : contains slice value = true <-> value ∈ slice.
Proof.
  induction slice as [|x slice IH]; simpl.
  - split; [discriminate | intros H; inversion H].
  - case_bool_decide as Hx.
    + subst. split; [intros _; left | reflexivity].
    + rewrite IH. split; [intros H; by right|].
      intros H. inversion H; subst; [done | assumption].
Qed.

Lemma contains_false slice value : contains slice value = false <-> value ∉ slice.
Proof.
  rewrite <- contains_elem_of. destruct (contains slice value); split; congruence.
Qed.

Lemma unionInto_nil cur : unionInto cur [] = cur.
Proof. reflexivity. Qed.

Lemma unionInto_cons cur item new :
  unionInto cur (item :: new)
  = unionInto (if contains cur item then cur else cur ++ [item]) new.
Proof. reflexivity. Qed.

Lemma unionInto_NoDup cur new : NoDup cur -> NoDup (unionInto cur new).
Proof.
  revert cur. induction new as [|item new IH]; intros cur Hcur; [done|].
  rewrite unionInto_cons. apply IH.
  destruct (contains cur item) eqn:Hc; [done|].
  apply contains_false in Hc.
  apply NoDup_app. split_and!; [done | | apply NoDup_singleton].
  intros x Hx Hx'. apply list_elem_of_singleton in Hx'. by subst.
Qed.

Lemma elem_of_unionInto cur new x :
  x ∈ unionInto cur new <-> x ∈ cur \/ x ∈ new.
Proof.
  revert cur. induction new as [|item new IH]; intros cur.
  - rewrite unionInto_nil. split; [by left | intros [H|H]; [done | inversion H]].
  - rewrite unionInto_cons, IH, elem_of_cons.
    destruct (contains cur item) eqn:Hc.
    + apply contains_elem_of in Hc. split; [tauto|].
      intros [H|[->|H]]; tauto.
    + rewrite elem_of_app, list_elem_of_singleton. tauto.
Qed.

(** [removeDuplicateStrings] is the ordered union into the empty list. *)
Lemma removeDuplicateStrings_from_unionInto allKeys list_ slice :
  (forall x, x ∈ allKeys <-> x ∈ list_) ->
  removeDuplicateStrings_from allKeys list_ slice = unionInto list_ slice.
Proof.
  revert allKeys list_. induction slice as [|item slice IH]; intros allKeys list_ Hk; [done|].
  rewrite unionInto_cons. cbn [removeDuplicateStrings_from].
  case_bool_decide as Hin.
  - apply Hk, contains_elem_of in Hin. rewrite Hin. by apply IH.
  - assert (contains list_ item = false) as ->.
    { apply contains_false. by rewrite <- Hk. }
    apply IH. intros x. rewrite elem_of_union, elem_of_singleton, elem_of_app,
      list_elem_of_singleton, Hk. tauto.
Qed.

Lemma removeDuplicateStrings_unionInto slice :
  removeDuplicateStrings slice = unionInto [] slice.
Proof.
  apply removeDuplicateStrings_from_unionInto.
  intros x. split; [intros H; by apply not_elem_of_empty in H | intros H; inversion H].
Qed.

Lemma removeDuplicateStrings_NoDup slice : NoDup (removeDuplicateStrings slice).
Proof. rewrite removeDuplicateStrings_unionInto. apply unionInto_NoDup, NoDup_nil_2. Qed.

Lemma elem_of_removeDuplicateStrings slice x :
  x ∈ removeDuplicateStrings slice <-> x ∈ slice.
Proof.
  rewrite removeDuplicateStrings_unionInto, elem_of_unionInto.
  split; [intros [H|H]; [inversion H | done] | by right].
Qed.

(** ** Merging the libraries of a commit into a bucket *)

Lemma foldl_appendMissing k (m : gmap string (list string)) v :
  is_Some (m !! k) ->
  foldl (appendMissing k) m v = <[k := unionInto (default [] (m !! k)) v]> m.
Proof.
  revert m. induction v as [|item v IH]; intros m [cur Hcur].
  - rewrite unionInto_nil, Hcur. simpl. symmetry. by apply insert_id.
  - rewrite unionInto_cons. cbn [foldl]. unfold appendMissing at 2.
    rewrite Hcur. cbn [default from_option id].
    destruct (contains cur item) eqn:Hc.
    + rewrite IH by (by exists cur). by rewrite Hcur.
    + rewrite IH by (rewrite lookup_insert_eq; by eexists).
      by rewrite lookup_insert_eq, insert_insert_eq.
Qed.

(** In both branches the language gets the ordered union of its list in the
    bucket and the list of the commit. *)
Lemma mergeLibrary_insert k v (m : gmap string (list string)) :
  mergeLibrary k v m = <[k := unionInto (default [] (m !! k)) v]> m.
Proof.
  unfold mergeLibrary. destruct (m !! k) as [cur|] eqn:Hk.
  - rewrite foldl_appendMissing by (by exists cur). by rewrite Hk.
  - by rewrite removeDuplicateStrings_unionInto.
Qed.

Lemma foldr_mergeLibrary_lookup (l : list (string * list string))
    (b : gmap string (list string)) k :
  NoDup l.*1 ->
  foldr (uncurry mergeLibrary) b l !! k
  = match (list_to_map l : gmap string (list string)) !! k with
    | Some v => Some (unionInto (default [] (b !! k)) v)
    | None => b !! k
    end.
Proof.
  induction l as [|[k' v'] l IH]; intros Hnd; [done|].
  apply NoDup_cons in Hnd as [Hk' Hnd]. specialize (IH Hnd).
  cbn [foldr uncurry list_to_map curry]. simpl.
  rewrite mergeLibrary_insert.
  destruct (decide (k' = k)) as [->|Hne].
  - rewrite !lookup_insert_eq. f_equal. rewrite IH.
    by rewrite (not_elem_of_list_to_map_1 l k Hk').
  - rewrite !lookup_insert_ne by done. exact IH.
Qed.

Lemma mergeLibraries_lookup (commitLibraries newLibraries : gmap string (list string)) k :
  mergeLibraries commitLibraries newLibraries !! k
  = match commitLibraries !! k with
    | Some v => Some (unionInto (default [] (newLibraries !! k)) v)
    | None => newLibraries !! k
    end.
Proof.
  unfold mergeLibraries. rewrite map_fold_foldr.
  rewrite foldr_mergeLibrary_lookup by apply NoDup_fst_map_to_list.
  by rewrite list_to_map_to_list.
Qed.

(** Go ranges over the commit's map in an unspecified order: every order of
    the keys gives the map that [mergeLibraries] computes. *)
Lemma mergeLibraries_any_order (commitLibraries newLibraries : gmap string (list string))
    (order : list (string * list string)) :
  order ≡ₚ map_to_list commitLibraries ->
  foldr (uncurry mergeLibrary) newLibraries order
  = mergeLibraries commitLibraries newLibraries.
Proof.
  intros Hperm. apply map_eq. intros k.
  assert (NoDup order.*1) as Hnd.
  { rewrite Hperm. apply NoDup_fst_map_to_list. }
  rewrite foldr_mergeLibrary_lookup, mergeLibraries_lookup by done.
  rewrite (list_to_map_proper _ _ Hnd Hperm).
  by rewrite list_to_map_to_list.
Qed.

(** ** The totals of a commit *)

Lemma foldl_add_wrap (count : ChangedFile.t -> Z) a files :
  foldl (fun acc f => GoInt.add acc (count f)) (GoInt.wrap a) files
  = GoInt.wrap (a + totalOf count files).
Proof.
  revert a. induction files as [|f files IH]; intros a; simpl.
  - f_equal. lia.
  - unfold GoInt.add at 2. rewrite wrap_add_l, IH. f_equal. lia.
Qed.

Lemma commitTotals_from langs a b files :
  foldl
    (fun '(commitLanguages, commitInsertions, commitDeletions) commitChangedFile =>
       (if negb (contains commitLanguages (ChangedFile.Language commitChangedFile))
           && negb (bool_decide (ChangedFile.Language commitChangedFile = ""))
        then commitLanguages ++ [ChangedFile.Language commitChangedFile]
        else commitLanguages,
        GoInt.add commitInsertions (ChangedFile.Insertions commitChangedFile),
        GoInt.add commitDeletions (ChangedFile.Deletions commitChangedFile)))
    (langs, a, b) files
  = (foldl
       (fun commitLanguages f =>
          if negb (contains commitLanguages (ChangedFile.Language f))
             && negb (bool_decide (ChangedFile.Language f = ""))
          then commitLanguages ++ [ChangedFile.Language f]
          else commitLanguages) langs files,
     foldl (fun acc f => GoInt.add acc (ChangedFile.Insertions f)) a files,
     foldl (fun acc f => GoInt.add acc (ChangedFile.Deletions f)) b files).
Proof.
  revert langs a b. induction files as [|f files IH]; intros langs a b; [done|].
  cbn [foldl]. by rewrite IH.
Qed.

(** The totals of a commit are the sums over all its changed files, whatever
    their paths and languages. *)
Lemma commitTotals_eq files :
  commitTotals files
  = (commitLanguagesOf files,
     GoInt.wrap (totalOf ChangedFile.Insertions files),
     GoInt.wrap (totalOf ChangedFile.Deletions files)).
Proof.
  unfold commitTotals. rewrite commitTotals_from.
  change 0 with (GoInt.wrap 0) at 1 2.
  by rewrite !foldl_add_wrap.
Qed.

(** ** Finding the bucket of a day *)

Lemma commitContainsExistingDate_from_spec start slice value :
  (commitContainsExistingDate_from start slice value = (false, -1)
   /\ Forall (fun b => OptimizedCommitForExport.Date b <> value) slice)
  \/ (exists (i : nat) b,
        commitContainsExistingDate_from start slice value = (true, start + Z.of_nat i)
        /\ slice !! i = Some b
        /\ OptimizedCommitForExport.Date b = value
        /\ Forall (fun b => OptimizedCommitForExport.Date b <> value) (take i slice)).
Proof.
  revert start. induction slice as [|b slice IH]; intros start; simpl.
  - left. split; [done | constructor].
  - case_bool_decide as Hb.
    + right. exists 0%nat, b. split_and!; [f_equal; lia | done | done | constructor].
    + destruct (IH (start + 1)) as [[-> Hall]|(i & b' & -> & Hi & Hd & Hall)].
      * left. split; [done | by constructor].
      * right. exists (S i), b'. split_and!; [f_equal; lia | done | done |].
        simpl. by constructor.
Qed.

Section AggregatorFacts.

Variable HashImportant : bool.
Variable Obfuscate : OptimizedCommitForExport.t -> OptimizedCommitForExport.t.

(** The two branches of the aggregator: the commit opens a bucket when no
    bucket has its day key, and is merged into the first bucket with its day
    key otherwise. *)
Lemma receiveCommit_cases prepared c :
  let key := GoTime.String (getStartOfDayFromStringDate (Commit.Date c)) in
  let ins := GoInt.wrap (totalOf ChangedFile.Insertions (Commit.ChangedFiles c)) in
  let del := GoInt.wrap (totalOf ChangedFile.Deletions (Commit.ChangedFiles c)) in
  (Forall (fun b => OptimizedCommitForExport.Date b <> key) prepared
   /\ receiveCommit HashImportant Obfuscate prepared c
      = prepared ++ [newBucket HashImportant Obfuscate c key
                       (commitLanguagesOf (Commit.ChangedFiles c)) ins del])
  \/ (exists (i : nat) b,
        prepared !! i = Some b
        /\ OptimizedCommitForExport.Date b = key
        /\ Forall (fun b => OptimizedCommitForExport.Date b <> key) (take i prepared)
        /\ receiveCommit HashImportant Obfuscate prepared c
           = <[i := mergeIntoBucket b c ins del]> prepared).
Proof.
  intros key ins del. unfold receiveCommit.
  rewrite commitTotals_eq. fold key ins del.
  unfold commitContainsExistingDate.
  destruct (commitContainsExistingDate_from_spec 0 prepared key)
    as [[-> Hall]|(i & b & -> & Hi & Hd & Hall)].
  - left. split; [done|]. reflexivity.
  - right. exists i, b. split_and!; try done.
    destruct (-1 <? 0 + Z.of_nat i) eqn:Hlt; [|apply Z.ltb_ge in Hlt; lia].
    replace (Z.to_nat (0 + Z.of_nat i)) with i by lia.
    by rewrite Hi.
Qed.

End AggregatorFacts.

(** ** The library lists of a bucket hold no duplicates *)

Lemma mergeIntoBucket_librariesNoDup b c ins del :
  librariesNoDup b -> librariesNoDup (mergeIntoBucket b c ins del).
Proof.
  intros Hb k v. cbn [mergeIntoBucket OptimizedCommitForExport.Libraries].
  rewrite mergeLibraries_lookup.
  destruct (Commit.Libraries c !! k) as [new|]; [|apply Hb].
  intros [= <-]. apply unionInto_NoDup.
  destruct (OptimizedCommitForExport.Libraries b !! k) as [cur|] eqn:Hk; simpl.
  - by apply (Hb k).
  - apply NoDup_nil_2.
Qed.

Lemma newBucket_librariesNoDup HashImportant Obfuscate c date langs ins del :
  (HashImportant = true -> forall b, librariesNoDup b -> librariesNoDup (Obfuscate b)) ->
  librariesNoDup (newBucket HashImportant Obfuscate c date langs ins del).
Proof.
  intros Hobf. unfold newBucket.
  match goal with |- librariesNoDup (if _ then Obfuscate ?b else _) =>
    assert (librariesNoDup b) as Hb end.
  { intros k v. cbn [OptimizedCommitForExport.Libraries].
    rewrite lookup_fmap. destruct (Commit.Libraries c !! k); [|done].
    intros [= <-]. apply removeDuplicateStrings_NoDup. }
  destruct HashImportant; [by apply Hobf | done].
Qed.

Lemma receiveCommit_librariesNoDup HashImportant Obfuscate prepared c :
  (HashImportant = true -> forall b, librariesNoDup b -> librariesNoDup (Obfuscate b)) ->
  Forall librariesNoDup prepared ->
  Forall librariesNoDup (receiveCommit HashImportant Obfuscate prepared c).
Proof.
  intros Hobf Hall.
  destruct (receiveCommit_cases HashImportant Obfuscate prepared c)
    as [[_ ->]|(i & b & Hi & _ & _ & ->)].
  - apply Forall_app. split; [done|].
    constructor; [|constructor]. by apply newBucket_librariesNoDup.
  - apply Forall_insert; [done|].
    apply mergeIntoBucket_librariesNoDup. by apply (Forall_lookup_1 _ _ _ _ Hall Hi).
Qed.

(** C7: after any sequence of commits, whichever buckets they open and
    whichever they are merged into, no library list of any bucket holds an
    identifier twice.  The obfuscation transform, which is outside the
    extractor and is applied to a new bucket when [HashImportant] is set, is
    required to keep that property. *)
Theorem C7_bucket_library_lists_have_no_duplicates
    HashImportant Obfuscate (received : list Commit.t) :
  (HashImportant = true ->
   forall b, librariesNoDup b -> librariesNoDup (Obfuscate b)) ->
  Forall librariesNoDup (exportLoop HashImportant Obfuscate received).
Proof.
  intros Hobf. unfold exportLoop.
  assert (forall prepared, Forall librariesNoDup prepared ->
            Forall librariesNoDup
              (foldl (receiveCommit HashImportant Obfuscate) prepared received)) as H.
  { induction received as [|c received IH]; intros prepared Hp; [done|].
    cbn [foldl]. apply IH. by apply receiveCommit_librariesNoDup. }
  apply H. constructor.
Qed.

(** ** The analysis worker keeps the counts of every file *)

Section WorkerCounts.

Variable ShouldUseFile : string -> bool.
Variable DetectLanguageFromFile : string -> string -> string.
Variable DetectLanguageFromExtension : string -> string.
Variable GetAnalyzer : string -> option (string -> list string).
Variable getFileContent : string -> string -> option string.
Variable SkipLibraries : bool.

Let analyseFile' := analyseFile ShouldUseFile DetectLanguageFromFile
  DetectLanguageFromExtension GetAnalyzer getFileContent SkipLibraries.
Let analyseFiles' := analyseFiles ShouldUseFile DetectLanguageFromFile
  DetectLanguageFromExtension GetAnalyzer getFileContent SkipLibraries.
Let analyseCommit' := analyseCommit ShouldUseFile DetectLanguageFromFile
  DetectLanguageFromExtension GetAnalyzer getFileContent SkipLibraries.





End WorkerCounts.

Lemma totalOf_fileCounts files files' :
  fileCounts <$> files' = fileCounts <$> files ->
  totalOf ChangedFile.Insertions files' = totalOf ChangedFile.Insertions files
  /\ totalOf ChangedFile.Deletions files' = totalOf ChangedFile.Deletions files.
Proof.
  revert files'. induction files as [|f files IH]; intros [|f' files'] H;
    try discriminate; [done|].
  rewrite !fmap_cons in H. apply (inj2 cons) in H as [Hf Hrest].
  destruct (IH _ Hrest) as [Hi Hd].
  unfold fileCounts in Hf. simplify_eq. simpl. split; congruence.
Qed.


(** ** The merge rule *)

(** What the merge of a commit into the bucket of its day does to each field
    of the bucket.  The languages of the bucket are left as they are. *)
Lemma mergeIntoBucket_fields b c ins del :
  let merged := mergeIntoBucket b c ins del in
  OptimizedCommitForExport.Commits merged
  = GoInt.add (OptimizedCommitForExport.Commits b) 1
  /\ OptimizedCommitForExport.Insertions merged
     = GoInt.add (OptimizedCommitForExport.Insertions b) ins
  /\ OptimizedCommitForExport.Deletions merged
     = GoInt.add (OptimizedCommitForExport.Deletions b) del
  /\ OptimizedCommitForExport.AuthorEmails merged
     = (if bool_decide (Commit.AuthorEmail c ∈ OptimizedCommitForExport.AuthorEmails b)
        then OptimizedCommitForExport.AuthorEmails b
        else OptimizedCommitForExport.AuthorEmails b ++ [Commit.AuthorEmail c])
  /\ (forall k,
        OptimizedCommitForExport.Libraries merged !! k
        = match Commit.Libraries c !! k with
          | Some new =>
              Some (unionInto
                      (default [] (OptimizedCommitForExport.Libraries b !! k)) new)
          | None => OptimizedCommitForExport.Libraries b !! k
          end)
  /\ OptimizedCommitForExport.Date merged = OptimizedCommitForExport.Date b
  /\ OptimizedCommitForExport.Languages merged = OptimizedCommitForExport.Languages b.
Proof.
  cbv zeta. split_and!; try reflexivity.
  - cbn [mergeIntoBucket OptimizedCommitForExport.AuthorEmails].
    unfold addUniqueEmailToCommitAuthorEmailsSlice.
    destruct (contains _ _) eqn:Hc; case_bool_decide as Hin; try done.
    + by apply contains_elem_of in Hc.
    + by apply contains_false in Hc.
  - intros k. apply mergeLibraries_lookup.
Qed.

(** C1 (the code departs from the claim): a bucket of 2024-01-01 opened by a
    commit with a Go file receives a commit of the same day with a Python
    file.  The merge counts the commit, adds its lines, appends its author
    and unions its libraries, but the languages of the bucket stay
    [["Go"]]: the languages of the commit, which the loop has collected,
    are not unioned in. *)
Theorem C1_merge_does_not_union_languages :
  dayKey commitGo = dayKey commitPython
  /\ commitLanguagesOf (Commit.ChangedFiles commitPython) = ["Python"]
  /\ exportLoop false id [commitGo]
     = [ {| OptimizedCommitForExport.AuthorEmails := ["ann@x.org"];
            OptimizedCommitForExport.Date := "2024-01-01 00:00:00 +0000 UTC";
            OptimizedCommitForExport.Languages := ["Go"];
            OptimizedCommitForExport.Libraries := {["Go" := ["fmt"; "os"]]};
            OptimizedCommitForExport.Insertions := 8;
            OptimizedCommitForExport.Deletions := 1;
            OptimizedCommitForExport.Commits := 1 |} ]
  /\ receiveCommit false id (exportLoop false id [commitGo]) commitPython
     = [ {| OptimizedCommitForExport.AuthorEmails := ["ann@x.org"; "bob@x.org"];
            OptimizedCommitForExport.Date := "2024-01-01 00:00:00 +0000 UTC";
            OptimizedCommitForExport.Languages := ["Go"];
            OptimizedCommitForExport.Libraries :=
              {["Go" := ["fmt"; "os"; "io"]; "Python" := ["re"]]};
            OptimizedCommitForExport.Insertions := 15;
            OptimizedCommitForExport.Deletions := 3;
            OptimizedCommitForExport.Commits := 2 |} ].
Proof. vm_compute. repeat split. Qed.

(** C2 (the code departs from the claim): the same two commits of one day,
    received in the two possible orders, give buckets with different
    languages: the bucket keeps the languages of the commit that arrived
    first. *)
Theorem C2_arrival_order_decides_bucket_languages :
  dayKey commitGo = dayKey commitPython
  /\ OptimizedCommitForExport.Languages
       <$> exportLoop false id [commitGo; commitPython] = [["Go"]]
  /\ OptimizedCommitForExport.Languages
       <$> exportLoop false id [commitPython; commitGo] = [["Python"]].
Proof. vm_compute. repeat split. Qed.

(** ** The analysis worker: what is sent for a commit *)

Section WorkerSends.

Variable ShouldUseFile : string -> bool.
Variable DetectLanguageFromFile : string -> string -> string.
Variable DetectLanguageFromExtension : string -> string.
Variable GetAnalyzer : string -> option (string -> list string).
Variable getFileContent : string -> string -> option string.
Variable SkipLibraries : bool.

Lemma sentCommits_app s1 s2 : sentCommits (s1 ++ s2) = sentCommits s1 ++ sentCommits s2.
Proof. apply omap_app. Qed.

Lemma sentResults_app s1 s2 : sentResults (s1 ++ s2) = (sentResults s1 + sentResults s2)%nat.
Proof. unfold sentResults. by rewrite omap_app, length_app. Qed.

Lemma sentCommits_pair c : sentCommits [SendCommit c; SendResult] = [c].
Proof. reflexivity. Qed.

Lemma sentResults_pair c : sentResults [SendCommit c; SendResult] = 1%nat.
Proof. reflexivity. Qed.

Lemma analyseFiles_sends done c n remaining files libraries sent :
  let '(_, _, sent') :=
    analyseFiles ShouldUseFile DetectLanguageFromFile DetectLanguageFromExtension
      GetAnalyzer getFileContent SkipLibraries done c n remaining files libraries sent in
  length (sentCommits sent')
  = (length (sentCommits sent) + expiredIterations done n (length remaining))%nat
  /\ sentResults sent'
     = (sentResults sent + expiredIterations done n (length remaining))%nat.
Proof.
  revert n files libraries sent.
  induction remaining as [|fileChange rest IH]; intros n files libraries sent.
  - simpl. lia.
  - cbn [analyseFiles length expiredIterations]. destruct (done n).
    + specialize (IH (S n) files libraries
        (sent ++ [SendCommit (withLibraries c files libraries); SendResult])).
      destruct (analyseFiles _ _ _ _ _ _ _ _ _ _ _ _ _) as [[? ?] sent'].
      rewrite sentCommits_app, sentResults_app, length_app,
        sentCommits_pair, sentResults_pair in IH. simpl in IH. lia.
    + destruct (analyseFile _ _ _ _ _ _ _ _ _ _ _) as [files' libraries'].
      specialize (IH (S n) files' libraries' sent).
      destruct (analyseFiles _ _ _ _ _ _ _ _ _ _ _ _ _) as [[? ?] sent'].
      simpl. lia.
Qed.

(** For one commit the worker sends the commit and a completion signal once
    at the end, and once more at every file iteration at which the deadline
    is seen expired. *)
Lemma analyseCommit_sends done c :
  let sent :=
    analyseCommit ShouldUseFile DetectLanguageFromFile DetectLanguageFromExtension
      GetAnalyzer getFileContent SkipLibraries done c in
  length (sentCommits sent)
  = S (expiredIterations done 0 (length (Commit.ChangedFiles c)))
  /\ sentResults sent
     = S (expiredIterations done 0 (length (Commit.ChangedFiles c))).
Proof.
  cbv zeta. unfold analyseCommit.
  pose proof (analyseFiles_sends done c 0 (Commit.ChangedFiles c)
                (Commit.ChangedFiles c) ∅ []) as H.
  destruct (analyseFiles _ _ _ _ _ _ _ _ _ _ _ _ _) as [[files libraries] sent].
  rewrite sentCommits_app, sentResults_app, length_app,
    sentCommits_pair, sentResults_pair.
  simpl in *. lia.
Qed.

(** C3 (the code departs from the claim): a worker takes two commits after
    the deadline has expired, the first with one changed file and the second
    with none.  At the iteration of the file it sends the first commit and a
    completion signal, goes on with the loop over the files, and after that
    loop sends the commit and a completion signal again: the first commit is
    sent twice, and three completion signals are sent for two commits. *)
Theorem C3_commit_sent_twice_after_deadline :
  let sent :=
    libraryWorker ShouldUseFile DetectLanguageFromFile DetectLanguageFromExtension
      GetAnalyzer getFileContent SkipLibraries (fun _ _ => true)
      [commitOneFile; commitEvening] in
  sent = [SendCommit commitOneFile; SendResult;
          SendCommit commitOneFile; SendResult;
          SendCommit commitEvening; SendResult]
  /\ sentCommits sent = [commitOneFile; commitOneFile; commitEvening]
  /\ sentResults sent = 3%nat.
Proof. cbv zeta. repeat split. Qed.

End WorkerSends.

(** ** The harvester: rows that stop the worker *)








(** ** The harvester: the rename test of line 394 *)








(** ** The analysis worker: the identifiers that are stored *)

Lemma string_app_nil_l s : "" +:+ s = s.
Proof. reflexivity. Qed.

Lemma string_app_cons c s t : String c s +:+ t = String c (s +:+ t).
Proof. reflexivity. Qed.

Lemma replace_all_app_marker post pre k :
  (k <= String.length pre)%nat ->
  GoStrings.replace_from "../" "" None k (pre +:+ "../" +:+ post)
  = GoStrings.replace_from "../" "" None k pre
    +:+ GoStrings.replace_from "../" "" None 0 post.
Proof.
  revert k. induction pre as [|c pre IH]; intros k Hk.
  - destruct k; [|simpl in Hk; lia].
    rewrite !string_app_cons, !string_app_nil_l. reflexivity.
  - destruct k as [|k].
    + assert (GoStrings.HasPrefix (String c pre +:+ "../" +:+ post) "../"
              = GoStrings.HasPrefix (String c pre) "../") as Hpre.
      { destruct pre as [|a [|b pre]];
          rewrite !string_app_cons, ?string_app_nil_l; simpl;
          rewrite ?andb_false_r; reflexivity. }
      rewrite (string_app_cons c). cbn [GoStrings.replace_from].
      rewrite <- (string_app_cons c), Hpre.
      destruct (GoStrings.HasPrefix (String c pre) "../") eqn:Hp.
      * rewrite !string_app_nil_l. apply IH.
        destruct pre as [|a [|b pre]]; simpl in Hp;
          rewrite ?andb_false_r in Hp; try discriminate. simpl. lia.
      * rewrite IH by lia. by rewrite string_app_cons.
    + rewrite string_app_cons. cbn [GoStrings.replace_from]. apply IH.
      simpl in Hk. lia.
Qed.

Lemma Replace_all_app_marker pre post :
  GoStrings.Replace (pre +:+ "../" +:+ post) "../" "" (-1)
  = GoStrings.Replace pre "../" "" (-1) +:+ GoStrings.Replace post "../" "" (-1).
Proof. apply replace_all_app_marker. lia. Qed.

Lemma Replace_all_absent s :
  GoStrings.Contains s "../" = false -> GoStrings.Replace s "../" "" (-1) = s.
Proof.
  unfold GoStrings.Replace. simpl.
  induction s as [|c s IH]; [done|].
  cbn [GoStrings.Contains GoStrings.replace_from].
  destruct (GoStrings.HasPrefix (String c s) "../"); [done|].
  intros H. by rewrite IH.
Qed.

(** C8 (as amended): the identifiers extracted from a file are appended to
    the list of the file's language, each with every occurrence of [../]
    removed, wherever it stands: an identifier is stored as what precedes an
    occurrence and what follows it, both treated the same way, and an
    identifier without occurrence is stored as it is. *)
Theorem C8_every_marker_is_removed lang fileLibraries
    (libraries : gmap string (list string)) :
  storeFileLibraries lang fileLibraries libraries !! lang
  = Some (default [] (libraries !! lang)
          ++ map (fun l => GoStrings.Replace l "../" "" (-1)) fileLibraries)
  /\ (forall pre post,
        GoStrings.Replace (pre +:+ "../" +:+ post) "../" "" (-1)
        = GoStrings.Replace pre "../" "" (-1)
          +:+ GoStrings.Replace post "../" "" (-1))
  /\ (forall s,
        GoStrings.Contains s "../" = false ->
        GoStrings.Replace s "../" "" (-1) = s).
Proof.
  split_and!.
  - unfold storeFileLibraries. apply lookup_insert_eq.
  - apply Replace_all_app_marker.
  - apply Replace_all_absent.
Qed.

Lemma C8_every_marker_is_removed_witness :
  GoStrings.Contains "util" "../" = false
  /\ storeFileLibraries "JavaScript" ["util"; "../../a/../b"] {["JavaScript" := ["fs"]]}
     !! "JavaScript" = Some ["fs"; "util"; "a/b"].
Proof.
  destruct (C8_every_marker_is_removed "JavaScript" ["util"; "../../a/../b"]
              {["JavaScript" := ["fs"]]}) as (Hstore & _ & Hid).
  split; [reflexivity|].
  rewrite Hstore. simpl. rewrite (Hid "util") by reflexivity. reflexivity.
Defined.

(** C8 (the claim fails): an identifier with a marker that is not leading is
    stored without it, while stripping the leading markers leaves it as it
    is. *)
Lemma C8_inner_marker_removed :
  storeFileLibraries "JavaScript" ["lib/../util"] ∅ !! "JavaScript"
  = Some ["lib/util"]
  /\ stripLeadingMarkers "lib/../util" = "lib/../util"
  /\ stripLeadingMarkers "../../util" = "util"
  /\ storeFileLibraries "JavaScript" ["lib/../util"] ∅ !! "JavaScript"
     <> Some [stripLeadingMarkers "lib/../util"].
Proof. vm_compute. repeat split. discriminate. Qed.

(** ** The calendar *)

(** The day number of the date of a day number is that day number. *)
Lemma days_from_civil_from_days z :
  let '(y, m, d) := GoTime.civil_from_days z in GoTime.days_from_civil y m d = z.
Proof.
  unfold GoTime.civil_from_days, GoTime.days_from_civil. cbv zeta.
  set (z' := z + 719468).
  set (era := z' / 146097).
  set (doe := z' - era * 146097).
  assert (0 <= doe < 146097) as Hdoe.
  { unfold doe, era. pose proof (Z.mod_pos_bound z' 146097 ltac:(lia)).
    pose proof (Z.div_mod z' 146097 ltac:(lia)). lia. }
  assert (z = era * 146097 + doe - 719468) as Hz by (unfold doe, z'; lia).
  clearbody doe era. clear z'.
  set (yoe := (doe - doe / 1460 + doe / 36524 - doe / 146096) / 365).
  assert (0 <= yoe < 400) as Hyoe.
  { unfold yoe. Z.div_mod_to_equations. lia. }
  set (doy := doe - (365 * yoe + yoe / 4 - yoe / 100)).
  assert (0 <= doy < 366) as Hdoy.
  { unfold doy, yoe. Z.div_mod_to_equations. lia. }
  assert (doe = yoe * 365 + yoe / 4 - yoe / 100 + doy) as Hdoe' by (unfold doy; lia).
  clearbody doy yoe.
  set (mp := (5 * doy + 2) / 153).
  assert (0 <= mp < 12) as Hmp.
  { unfold mp. Z.div_mod_to_equations. lia. }
  clearbody mp.
  set (m := if mp <? 10 then mp + 3 else mp - 9).
  assert ((if 2 <? m then m - 3 else m + 9) = mp) as Hm.
  { unfold m. destruct (mp <? 10) eqn:E;
      [apply Z.ltb_lt in E | apply Z.ltb_ge in E].
    - destruct (2 <? mp + 3) eqn:E'; [lia | apply Z.ltb_ge in E'; lia].
    - destruct (2 <? mp - 9) eqn:E'; [apply Z.ltb_lt in E'; lia | lia]. }
  rewrite Hm.
  assert ((if m <=? 2
           then (if m <=? 2 then yoe + era * 400 + 1 else yoe + era * 400) - 1
           else (if m <=? 2 then yoe + era * 400 + 1 else yoe + era * 400))
          = yoe + era * 400) as ->.
  { destruct (m <=? 2); lia. }
  rewrite Z.div_add by lia. rewrite (Z.div_small yoe 400) by lia.
  replace (yoe + era * 400 - (0 + era) * 400) with yoe by lia.
  lia.
Qed.

Lemma isLeap_spec y :
  GoTime.isLeap y = true <-> (y mod 4 = 0 /\ (y mod 100 <> 0 \/ y mod 400 = 0)).
Proof.
  unfold GoTime.isLeap.
  rewrite andb_true_iff, orb_true_iff, negb_true_iff, !Z.eqb_eq, Z.eqb_neq.
  reflexivity.
Qed.

(** The year of the era is read back from each of its days. *)
Lemma yearOfEra_daysBefore yoe doy :
  0 <= yoe < 400 -> 0 <= doy <= 364 + (if longYear yoe then 1 else 0) ->
  yearOfEra (daysBefore yoe + doy) = yoe.
Proof.
  intros Hy Hd. unfold yearOfEra, daysBefore.
  destruct (longYear yoe) eqn:Hlong; cbv iota in Hd.
  - apply isLeap_spec in Hlong as [H4 H100].
    Z.div_mod_to_equations. lia.
  - Z.div_mod_to_equations. lia.
Qed.

(** The date of the day number of a date of the calendar is that date. *)
Lemma civil_from_days_from_civil y m d :
  1 <= m <= 12 -> 1 <= d <= GoTime.daysIn m y ->
  GoTime.civil_from_days (GoTime.days_from_civil y m d) = (y, m, d).
Proof.
  intros Hm Hd.
  unfold GoTime.civil_from_days, GoTime.days_from_civil. cbv zeta.
  set (y' := if m <=? 2 then y - 1 else y).
  set (mp := if 2 <? m then m - 3 else m + 9).
  set (era := y' / 400).
  set (yoe := y' - era * 400).
  assert (0 <= yoe < 400) as Hyoe.
  { unfold yoe, era. pose proof (Z.mod_pos_bound y' 400 ltac:(lia)).
    pose proof (Z.div_mod y' 400 ltac:(lia)). lia. }
  assert (y' = yoe + era * 400) as Hy' by (unfold yoe; lia).
  assert (0 <= mp <= 11 /\ m = (if mp <? 10 then mp + 3 else mp - 9)
          /\ y = (if m <=? 2 then y' + 1 else y')) as (Hmp & Hmm & Hy).
  { unfold mp, y'. destruct (2 <? m) eqn:E1;
      [apply Z.ltb_lt in E1 | apply Z.ltb_ge in E1].
    - destruct (m - 3 <? 10) eqn:E2;
        [apply Z.ltb_lt in E2 | apply Z.ltb_ge in E2]; [|lia].
      destruct (m <=? 2) eqn:E3;
        [apply Z.leb_le in E3 | apply Z.leb_gt in E3]; lia.
    - destruct (m + 9 <? 10) eqn:E2;
        [apply Z.ltb_lt in E2 | apply Z.ltb_ge in E2]; [lia|].
      destruct (m <=? 2) eqn:E3;
        [apply Z.leb_le in E3 | apply Z.leb_gt in E3]; lia. }
  set (doy := (153 * mp + 2) / 5 + d - 1).
  (* the day of the year, counted from March 1 *)
  assert (0 <= doy <= 364 + (if longYear yoe then 1 else 0)
          /\ (5 * doy + 2) / 153 = mp
          /\ doy - (153 * mp + 2) / 5 + 1 = d) as (Hdoy & Hmp' & Hd').
  { assert (GoTime.isLeap y = true -> m <= 2 -> longYear yoe = true) as Hlong.
    { intros Hl Hle. unfold longYear. rewrite Hy in Hl.
      destruct (m <=? 2) eqn:E; [|apply Z.leb_gt in E; lia].
      rewrite Hy' in Hl. apply isLeap_spec in Hl. apply isLeap_spec.
      clear -Hl. Z.div_mod_to_equations. lia. }
    unfold GoTime.daysIn in Hd. unfold doy.
    assert (mp = 0 \/ mp = 1 \/ mp = 2 \/ mp = 3 \/ mp = 4 \/ mp = 5 \/ mp = 6
            \/ mp = 7 \/ mp = 8 \/ mp = 9 \/ mp = 10 \/ mp = 11) as Hcases by lia.
    assert (m = (if mp <? 10 then mp + 3 else mp - 9)) as Hm' by exact Hmm.
    clearbody mp yoe. clear Hmm.
    repeat destruct Hcases as [->|Hcases]; try subst mp; simpl in Hm'; subst m;
      simpl in Hd |- *;
      try (destruct (longYear yoe); cbv iota; Z.div_mod_to_equations; lia).
    destruct (GoTime.isLeap y) eqn:Hl.
    - rewrite Hlong by (done || lia). cbv iota. Z.div_mod_to_equations. lia.
    - destruct (longYear yoe); cbv iota; Z.div_mod_to_equations; lia. }
  clearbody doy.
  replace (yoe * 365 + yoe / 4 - yoe / 100 + doy) with (daysBefore yoe + doy)
    by (unfold daysBefore; lia).
  assert (0 <= daysBefore yoe + doy < 146097) as Hdoe.
  { unfold daysBefore. destruct (longYear yoe); cbv iota in Hdoy;
      Z.div_mod_to_equations; lia. }
  replace (era * 146097 + (daysBefore yoe + doy) - 719468 + 719468)
    with (daysBefore yoe + doy + era * 146097) by lia.
  rewrite Z.div_add by lia.
  rewrite (Z.div_small (daysBefore yoe + doy) 146097) by lia.
  replace (daysBefore yoe + doy + era * 146097 - (0 + era) * 146097)
    with (daysBefore yoe + doy) by lia.
  fold (yearOfEra (daysBefore yoe + doy)).
  rewrite (yearOfEra_daysBefore yoe doy Hyoe Hdoy).
  replace (daysBefore yoe + doy - (365 * yoe + yoe / 4 - yoe / 100)) with doy
    by (unfold daysBefore; lia).
  rewrite Hmp', Hd', <- Hmm.
  replace (yoe + (0 + era) * 400) with y' by lia.
  by rewrite <- Hy.
Qed.

(** [utcDayOf] is the time whose instant is the start of the UTC day of the
    instant of its argument. *)
Lemma Unix_utcDayOf t : GoTime.Unix (utcDayOf t) = utcDayStart (GoTime.Unix t).
Proof.
  unfold utcDayOf, utcDayStart.
  pose proof (days_from_civil_from_days (GoTime.Unix t / 86400)) as H.
  destruct (GoTime.civil_from_days (GoTime.Unix t / 86400)) as [[y m] d].
  unfold GoTime.Unix at 1.
  cbn [GoTime.Date GoTime.Year GoTime.Month GoTime.Day GoTime.Hour
       GoTime.Minute GoTime.Second GoTime.Offset].
  rewrite H. lia.
Qed.

(** ** The day key *)

Lemma isDigit_digitVal c : GoStrings.isDigit c = true -> 0 <= GoStrings.digitVal c <= 9.
Proof.
  unfold GoStrings.isDigit, GoStrings.digitVal. intros H.
  apply andb_true_iff in H as [H1 H2].
  apply Nat.leb_le in H1, H2. lia.
Qed.

Lemma getnum_bounds s fixed n rest :
  GoTime.getnum s fixed = Some (n, rest) -> 0 <= n <= 99.
Proof.
  unfold GoTime.getnum. destruct s as [|c1 s]; [done|].
  destruct (GoStrings.isDigit c1) eqn:H1; [|done].
  apply isDigit_digitVal in H1.
  destruct s as [|c2 s].
  - destruct fixed; [done|]. intros [= <- <-]. lia.
  - destruct (GoStrings.isDigit c2) eqn:H2.
    + apply isDigit_digitVal in H2. intros [= <- <-]. lia.
    + destruct fixed; [done|]. intros [= <- <-]. lia.
Qed.

(** A parsed date is a date of the calendar, and its time a time of day. *)
Lemma Parse_in_range dateString t :
  GoTime.Parse dateString = Some t ->
  1 <= GoTime.Month t <= 12
  /\ 1 <= GoTime.Day t <= GoTime.daysIn (GoTime.Month t) (GoTime.Year t)
  /\ 0 <= GoTime.Hour t < 24
  /\ 0 <= GoTime.Minute t < 60
  /\ 0 <= GoTime.Second t < 60.
Proof.
  unfold GoTime.Parse. intros H.
  repeat match type of H with
         | (mbind _ ?x = Some _) =>
             let E := fresh "E" in
             destruct x as [[? ?]|] eqn:E; cbn [mbind option_bind] in H;
             [|discriminate]
         | (mbind _ ?x = Some _) =>
             let E := fresh "E" in
             destruct x eqn:E; cbn [mbind option_bind] in H; [|discriminate]
         | ((if ?b then None else _) = Some _) =>
             let E := fresh "E" in
             destruct b eqn:E; [discriminate|]
         | ((match ?v with EmptyString => _ | String _ _ => None end) = Some _) =>
             destruct v; [|discriminate]
         end.
  injection H as <-. cbn [GoTime.Month GoTime.Day GoTime.Year GoTime.Hour
                          GoTime.Minute GoTime.Second].
  repeat match goal with
         | E : GoTime.getnum _ _ = Some _ |- _ => apply getnum_bounds in E
         | E : (_ || _) = false |- _ => apply orb_false_iff in E as [? ?]
         end.
  lia.
Qed.

(** C6 (as amended): the day key of a commit whose date parses is midnight
    UTC of the calendar date written in the date string, which is the date
    in the commit's own UTC offset.  It is midnight UTC of the UTC day that
    contains the commit's instant exactly when the commit's time of day,
    moved to UTC, stays within the written date; this is so for every date
    written with offset [+0000]. *)
Theorem C6_day_key_is_the_written_date dateString t :
  GoTime.Parse dateString = Some t ->
  getStartOfDayFromStringDate dateString
  = GoTime.Date (GoTime.Year t) (GoTime.Month t) (GoTime.Day t) 0 0 0
  /\ (getStartOfDayFromStringDate dateString = utcDayOf t
      <-> 0 <= GoTime.Hour t * 3600 + GoTime.Minute t * 60 + GoTime.Second t
               - GoTime.Offset t < 86400)
  /\ (GoTime.Offset t = 0 ->
      getStartOfDayFromStringDate dateString = utcDayOf t).
Proof.
  intros Hp.
  pose proof (Parse_in_range _ _ Hp) as (Hmo & Hda & Hh & Hm & Hs).
  unfold getStartOfDayFromStringDate. rewrite Hp. cbn [default from_option id].
  set (r := GoTime.Hour t * 3600 + GoTime.Minute t * 60 + GoTime.Second t
            - GoTime.Offset t).
  set (D := GoTime.days_from_civil (GoTime.Year t) (GoTime.Month t) (GoTime.Day t)).
  assert (GoTime.Unix t = r + D * 86400) as Hunix.
  { unfold GoTime.Unix, r, D. lia. }
  assert (GoTime.Date (GoTime.Year t) (GoTime.Month t) (GoTime.Day t) 0 0 0
          = utcDayOf t <-> 0 <= r < 86400) as Hiff.
  { split.
    - intros Heq. apply (f_equal GoTime.Unix) in Heq.
      rewrite Unix_utcDayOf in Heq. unfold utcDayStart in Heq.
      rewrite Hunix, Z.div_add in Heq by lia.
      unfold GoTime.Unix in Heq.
      cbn [GoTime.Date GoTime.Year GoTime.Month GoTime.Day GoTime.Hour
           GoTime.Minute GoTime.Second GoTime.Offset] in Heq.
      fold D in Heq.
      pose proof (Z.mod_pos_bound r 86400 ltac:(lia)).
      pose proof (Z.div_mod r 86400 ltac:(lia)).
      assert (r / 86400 = 0) by lia. lia.
    - intros Hr. unfold utcDayOf.
      rewrite Hunix, Z.div_add, (Z.div_small r 86400) by lia.
      rewrite Z.add_0_l. unfold D.
      by rewrite civil_from_days_from_civil. }
  split_and!; [done | done |].
  intros H0. apply Hiff. unfold r. lia.
Qed.

Lemma C6_day_key_is_the_written_date_witness :
  getStartOfDayFromStringDate "2024-01-01 10:00:00 +0000"
  = GoTime.Date 2024 1 1 0 0 0
  /\ getStartOfDayFromStringDate "2024-01-01 10:00:00 +0000"
     = utcDayOf (GoTime.mkTime 2024 1 1 10 0 0 0 "").
Proof.
  destruct (C6_day_key_is_the_written_date "2024-01-01 10:00:00 +0000"
              (GoTime.mkTime 2024 1 1 10 0 0 0 "") eq_refl) as (Hkey & _ & Hutc).
  split; [exact Hkey | exact (Hutc eq_refl)].
Defined.

(** C6 (the claim fails): a commit made at 23:00 on 2024-01-01 in a zone five
    hours behind UTC is made on 2024-01-02 in UTC; its day key is 2024-01-01.
    A commit made at the same instant and dated in UTC has the day key
    2024-01-02, and the two commits open two buckets. *)
Lemma C6_day_key_is_not_the_utc_day :
  GoTime.Parse (Commit.Date commitEvening)
  = Some (GoTime.mkTime 2024 1 1 23 0 0 (-18000) "")
  /\ dayKey commitEvening = "2024-01-01 00:00:00 +0000 UTC"
  /\ GoTime.String (utcDayOf (GoTime.mkTime 2024 1 1 23 0 0 (-18000) ""))
     = "2024-01-02 00:00:00 +0000 UTC"
  /\ GoTime.Unix <$> GoTime.Parse (Commit.Date commitEvening)
     = GoTime.Unix <$> GoTime.Parse (Commit.Date commitNight)
  /\ OptimizedCommitForExport.Date <$> exportLoop false id [commitEvening; commitNight]
     = ["2024-01-01 00:00:00 +0000 UTC"; "2024-01-02 00:00:00 +0000 UTC"]
  /\ getStartOfDayFromStringDate (Commit.Date commitEvening)
     <> utcDayOf (GoTime.mkTime 2024 1 1 23 0 0 (-18000) "").
Proof. vm_compute. repeat split. discriminate. Qed.

(** ** The commits of one day *)

Section OneDay.

Variable HashImportant : bool.
Variable Obfuscate : OptimizedCommitForExport.t -> OptimizedCommitForExport.t.

Lemma receiveCommit_one_bucket b c :
  OptimizedCommitForExport.Date b = dayKey c ->
  receiveCommit HashImportant Obfuscate [b] c = [mergeCommit b c].
Proof.
  intros Hb.
  destruct (receiveCommit_cases HashImportant Obfuscate [b] c)
    as [[Hall _]|(i & b0 & Hi & _ & _ & ->)].
  - apply Forall_cons in Hall as [Hne _]. by destruct Hne.
  - destruct i as [|i]; [|by destruct i]. by injection Hi as <-.
Qed.

Lemma foldl_receiveCommit_one_bucket key b rest :
  OptimizedCommitForExport.Date b = key ->
  Forall (fun c => dayKey c = key) rest ->
  foldl (receiveCommit HashImportant Obfuscate) [b] rest = [foldl mergeCommit b rest]
  /\ OptimizedCommitForExport.Date (foldl mergeCommit b rest) = key.
Proof.
  revert b. induction rest as [|c rest IH]; intros b Hb Hall; [done|].
  apply Forall_cons in Hall as [Hc Hall]. cbn [foldl].
  rewrite receiveCommit_one_bucket by congruence.
  by apply IH.
Qed.

(** The commits of one day, when they are all the commits received, end in
    one bucket: the bucket the first one opens, with the others merged in,
    in their order of arrival.  (When the obfuscation is on it must leave the
    day key of the bucket as it is.) *)
Lemma exportLoop_one_day key c rest :
  (HashImportant = true ->
   forall b, OptimizedCommitForExport.Date (Obfuscate b)
             = OptimizedCommitForExport.Date b) ->
  Forall (fun c => dayKey c = key) (c :: rest) ->
  let first :=
    newBucket HashImportant Obfuscate c key
      (commitLanguagesOf (Commit.ChangedFiles c))
      (GoInt.wrap (totalOf ChangedFile.Insertions (Commit.ChangedFiles c)))
      (GoInt.wrap (totalOf ChangedFile.Deletions (Commit.ChangedFiles c))) in
  exportLoop HashImportant Obfuscate (c :: rest) = [foldl mergeCommit first rest]
  /\ OptimizedCommitForExport.Date (foldl mergeCommit first rest) = key.
Proof.
  intros Hobf Hall first. apply Forall_cons in Hall as [Hc Hall].
  unfold exportLoop. cbn [foldl].
  destruct (receiveCommit_cases HashImportant Obfuscate [] c)
    as [[_ ->]|(i & b0 & Hi & _)]; [|by destruct i].
  fold (dayKey c). rewrite Hc. cbn [app]. fold first.
  apply foldl_receiveCommit_one_bucket; [|done].
  unfold first, newBucket. destruct HashImportant; [|done].
  by rewrite Hobf.
Qed.

End OneDay.


(** The harvester stores the empty date when it cannot read the date of a
    header line. *)
Lemma parseHeader_unparsable_date m bits3 c :
  GoStrings.Split (GoStrings.Replace m "|||BEGIN|||" "" 1) "|||SEP|||" !! 3%nat
  = Some bits3 ->
  GoTime.ParseGit bits3 = None ->
  parseHeader m = Returned c ->
  Commit.Date c = "".
Proof.
  intros Hb Hp. unfold parseHeader. rewrite Hb, Hp.
  repeat case_match; try discriminate. by intros [= <-].
Qed.

Lemma C7_bucket_library_lists_have_no_duplicates_witness :
  Forall librariesNoDup (exportLoop true hideEmails [commitGo; commitPython; commitNoDate]).
Proof.
  apply (C7_bucket_library_lists_have_no_duplicates true hideEmails
           [commitGo; commitPython; commitNoDate]).
  intros _ b Hb k v. exact (Hb k v).
Defined.

(** ** What the order of arrival cannot change

    For the commits of one day, everything in the bucket but its languages
    is independent of the order of arrival: the sums and the count are
    equal, and the authors and the libraries of each language are the same
    up to their order in the lists. *)

Lemma totalOver_perm count l l' : l ≡ₚ l' -> totalOver count l = totalOver count l'.
Proof.
  unfold totalOver. induction 1; simpl; lia.
Qed.

Lemma foldl_mergeCommit_Insertions b rest x :
  OptimizedCommitForExport.Insertions b = GoInt.wrap x ->
  OptimizedCommitForExport.Insertions (foldl mergeCommit b rest)
  = GoInt.wrap (x + totalOver ChangedFile.Insertions rest).
Proof.
  revert b x. induction rest as [|c rest IH]; intros b x Hb; simpl.
  - rewrite Hb. f_equal. lia.
  - rewrite (IH _ (x + totalOf ChangedFile.Insertions (Commit.ChangedFiles c))).
    + f_equal. unfold totalOver. lia.
    + cbn [mergeCommit mergeIntoBucket OptimizedCommitForExport.Insertions].
      rewrite Hb. unfold GoInt.add. by rewrite wrap_add_l, wrap_add_r.
Qed.

Lemma foldl_mergeCommit_Deletions b rest x :
  OptimizedCommitForExport.Deletions b = GoInt.wrap x ->
  OptimizedCommitForExport.Deletions (foldl mergeCommit b rest)
  = GoInt.wrap (x + totalOver ChangedFile.Deletions rest).
Proof.
  revert b x. induction rest as [|c rest IH]; intros b x Hb; simpl.
  - rewrite Hb. f_equal. lia.
  - rewrite (IH _ (x + totalOf ChangedFile.Deletions (Commit.ChangedFiles c))).
    + f_equal. unfold totalOver. lia.
    + cbn [mergeCommit mergeIntoBucket OptimizedCommitForExport.Deletions].
      rewrite Hb. unfold GoInt.add. by rewrite wrap_add_l, wrap_add_r.
Qed.

Lemma foldl_mergeCommit_Commits b rest x :
  OptimizedCommitForExport.Commits b = GoInt.wrap x ->
  OptimizedCommitForExport.Commits (foldl mergeCommit b rest)
  = GoInt.wrap (x + Z.of_nat (length rest)).
Proof.
  revert b x. induction rest as [|c rest IH]; intros b x Hb; simpl length.
  - simpl. rewrite Hb. f_equal. lia.
  - cbn [foldl]. rewrite (IH _ (x + 1)).
    + f_equal. lia.
    + cbn [mergeCommit mergeIntoBucket OptimizedCommitForExport.Commits].
      rewrite Hb. unfold GoInt.add. by rewrite wrap_add_l.
Qed.

Lemma foldl_mergeCommit_AuthorEmails b rest :
  NoDup (OptimizedCommitForExport.AuthorEmails b) ->
  NoDup (OptimizedCommitForExport.AuthorEmails (foldl mergeCommit b rest))
  /\ forall x,
       x ∈ OptimizedCommitForExport.AuthorEmails (foldl mergeCommit b rest)
       <-> x ∈ OptimizedCommitForExport.AuthorEmails b
           \/ exists c, c ∈ rest /\ Commit.AuthorEmail c = x.
Proof.
  revert b. induction rest as [|c rest IH]; intros b Hb.
  - split; [done|]. intros x. split; [by left|].
    intros [H|(c & Hc & _)]; [done | inversion Hc].
  - cbn [foldl].
    pose proof (mergeIntoBucket_fields b c
      (GoInt.wrap (totalOf ChangedFile.Insertions (Commit.ChangedFiles c)))
      (GoInt.wrap (totalOf ChangedFile.Deletions (Commit.ChangedFiles c))))
      as (_ & _ & _ & He & _).
    fold (mergeCommit b c) in He.
    destruct (IH (mergeCommit b c)) as [Hnd Hel].
    { rewrite He. case_bool_decide as Hin; [done|].
      apply NoDup_app. split_and!; [done | | apply NoDup_singleton].
      intros y Hy Hy'. apply list_elem_of_singleton in Hy'. by subst. }
    split; [done|]. intros x. rewrite Hel, He.
    case_bool_decide as Hin.
    + split.
      * intros [H|(c' & Hc' & Hx)]; [by left|]. right. exists c'. split; [by right | done].
      * intros [H|(c' & Hc' & Hx)]; [by left|].
        apply elem_of_cons in Hc' as [->|Hc']; [left; by subst | right; eauto].
    + rewrite elem_of_app, list_elem_of_singleton. split.
      * intros [[H| ->]|(c' & Hc' & Hx)]; [by left | right; exists c; split; [left|done] |].
        right. exists c'. split; [by right | done].
      * intros [H|(c' & Hc' & Hx)]; [by left; left|].
        apply elem_of_cons in Hc' as [->|Hc']; [left; right; by subst | right; eauto].
Qed.

Lemma foldl_mergeCommit_Libraries b rest k :
  librariesNoDup b ->
  (is_Some (OptimizedCommitForExport.Libraries (foldl mergeCommit b rest) !! k)
   <-> is_Some (OptimizedCommitForExport.Libraries b !! k)
       \/ exists c, c ∈ rest /\ is_Some (Commit.Libraries c !! k))
  /\ NoDup (default [] (OptimizedCommitForExport.Libraries (foldl mergeCommit b rest) !! k))
  /\ forall x,
       x ∈ default [] (OptimizedCommitForExport.Libraries (foldl mergeCommit b rest) !! k)
       <-> x ∈ default [] (OptimizedCommitForExport.Libraries b !! k)
           \/ exists c, c ∈ rest /\ x ∈ default [] (Commit.Libraries c !! k).
Proof.
  revert b. induction rest as [|c rest IH]; intros b Hb.
  - cbn [foldl]. split_and!.
    + split; [by left|]. intros [H|(c & Hc & _)]; [done | inversion Hc].
    + destruct (OptimizedCommitForExport.Libraries b !! k) eqn:Hk; simpl;
        [by apply (Hb k) | apply NoDup_nil_2].
    + intros x. split; [by left|]. intros [H|(c & Hc & _)]; [done | inversion Hc].
  - cbn [foldl].
    pose proof (mergeIntoBucket_fields b c
      (GoInt.wrap (totalOf ChangedFile.Insertions (Commit.ChangedFiles c)))
      (GoInt.wrap (totalOf ChangedFile.Deletions (Commit.ChangedFiles c))))
      as (_ & _ & _ & _ & Hl & _).
    fold (mergeCommit b c) in Hl. specialize (Hl k).
    destruct (IH (mergeCommit b c)) as (Hs & Hnd & Hel).
    { by apply mergeIntoBucket_librariesNoDup. }
    split_and!; [|done|].
    + rewrite Hs, Hl. destruct (Commit.Libraries c !! k) as [new|] eqn:Hc.
      * split; [intros _; right; exists c; split; [left | by rewrite Hc]|].
        intros _. left. by eexists.
      * split.
        -- intros [H|(c' & Hc' & Hx)]; [by left|]. right. exists c'. split; [by right|done].
        -- intros [H|(c' & Hc' & Hx)]; [by left|].
           apply elem_of_cons in Hc' as [->|Hc'].
           ++ rewrite Hc in Hx. by destruct Hx.
           ++ right. eauto.
    + intros x. rewrite Hel, Hl. destruct (Commit.Libraries c !! k) as [new|] eqn:Hc.
      * cbn [default from_option id]. rewrite elem_of_unionInto. split.
        -- intros [[H|H]|(c' & Hc' & Hx)]; [by left | |].
           ++ right. exists c. split; [left|]. by rewrite Hc.
           ++ right. exists c'. split; [by right|done].
        -- intros [H|(c' & Hc' & Hx)]; [by left; left|].
           apply elem_of_cons in Hc' as [->|Hc'].
           ++ rewrite Hc in Hx. by left; right.
           ++ right. eauto.
      * split.
        -- intros [H|(c' & Hc' & Hx)]; [by left|]. right. exists c'. split; [by right|done].
        -- intros [H|(c' & Hc' & Hx)]; [by left|].
           apply elem_of_cons in Hc' as [->|Hc'].
           ++ rewrite Hc in Hx. inversion Hx.
           ++ right. eauto.
Qed.

(** The bucket of the commits of one day, field by field, in terms of the
    list of the commits only. *)
Lemma one_day_bucket_summary Obfuscate key (l : list Commit.t) :
  l <> [] ->
  Forall (fun c => dayKey c = key) l ->
  exists b,
    exportLoop false Obfuscate l = [b]
    /\ OptimizedCommitForExport.Date b = key
    /\ OptimizedCommitForExport.Insertions b
       = GoInt.wrap (totalOver ChangedFile.Insertions l)
    /\ OptimizedCommitForExport.Deletions b
       = GoInt.wrap (totalOver ChangedFile.Deletions l)
    /\ OptimizedCommitForExport.Commits b = GoInt.wrap (Z.of_nat (length l))
    /\ NoDup (OptimizedCommitForExport.AuthorEmails b)
    /\ (forall x, x ∈ OptimizedCommitForExport.AuthorEmails b
                  <-> exists c, c ∈ l /\ Commit.AuthorEmail c = x)
    /\ (forall k,
          (is_Some (OptimizedCommitForExport.Libraries b !! k)
           <-> exists c, c ∈ l /\ is_Some (Commit.Libraries c !! k))
          /\ NoDup (default [] (OptimizedCommitForExport.Libraries b !! k))
          /\ forall x,
               x ∈ default [] (OptimizedCommitForExport.Libraries b !! k)
               <-> exists c, c ∈ l /\ x ∈ default [] (Commit.Libraries c !! k)).
Proof.
  intros Hne Hall. destruct l as [|c rest]; [done|]. clear Hne.
  destruct (exportLoop_one_day false Obfuscate key c rest
              ltac:(discriminate) Hall) as [He Hd].
  eexists. split; [exact He|]. split; [exact Hd|].
  set (first := newBucket false Obfuscate c key _ _ _).
  assert (librariesNoDup first) as Hfirst.
  { apply newBucket_librariesNoDup. discriminate. }
  split_and!.
  - rewrite (foldl_mergeCommit_Insertions first rest
               (totalOf ChangedFile.Insertions (Commit.ChangedFiles c))); done.
  - rewrite (foldl_mergeCommit_Deletions first rest
               (totalOf ChangedFile.Deletions (Commit.ChangedFiles c))); done.
  - rewrite (foldl_mergeCommit_Commits first rest 1) by done.
    f_equal. simpl length. lia.
  - apply foldl_mergeCommit_AuthorEmails. apply NoDup_singleton.
  - intros x.
    destruct (foldl_mergeCommit_AuthorEmails first rest (NoDup_singleton _)) as [_ ->].
    cbn [first newBucket OptimizedCommitForExport.AuthorEmails].
    rewrite list_elem_of_singleton. split.
    + intros [->|(c' & Hc' & Hx)]; [exists c; split; [left|done]|].
      exists c'. split; [by right|done].
    + intros (c' & Hc' & Hx). apply elem_of_cons in Hc' as [->|Hc']; [by left|].
      right. eauto.
  - intros k.
    destruct (foldl_mergeCommit_Libraries first rest k Hfirst) as (Hs & Hnd & Hel).
    assert (OptimizedCommitForExport.Libraries first !! k
            = removeDuplicateStrings <$> Commit.Libraries c !! k) as Hk.
    { cbn [first newBucket OptimizedCommitForExport.Libraries]. apply lookup_fmap. }
    split_and!; [|done|].
    + rewrite Hs, Hk, fmap_is_Some. split.
      * intros [H|(c' & Hc' & Hx)]; [exists c; split; [left|done]|].
        exists c'. split; [by right|done].
      * intros (c' & Hc' & Hx). apply elem_of_cons in Hc' as [->|Hc']; [by left|].
        right. eauto.
    + intros x. rewrite Hel, Hk.
      assert (x ∈ default [] (removeDuplicateStrings <$> Commit.Libraries c !! k)
              <-> x ∈ default [] (Commit.Libraries c !! k)) as ->.
      { destruct (Commit.Libraries c !! k); simpl; [|done].
        apply elem_of_removeDuplicateStrings. }
      split.
      * intros [H|(c' & Hc' & Hx)]; [exists c; split; [left|done]|].
        exists c'. split; [by right|done].
      * intros (c' & Hc' & Hx). apply elem_of_cons in Hc' as [->|Hc']; [by left|].
        right. eauto.
Qed.

(** Received in any two orders, the commits of one day give buckets with the
    same key, sums and count, the same authors up to order, and for every
    language the same libraries up to order.  (The languages of the bucket
    are those of the commit that arrived first.) *)
Lemma one_day_bucket_order_independent_except_languages
    Obfuscate key (l l' : list Commit.t) :
  l <> [] -> l ≡ₚ l' ->
  Forall (fun c => dayKey c = key) l ->
  exists b b',
    exportLoop false Obfuscate l = [b]
    /\ exportLoop false Obfuscate l' = [b']
    /\ OptimizedCommitForExport.Date b = OptimizedCommitForExport.Date b'
    /\ OptimizedCommitForExport.Insertions b = OptimizedCommitForExport.Insertions b'
    /\ OptimizedCommitForExport.Deletions b = OptimizedCommitForExport.Deletions b'
    /\ OptimizedCommitForExport.Commits b = OptimizedCommitForExport.Commits b'
    /\ OptimizedCommitForExport.AuthorEmails b ≡ₚ OptimizedCommitForExport.AuthorEmails b'
    /\ forall k,
         option_Forall2 (≡ₚ) (OptimizedCommitForExport.Libraries b !! k)
           (OptimizedCommitForExport.Libraries b' !! k).
Proof.
  intros Hne Hperm Hall.
  assert (l' <> []) as Hne'.
  { intros ->. by apply Permutation_nil_r in Hperm. }
  assert (Forall (fun c => dayKey c = key) l') as Hall' by by rewrite <- Hperm.
  destruct (one_day_bucket_summary Obfuscate key l Hne Hall)
    as (b & He & Hd & Hi & Hde & Hc & Hnd & Hem & Hlib).
  destruct (one_day_bucket_summary Obfuscate key l' Hne' Hall')
    as (b' & He' & Hd' & Hi' & Hde' & Hc' & Hnd' & Hem' & Hlib').
  assert (forall P : Commit.t -> Prop,
            (exists c, c ∈ l /\ P c) <-> (exists c, c ∈ l' /\ P c)) as Hex.
  { intros P. split; intros (c & Hin & HP); exists c; split; try done;
      [by rewrite <- Hperm | by rewrite Hperm]. }
  exists b, b'. split_and!; try done.
  - congruence.
  - by rewrite Hi, Hi', (totalOver_perm _ _ _ Hperm).
  - by rewrite Hde, Hde', (totalOver_perm _ _ _ Hperm).
  - by rewrite Hc, Hc', (Permutation_length Hperm).
  - apply NoDup_Permutation; [done | done |]. intros x. rewrite Hem, Hem'. apply Hex.
  - intros k. destruct (Hlib k) as (Hs & Hn & Hx), (Hlib' k) as (Hs' & Hn' & Hx').
    assert (is_Some (OptimizedCommitForExport.Libraries b !! k)
            <-> is_Some (OptimizedCommitForExport.Libraries b' !! k)) as Hiff.
    { rewrite Hs, Hs'. apply Hex. }
    destruct (OptimizedCommitForExport.Libraries b !! k) as [v|] eqn:Hv,
             (OptimizedCommitForExport.Libraries b' !! k) as [v'|] eqn:Hv'.
    + constructor. simpl in *. apply NoDup_Permutation; [done | done |].
      intros x. rewrite Hx, Hx'. apply Hex.
    + destruct Hiff as [Hiff _]. destruct Hiff as [? ?]; [by eexists | done].
    + destruct Hiff as [_ Hiff]. destruct Hiff as [? ?]; [by eexists | done].
    + constructor.
Qed.

(** ** The aggregator groups the commits by day *)

Lemma filter_none {A} (P : A -> Prop) `{forall x, Decision (P x)} (l : list A) :
  Forall (fun x => ~ P x) l -> filter P l = [].
Proof.
  induction 1 as [|x l Hx _ IH]; [done|].
  by rewrite filter_cons_False.
Qed.

Section GroupsByDay.

Variable HashImportant : bool.
Variable Obfuscate : OptimizedCommitForExport.t -> OptimizedCommitForExport.t.
Hypothesis Obfuscate_Date :
  HashImportant = true ->
  forall b, OptimizedCommitForExport.Date (Obfuscate b) = OptimizedCommitForExport.Date b.

Lemma newBucket_Date c key langs ins del :
  OptimizedCommitForExport.Date (newBucket HashImportant Obfuscate c key langs ins del)
  = key.
Proof.
  unfold newBucket. destruct HashImportant eqn:E; [|done].
  by rewrite Obfuscate_Date.
Qed.

Lemma exportLoop_snoc l c :
  exportLoop HashImportant Obfuscate (l ++ [c])
  = receiveCommit HashImportant Obfuscate (exportLoop HashImportant Obfuscate l) c.
Proof. unfold exportLoop. by rewrite foldl_app. Qed.

Lemma commitsOfDay_snoc key l c :
  commitsOfDay key (l ++ [c])
  = commitsOfDay key l ++ (if decide (dayKey c = key) then [c] else []).
Proof.
  unfold commitsOfDay. by rewrite filter_app.
Qed.

(** The buckets have distinct day keys, and the bucket of each day is the
    one its commits make in their order of arrival, whatever commits of other
    days arrive in between. *)
Lemma exportLoop_groups_by_day (received : list Commit.t) :
  NoDup (OptimizedCommitForExport.Date <$> exportLoop HashImportant Obfuscate received)
  /\ forall key,
       filter (fun b => OptimizedCommitForExport.Date b = key)
         (exportLoop HashImportant Obfuscate received)
       = bucketOfDay HashImportant Obfuscate key received.
Proof.
  induction received as [|c l [IHnd IH]] using rev_ind.
  - split; [apply NoDup_nil_2 | done].
  - rewrite exportLoop_snoc.
    set (prepared := exportLoop HashImportant Obfuscate l) in *.
    destruct (receiveCommit_cases HashImportant Obfuscate prepared c)
      as [[Hall ->]|(i & b & Hi & Hd & _ & ->)]; fold (dayKey c) in *.
    + (* the commit opens the bucket of its day *)
      split.
      * rewrite fmap_app. apply NoDup_app. split_and!; [done | |].
        -- intros key Hk Hk'. simpl in Hk'.
           apply list_elem_of_singleton in Hk'. subst key.
           apply list_elem_of_fmap in Hk as (b & Hb & Hin).
           rewrite newBucket_Date in Hb.
           rewrite Forall_forall in Hall. by apply (Hall b Hin).
        -- simpl. apply NoDup_singleton.
      * intros key. rewrite filter_app, IH. unfold bucketOfDay.
        rewrite commitsOfDay_snoc.
        destruct (decide (dayKey c = key)) as [<-|Hne].
        -- rewrite filter_cons_True by apply newBucket_Date.
           assert (bucketOfDay HashImportant Obfuscate (dayKey c) l = []) as Hnone.
           { rewrite <- IH. by apply filter_none. }
           unfold bucketOfDay in Hnone.
           destruct (commitsOfDay (dayKey c) l); [done | discriminate].
        -- rewrite filter_cons_False by (by rewrite newBucket_Date).
           rewrite !app_nil_r. reflexivity.
    + (* the commit is merged into the bucket of its day *)
      assert (OptimizedCommitForExport.Date
                (mergeIntoBucket b c
                   (GoInt.wrap (totalOf ChangedFile.Insertions (Commit.ChangedFiles c)))
                   (GoInt.wrap (totalOf ChangedFile.Deletions (Commit.ChangedFiles c))))
              = dayKey c) as Hd' by done.
      fold (mergeCommit b c) in *.
      pose proof (take_drop_middle _ _ _ Hi) as Hsplit.
      assert (<[i := mergeCommit b c]> prepared
              = take i prepared ++ mergeCommit b c :: drop (S i) prepared) as Hins.
      { apply insert_take_drop. by apply lookup_lt_Some in Hi. }
      assert (OptimizedCommitForExport.Date <$> <[i := mergeCommit b c]> prepared
              = OptimizedCommitForExport.Date <$> prepared) as Hdates.
      { rewrite Hins. rewrite <- Hsplit at 3. rewrite !fmap_app, !fmap_cons.
        by rewrite Hd', Hd. }
      split; [by rewrite Hdates|].
      intros key. specialize (IH key). rewrite Hins.
      rewrite <- Hsplit in IH, IHnd.
      rewrite filter_app in *. unfold bucketOfDay in *.
      rewrite commitsOfDay_snoc.
      destruct (decide (dayKey c = key)) as [<-|Hne].
      * rewrite fmap_app, fmap_cons in IHnd.
        apply NoDup_app in IHnd as (_ & Hleft & Hright).
        apply NoDup_cons in Hright as [Hright _].
        assert (filter (fun b0 => OptimizedCommitForExport.Date b0 = dayKey c)
                  (take i prepared) = []) as Ht.
        { apply filter_none, Forall_forall. intros b0 Hb0 Hk.
          apply (Hleft (dayKey c)).
          - apply list_elem_of_fmap. eauto.
          - rewrite Hd. left. }
        assert (filter (fun b0 => OptimizedCommitForExport.Date b0 = dayKey c)
                  (drop (S i) prepared) = []) as Hdr.
        { apply filter_none, Forall_forall. intros b0 Hb0 Hk.
          apply Hright. rewrite Hd. apply list_elem_of_fmap. eauto. }
        rewrite filter_cons_True in IH by done.
        rewrite filter_cons_True by done.
        rewrite Ht, Hdr in IH. rewrite Ht, Hdr. simpl in IH.
        destruct (commitsOfDay (dayKey c) l) as [|c0 rest]; [discriminate|].
        injection IH as IH. simpl. rewrite foldl_app. simpl. by rewrite <- IH.
      * rewrite filter_cons_False in IH by congruence.
        rewrite filter_cons_False by congruence.
        by rewrite app_nil_r.
Qed.

End GroupsByDay.



(** * Further properties of the extractor

    ** The helpers of the aggregator *)

Lemma unionInto_app_sublist cur new :
  exists kept, unionInto cur new = cur ++ kept /\ sublist kept new.
Proof.
  revert cur. induction new as [|item new IH]; intros cur.
  - exists []. by rewrite unionInto_nil, app_nil_r.
  - rewrite unionInto_cons. destruct (contains cur item).
    + destruct (IH cur) as (kept & -> & Hs). exists kept. split; [done|].
      by apply sublist_cons.
    + destruct (IH (cur ++ [item])) as (kept & -> & Hs). exists (item :: kept).
      split; [by rewrite <- app_assoc | by apply sublist_skip].
Qed.

Lemma unionInto_NoDup_id cur new : NoDup (cur ++ new) -> unionInto cur new = cur ++ new.
Proof.
  revert cur. induction new as [|item new IH]; intros cur Hnd.
  - by rewrite unionInto_nil, app_nil_r.
  - rewrite unionInto_cons.
    assert (contains cur item = false) as ->.
    { apply contains_false. apply NoDup_app in Hnd as (_ & Hd & _).
      intros Hin. apply (Hd item Hin). left. }
    rewrite IH; rewrite <- app_assoc; done.
Qed.

(** X1: [removeDuplicateStrings] returns the distinct strings of the slice,
    each once, in the order of their first occurrences; a slice without
    duplicates is returned as it is. *)
Theorem X1_removeDuplicateStrings_distinct_in_order slice :
  NoDup (removeDuplicateStrings slice)
  /\ (forall x, x ∈ removeDuplicateStrings slice <-> x ∈ slice)
  /\ sublist (removeDuplicateStrings slice) slice
  /\ head (removeDuplicateStrings slice) = head slice
  /\ removeDuplicateStrings (removeDuplicateStrings slice)
     = removeDuplicateStrings slice.
Proof.
  split_and!.
  - apply removeDuplicateStrings_NoDup.
  - apply elem_of_removeDuplicateStrings.
  - rewrite removeDuplicateStrings_unionInto.
    destruct (unionInto_app_sublist [] slice) as (kept & -> & Hs). done.
  - rewrite removeDuplicateStrings_unionInto. destruct slice as [|x slice]; [done|].
    rewrite unionInto_cons. simpl.
    destruct (unionInto_app_sublist [x] slice) as (kept & -> & _). done.
  - rewrite (removeDuplicateStrings_unionInto (removeDuplicateStrings slice)).
    apply (unionInto_NoDup_id []), removeDuplicateStrings_NoDup.
Qed.

(** X2: [commitContainsExistingDate] finds the first bucket with the given
    date: it answers [true] with the index of that bucket, before which no
    bucket has the date, and [(false, -1)] exactly when no bucket has it. *)
Theorem X2_commitContainsExistingDate_first_match slice value :
  (commitContainsExistingDate slice value = (false, -1)
   /\ forall b, b ∈ slice -> OptimizedCommitForExport.Date b <> value)
  \/ (exists (i : nat) b,
        commitContainsExistingDate slice value = (true, Z.of_nat i)
        /\ slice !! i = Some b
        /\ OptimizedCommitForExport.Date b = value
        /\ forall (j : nat) b', (j < i)%nat -> slice !! j = Some b' ->
             OptimizedCommitForExport.Date b' <> value).
Proof.
  unfold commitContainsExistingDate.
  destruct (commitContainsExistingDate_from_spec 0 slice value)
    as [[-> Hall]|(i & b & -> & Hi & Hd & Hall)].
  - left. split; [done|]. by apply Forall_forall.
  - right. exists i, b. split_and!; try done.
    intros j b' Hj Hb'. rewrite Forall_forall in Hall. apply Hall.
    apply list_elem_of_lookup. exists j. by rewrite lookup_take_lt.
Qed.

(** X3: the merge of the libraries of a commit into those of a bucket does
    not depend on the order in which Go ranges over the commit's map: every
    order of its keys gives the same map, in which a language of the commit
    has the ordered union of the bucket's list and the commit's list, and
    any other language keeps the bucket's list. *)
Theorem X3_mergeLibraries_independent_of_map_order
    (commitLibraries newLibraries : gmap string (list string))
    (order : list (string * list string)) :
  order ≡ₚ map_to_list commitLibraries ->
  foldr (uncurry mergeLibrary) newLibraries order
  = mergeLibraries commitLibraries newLibraries
  /\ forall k,
       mergeLibraries commitLibraries newLibraries !! k
       = match commitLibraries !! k with
         | Some v => Some (unionInto (default [] (newLibraries !! k)) v)
         | None => newLibraries !! k
         end.
Proof.
  intros Hperm. split; [by apply mergeLibraries_any_order|].
  intros k. apply mergeLibraries_lookup.
Qed.

Lemma X3_mergeLibraries_independent_of_map_order_witness :
  foldr (uncurry mergeLibrary) {["Go" := ["fmt"]]}
    (reverse (map_to_list (Commit.Libraries commitPython)))
  = mergeLibraries (Commit.Libraries commitPython) {["Go" := ["fmt"]]}.
Proof.
  apply (X3_mergeLibraries_independent_of_map_order
           (Commit.Libraries commitPython) {["Go" := ["fmt"]]}
           (reverse (map_to_list (Commit.Libraries commitPython)))).
  apply reverse_Permutation.
Defined.

(** ** The buckets of the aggregator *)

Lemma exportLoop_bucket_of_its_day HashImportant Obfuscate received b :
  (HashImportant = true ->
   forall b, OptimizedCommitForExport.Date (Obfuscate b)
             = OptimizedCommitForExport.Date b) ->
  b ∈ exportLoop HashImportant Obfuscate received ->
  commitsOfDay (OptimizedCommitForExport.Date b) received <> []
  /\ exportLoop HashImportant Obfuscate
       (commitsOfDay (OptimizedCommitForExport.Date b) received) = [b].
Proof.
  intros Hobf Hb.
  destruct (exportLoop_groups_by_day HashImportant Obfuscate Hobf received)
    as [_ Hgroup].
  set (key := OptimizedCommitForExport.Date b) in *.
  assert (b ∈ bucketOfDay HashImportant Obfuscate key received) as Hin.
  { rewrite <- Hgroup. by apply list_elem_of_filter. }
  unfold bucketOfDay in Hin.
  destruct (commitsOfDay key received) as [|c rest] eqn:Hday; [inversion Hin|].
  split; [done|].
  apply list_elem_of_singleton in Hin.
  assert (Forall (fun c => dayKey c = key) (c :: rest)) as Hall.
  { rewrite <- Hday. apply Forall_forall. intros c' Hc'.
    by apply list_elem_of_filter in Hc' as [? _]. }
  destruct (exportLoop_one_day HashImportant Obfuscate key c rest Hobf Hall)
    as [-> _].
  by rewrite Hin.
Qed.

(** X4: the buckets have pairwise distinct day keys, every commit received
    has the bucket of its day, and the bucket of a day is exactly what the
    commits of that day give when they are received alone, in the same
    order: commits of other days, wherever they arrive in between, change
    nothing in it.  (When the obfuscation is on it must leave the day key of
    a bucket as it is.) *)
Theorem X4_one_bucket_per_day_made_by_its_commits
    HashImportant Obfuscate (received : list Commit.t) :
  (HashImportant = true ->
   forall b, OptimizedCommitForExport.Date (Obfuscate b)
             = OptimizedCommitForExport.Date b) ->
  NoDup (OptimizedCommitForExport.Date <$> exportLoop HashImportant Obfuscate received)
  /\ (forall c, c ∈ received ->
        exists b, b ∈ exportLoop HashImportant Obfuscate received
                  /\ OptimizedCommitForExport.Date b = dayKey c)
  /\ (forall b, b ∈ exportLoop HashImportant Obfuscate received ->
        exportLoop HashImportant Obfuscate
          (commitsOfDay (OptimizedCommitForExport.Date b) received) = [b]).
Proof.
  intros Hobf.
  destruct (exportLoop_groups_by_day HashImportant Obfuscate Hobf received)
    as [Hnd Hgroup].
  split_and!; [done | |].
  - intros c Hc. specialize (Hgroup (dayKey c)). unfold bucketOfDay in Hgroup.
    assert (c ∈ commitsOfDay (dayKey c) received) as Hday
      by by apply list_elem_of_filter.
    destruct (commitsOfDay (dayKey c) received) as [|c0 rest]; [inversion Hday|].
    match type of Hgroup with _ = [?b0] => exists b0 end.
    assert (forall b0 l, filter
              (fun b => OptimizedCommitForExport.Date b = dayKey c) l = [b0] ->
              b0 ∈ l /\ OptimizedCommitForExport.Date b0 = dayKey c) as Hf.
    { intros b0 l Hl. assert (b0 ∈ filter
        (fun b => OptimizedCommitForExport.Date b = dayKey c) l) as Hin
        by (rewrite Hl; left).
      apply list_elem_of_filter in Hin. tauto. }
    by apply Hf.
  - intros b Hb. by apply exportLoop_bucket_of_its_day.
Qed.

Lemma X4_one_bucket_per_day_made_by_its_commits_witness :
  NoDup (OptimizedCommitForExport.Date
           <$> exportLoop true hideEmails [commitGo; commitNight; commitPython])
  /\ length (exportLoop true hideEmails [commitGo; commitNight; commitPython]) = 2%nat.
Proof.
  destruct (X4_one_bucket_per_day_made_by_its_commits true hideEmails
              [commitGo; commitNight; commitPython] (fun _ _ => eq_refl))
    as (Hnd & _ & _).
  split; [exact Hnd | reflexivity].
Defined.

Lemma foldl_mergeCommit_Languages b rest :
  OptimizedCommitForExport.Languages (foldl mergeCommit b rest)
  = OptimizedCommitForExport.Languages b.
Proof.
  revert b. induction rest as [|c rest IH]; intros b; [done|].
  cbn [foldl]. by rewrite IH.
Qed.

(** X5: without obfuscation, the count of a bucket is the number of the
    commits of its day and its insertions and deletions are the sums over
    all the changed files of those commits, in the arithmetic of Go's
    [int]; a bucket never stands for an empty day. *)
Theorem X5_bucket_counts_are_those_of_its_day Obfuscate received b :
  b ∈ exportLoop false Obfuscate received ->
  let day := commitsOfDay (OptimizedCommitForExport.Date b) received in
  day <> []
  /\ OptimizedCommitForExport.Commits b = GoInt.wrap (Z.of_nat (length day))
  /\ OptimizedCommitForExport.Insertions b
     = GoInt.wrap (totalOver ChangedFile.Insertions day)
  /\ OptimizedCommitForExport.Deletions b
     = GoInt.wrap (totalOver ChangedFile.Deletions day).
Proof.
  intros Hb day.
  destruct (exportLoop_bucket_of_its_day false Obfuscate received b
              ltac:(discriminate) Hb) as [Hne He].
  fold day in Hne, He.
  assert (Forall (fun c => dayKey c = OptimizedCommitForExport.Date b) day) as Hall.
  { apply Forall_forall. intros c Hc. by apply list_elem_of_filter in Hc as [? _]. }
  destruct (one_day_bucket_summary Obfuscate _ day Hne Hall)
    as (b' & He' & _ & Hi & Hd & Hc & _).
  rewrite He in He'. injection He' as <-. done.
Qed.

Lemma X5_bucket_counts_are_those_of_its_day_witness :
  exists b, b ∈ exportLoop false id [commitGo; commitNight; commitPython]
            /\ OptimizedCommitForExport.Commits b = 2
            /\ OptimizedCommitForExport.Insertions b = 15
            /\ OptimizedCommitForExport.Deletions b = 3.
Proof.
  set (received := [commitGo; commitNight; commitPython]).
  set (b := hd (newBucket false id commitGo "" [] 0 0) (exportLoop false id received)).
  assert (b ∈ exportLoop false id received) as Hb by (vm_compute; left).
  exists b. split; [exact Hb|].
  destruct (X5_bucket_counts_are_those_of_its_day id received b Hb)
    as (_ & Hc & Hi & Hd).
  rewrite Hc, Hi, Hd. split_and!; reflexivity.
Defined.

(** X6: without obfuscation, the author emails of a bucket are the emails of
    the commits of its day, each once, and the libraries of a language are
    the identifiers the commits of the day have for that language, each
    once; a language has a list in the bucket exactly when a commit of the
    day has one for it. *)
Theorem X6_bucket_sets_are_unions_over_its_day Obfuscate received b :
  b ∈ exportLoop false Obfuscate received ->
  let day := commitsOfDay (OptimizedCommitForExport.Date b) received in
  NoDup (OptimizedCommitForExport.AuthorEmails b)
  /\ (forall x, x ∈ OptimizedCommitForExport.AuthorEmails b
                <-> exists c, c ∈ day /\ Commit.AuthorEmail c = x)
  /\ (forall k,
        (is_Some (OptimizedCommitForExport.Libraries b !! k)
         <-> exists c, c ∈ day /\ is_Some (Commit.Libraries c !! k))
        /\ NoDup (default [] (OptimizedCommitForExport.Libraries b !! k))
        /\ forall x,
             x ∈ default [] (OptimizedCommitForExport.Libraries b !! k)
             <-> exists c, c ∈ day /\ x ∈ default [] (Commit.Libraries c !! k)).
Proof.
  intros Hb day.
  destruct (exportLoop_bucket_of_its_day false Obfuscate received b
              ltac:(discriminate) Hb) as [Hne He].
  fold day in Hne, He.
  assert (Forall (fun c => dayKey c = OptimizedCommitForExport.Date b) day) as Hall.
  { apply Forall_forall. intros c Hc. by apply list_elem_of_filter in Hc as [? _]. }
  destruct (one_day_bucket_summary Obfuscate _ day Hne Hall)
    as (b' & He' & _ & _ & _ & _ & Hnd & Hem & Hlib).
  rewrite He in He'. injection He' as <-. done.
Qed.

Lemma X6_bucket_sets_are_unions_over_its_day_witness :
  exists b, b ∈ exportLoop false id [commitGo; commitNight; commitPython; commitGo]
            /\ NoDup (OptimizedCommitForExport.AuthorEmails b)
            /\ "bob@x.org" ∈ OptimizedCommitForExport.AuthorEmails b.
Proof.
  set (received := [commitGo; commitNight; commitPython; commitGo]).
  set (b := hd (newBucket false id commitGo "" [] 0 0) (exportLoop false id received)).
  assert (b ∈ exportLoop false id received) as Hb by (vm_compute; left).
  exists b. split; [exact Hb|].
  destruct (X6_bucket_sets_are_unions_over_its_day id received b Hb)
    as (Hnd & Hem & _).
  split; [exact Hnd|].
  apply Hem. exists commitPython. split; [|done].
  apply list_elem_of_filter. split; [by vm_compute|].
  subst received. do 2 apply list_elem_of_further. apply list_elem_of_here.
Defined.

Lemma exportLoop_filter_day HashImportant Obfuscate key received :
  (HashImportant = true ->
   forall b, OptimizedCommitForExport.Date (Obfuscate b)
             = OptimizedCommitForExport.Date b) ->
  filter (fun b => OptimizedCommitForExport.Date b = key)
    (exportLoop HashImportant Obfuscate received)
  = exportLoop HashImportant Obfuscate (commitsOfDay key received).
Proof.
  intros Hobf.
  destruct (exportLoop_groups_by_day HashImportant Obfuscate Hobf received)
    as [_ ->].
  unfold bucketOfDay.
  destruct (commitsOfDay key received) as [|c rest] eqn:Hday; [done|].
  assert (Forall (fun c => dayKey c = key) (c :: rest)) as Hall.
  { rewrite <- Hday. apply Forall_forall. intros c' Hc'.
    by apply list_elem_of_filter in Hc' as [? _]. }
  by destruct (exportLoop_one_day HashImportant Obfuscate key c rest Hobf Hall)
    as [-> _].
Qed.

Lemma exportLoop_dates HashImportant Obfuscate received key :
  (HashImportant = true ->
   forall b, OptimizedCommitForExport.Date (Obfuscate b)
             = OptimizedCommitForExport.Date b) ->
  key ∈ OptimizedCommitForExport.Date <$> exportLoop HashImportant Obfuscate received
  <-> exists c, c ∈ received /\ dayKey c = key.
Proof.
  intros Hobf. rewrite list_elem_of_fmap. split.
  - intros (b & -> & Hb).
    destruct (exportLoop_bucket_of_its_day _ _ _ _ Hobf Hb) as [Hne _].
    destruct (commitsOfDay _ received) as [|c rest] eqn:Hday; [done|].
    assert (c ∈ commitsOfDay (OptimizedCommitForExport.Date b) received) as Hc
      by (rewrite Hday; left).
    apply list_elem_of_filter in Hc as [? ?]. by exists c.
  - intros (c & Hc & <-).
    assert (c ∈ commitsOfDay (dayKey c) received) as Hday
      by by apply list_elem_of_filter.
    pose proof (exportLoop_filter_day HashImportant Obfuscate (dayKey c)
                  received Hobf) as Hf.
    destruct (commitsOfDay (dayKey c) received) as [|c0 rest] eqn:Hd;
      [inversion Hday|].
    assert (Forall (fun c' => dayKey c' = dayKey c) (c0 :: rest)) as Hall.
    { rewrite <- Hd. apply Forall_forall. intros c' Hc'.
      by apply list_elem_of_filter in Hc' as [? _]. }
    destruct (exportLoop_one_day HashImportant Obfuscate (dayKey c) c0 rest
                Hobf Hall) as [He Hdate].
    rewrite He in Hf.
    eexists. split; [symmetry; exact Hdate|].
    assert (foldl mergeCommit
              (newBucket HashImportant Obfuscate c0 (dayKey c)
                 (commitLanguagesOf (Commit.ChangedFiles c0))
                 (GoInt.wrap (totalOf ChangedFile.Insertions (Commit.ChangedFiles c0)))
                 (GoInt.wrap (totalOf ChangedFile.Deletions (Commit.ChangedFiles c0))))
              rest
            ∈ filter (fun b => OptimizedCommitForExport.Date b = dayKey c)
                (exportLoop HashImportant Obfuscate received)) as Hin
      by (rewrite Hf; left).
    by apply list_elem_of_filter in Hin as [_ ?].
Qed.

(** X7: without obfuscation, the order in which the commits arrive changes
    the result only in the order of the buckets, in the order inside their
    author and library lists, and in their languages: received in another
    order, the same commits give as many buckets, and every bucket has a
    counterpart of the same day with the same counts, the same author
    emails and, for every language, the same libraries. *)
Theorem X7_arrival_order_keeps_days_counts_and_sets
    Obfuscate (received received' : list Commit.t) :
  received ≡ₚ received' ->
  length (exportLoop false Obfuscate received)
  = length (exportLoop false Obfuscate received')
  /\ forall b, b ∈ exportLoop false Obfuscate received ->
       exists b', b' ∈ exportLoop false Obfuscate received'
         /\ OptimizedCommitForExport.Date b' = OptimizedCommitForExport.Date b
         /\ OptimizedCommitForExport.Insertions b' = OptimizedCommitForExport.Insertions b
         /\ OptimizedCommitForExport.Deletions b' = OptimizedCommitForExport.Deletions b
         /\ OptimizedCommitForExport.Commits b' = OptimizedCommitForExport.Commits b
         /\ OptimizedCommitForExport.AuthorEmails b'
            ≡ₚ OptimizedCommitForExport.AuthorEmails b
         /\ forall k,
              option_Forall2 (≡ₚ) (OptimizedCommitForExport.Libraries b' !! k)
                (OptimizedCommitForExport.Libraries b !! k).
Proof.
  intros Hperm.
  assert (false = true ->
          forall b, OptimizedCommitForExport.Date (Obfuscate b)
                    = OptimizedCommitForExport.Date b) as Hobf by discriminate.
  split.
  - rewrite <- (length_fmap OptimizedCommitForExport.Date (exportLoop _ _ received)),
      <- (length_fmap OptimizedCommitForExport.Date (exportLoop _ _ received')).
    apply Permutation_length, NoDup_Permutation.
    + apply (exportLoop_groups_by_day false Obfuscate Hobf received).
    + apply (exportLoop_groups_by_day false Obfuscate Hobf received').
    + intros key. rewrite !exportLoop_dates by done.
      split; intros (c & Hc & Hk); exists c; split; try done;
        [by rewrite <- Hperm | by rewrite Hperm].
  - intros b Hb.
    destruct (exportLoop_bucket_of_its_day false Obfuscate received b Hobf Hb)
      as [Hne He].
    set (key := OptimizedCommitForExport.Date b) in *.
    assert (commitsOfDay key received ≡ₚ commitsOfDay key received') as Hday
      by (unfold commitsOfDay; by rewrite Hperm).
    assert (Forall (fun c => dayKey c = key) (commitsOfDay key received)) as Hall.
    { apply Forall_forall. intros c Hc. by apply list_elem_of_filter in Hc as [? _]. }
    destruct (one_day_bucket_order_independent_except_languages
                Obfuscate key _ _ Hne Hday Hall)
      as (b0 & b' & He0 & He' & Hd & Hi & Hde & Hc & Hem & Hlib).
    rewrite He in He0. injection He0 as <-.
    exists b'. split_and!; try done.
    assert (b' ∈ filter (fun b => OptimizedCommitForExport.Date b = key)
                   (exportLoop false Obfuscate received')) as Hin.
    { rewrite exportLoop_filter_day by done. rewrite He'. left. }
    by apply list_elem_of_filter in Hin as [_ ?].
Qed.

Lemma X7_arrival_order_keeps_days_counts_and_sets_witness :
  [commitGo; commitNight; commitPython] ≡ₚ [commitPython; commitGo; commitNight]
  /\ length (exportLoop false id [commitGo; commitNight; commitPython])
     = length (exportLoop false id [commitPython; commitGo; commitNight]).
Proof.
  assert ([commitGo; commitNight; commitPython]
          ≡ₚ [commitPython; commitGo; commitNight]) as Hperm.
  { change ([commitGo; commitNight] ++ [commitPython]
            ≡ₚ [commitPython] ++ [commitGo; commitNight]).
    apply Permutation_app_comm. }
  split; [exact Hperm|].
  exact (proj1 (X7_arrival_order_keeps_days_counts_and_sets id _ _ Hperm)).
Defined.

(** ** The totals of a commit *)

Lemma commitLanguagesOf_unionInto files :
  commitLanguagesOf files
  = unionInto [] (filter (fun x => x <> "") (ChangedFile.Language <$> files)).
Proof.
  unfold commitLanguagesOf.
  enough (forall acc,
            foldl
              (fun commitLanguages f =>
                 if negb (contains commitLanguages (ChangedFile.Language f))
                    && negb (bool_decide (ChangedFile.Language f = ""))
                 then commitLanguages ++ [ChangedFile.Language f]
                 else commitLanguages)
              acc files
            = unionInto acc
                (filter (fun x => x <> "") (ChangedFile.Language <$> files)))
    as H by apply H.
  induction files as [|f files IH]; intros acc; [done|].
  cbn [foldl fmap list_fmap].
  case_bool_decide as Hl.
  - rewrite andb_false_r, filter_cons_False by (by intros ?). apply IH.
  - rewrite andb_true_r, filter_cons_True by done.
    rewrite unionInto_cons, IH. by destruct (contains acc _).
Qed.

(** X8: what the aggregator computes of one commit before it looks for the
    bucket: the languages are the non-empty languages of the changed files,
    each once, in the order of their first file; the insertions and the
    deletions are the sums over all the changed files, whatever their
    language, in the arithmetic of Go's [int]. *)
Theorem X8_commit_totals (files : list ChangedFile.t) :
  let '(commitLanguages, commitInsertions, commitDeletions) := commitTotals files in
  NoDup commitLanguages
  /\ (forall x, x ∈ commitLanguages
                <-> x <> "" /\ exists f, f ∈ files /\ ChangedFile.Language f = x)
  /\ sublist commitLanguages (ChangedFile.Language <$> files)
  /\ commitInsertions = GoInt.wrap (totalOf ChangedFile.Insertions files)
  /\ commitDeletions = GoInt.wrap (totalOf ChangedFile.Deletions files).
Proof.
  rewrite commitTotals_eq, commitLanguagesOf_unionInto.
  split_and!; try done.
  - apply unionInto_NoDup, NoDup_nil_2.
  - intros x. rewrite elem_of_unionInto, list_elem_of_filter, list_elem_of_fmap.
    split.
    + intros [H|[Hx (f & -> & Hf)]]; [inversion H|]. eauto.
    + intros [Hx (f & Hf & <-)]. right. eauto.
  - destruct (unionInto_app_sublist []
                (filter (fun x => x <> "") (ChangedFile.Language <$> files)))
      as (kept & -> & Hsub).
    simpl. etrans; [exact Hsub|]. apply sublist_filter.
Qed.

(** ** Splitting strings *)

Lemma string_app_assoc (a b c : string) : (a +:+ b) +:+ c = a +:+ b +:+ c.
Proof. induction a as [|x a IH]; [done|]. by rewrite !string_app_cons, IH. Qed.

Lemma string_app_nil_r (a : string) : a +:+ "" = a.
Proof. induction a as [|x a IH]; [done|]. by rewrite string_app_cons, IH. Qed.

Lemma string_length_app (a b : string) :
  String.length (a +:+ b) = (String.length a + String.length b)%nat.
Proof. induction a as [|x a IH]; [done|]. rewrite string_app_cons. simpl. by rewrite IH. Qed.

Lemma HasPrefix_app sep rest : GoStrings.HasPrefix (sep +:+ rest) sep = true.
Proof.
  induction sep as [|c sep IH]; [done|].
  rewrite string_app_cons. cbn [GoStrings.HasPrefix].
  by rewrite Ascii.eqb_refl, IH.
Qed.

Lemma split_from_nonempty sep skip cur s : GoStrings.split_from sep skip cur s <> [].
Proof.
  revert skip cur. induction s as [|c s IH]; intros skip cur; [done|].
  cbn [GoStrings.split_from]. destruct skip; [|apply IH].
  destruct (GoStrings.HasPrefix _ _); [done | apply IH].
Qed.

Lemma split_from_skip sep a rest cur :
  GoStrings.split_from sep (String.length a) cur (a +:+ rest)
  = GoStrings.split_from sep 0 cur rest.
Proof.
  induction a as [|x a IH]; [done|].
  rewrite string_app_cons. cbn [GoStrings.split_from String.length]. apply IH.
Qed.

(** A string in which the separator does not occur is one piece. *)
Lemma split_from_absent sep cur s :
  GoStrings.Contains s sep = false ->
  GoStrings.split_from sep 0 cur s = [cur +:+ s].
Proof.
  revert cur. induction s as [|c s IH]; intros cur.
  - intros _. by rewrite string_app_nil_r.
  - cbn [GoStrings.Contains GoStrings.split_from].
    destruct (GoStrings.HasPrefix (String c s) sep); [done|].
    intros H. rewrite IH by done.
    by rewrite string_app_assoc, string_app_cons, string_app_nil_l.
Qed.

(** The piece before the separator when the separator starts at its first
    occurrence of its first byte. *)
Lemma split_from_piece c0 sep' piece rest cur :
  GoStrings.Contains piece (String c0 "") = false ->
  GoStrings.split_from (String c0 sep') 0 cur (piece +:+ String c0 sep' +:+ rest)
  = (cur +:+ piece) :: GoStrings.split_from (String c0 sep') 0 "" rest.
Proof.
  revert cur. induction piece as [|c piece IH]; intros cur Hp.
  - rewrite string_app_nil_l, string_app_nil_r.
    pose proof (HasPrefix_app (String c0 sep') rest) as Hpre.
    rewrite string_app_cons in *.
    cbn [GoStrings.split_from]. rewrite Hpre. f_equal.
    replace (String.length (String c0 sep') - 1)%nat with (String.length sep')
      by (cbn [String.length]; lia).
    apply split_from_skip.
  - cbn [GoStrings.Contains GoStrings.HasPrefix] in Hp.
    destruct (Ascii.eqb_spec c c0) as [->|Hc]; [done|]. cbn [andb] in Hp.
    rewrite string_app_cons. cbn [GoStrings.split_from GoStrings.HasPrefix].
    destruct (Ascii.eqb_spec c c0) as [->|_]; [done|]. cbn [andb].
    rewrite IH by done.
    by rewrite string_app_assoc, string_app_cons, string_app_nil_l.
Qed.

Lemma Contains_char_cons c c0 s :
  GoStrings.Contains (String c s) (String c0 "") = false
  <-> c <> c0 /\ GoStrings.Contains s (String c0 "") = false.
Proof.
  cbn [GoStrings.Contains GoStrings.HasPrefix].
  destruct (Ascii.eqb_spec c c0) as [->|Hc]; cbn [andb]; split;
    try done; [by intros [? _] | tauto].
Qed.

Lemma Contains_char_app c0 a b :
  GoStrings.Contains (a +:+ b) (String c0 "") = false
  <-> GoStrings.Contains a (String c0 "") = false
      /\ GoStrings.Contains b (String c0 "") = false.
Proof.
  induction a as [|c a IH].
  - rewrite string_app_nil_l. split; [by intros ? | by intros [_ ?]].
  - rewrite string_app_cons, !Contains_char_cons, IH. tauto.
Qed.

(** The last piece of a split at a one-byte separator holds no separator. *)
Lemma last_split_char_free c0 s cur :
  GoStrings.Contains cur (String c0 "") = false ->
  exists part,
    last (GoStrings.split_from (String c0 "") 0 cur s) = Some part
    /\ GoStrings.Contains part (String c0 "") = false.
Proof.
  revert cur. induction s as [|c s IH]; intros cur Hcur.
  - exists cur. by split.
  - cbn [GoStrings.split_from GoStrings.HasPrefix String.length].
    destruct (Ascii.eqb_spec c c0) as [->|Hc]; cbn [andb].
    + destruct (IH "" eq_refl) as (part & Hl & Hp).
      exists part. split; [|done]. simpl Nat.sub. rewrite last_cons. by rewrite Hl.
    + apply IH. apply Contains_char_app. split; [done|].
      by apply Contains_char_cons.
Qed.

(** The last piece when the string ends with a separator followed by a
    string without the separator. *)
Lemma last_split_char_suffix c0 name pre cur :
  GoStrings.Contains name (String c0 "") = false ->
  last (GoStrings.split_from (String c0 "") 0 cur (pre +:+ String c0 "" +:+ name))
  = Some name.
Proof.
  intros Hn. revert cur. induction pre as [|c pre IH]; intros cur.
  - rewrite string_app_nil_l, string_app_cons, string_app_nil_l.
    cbn [GoStrings.split_from GoStrings.HasPrefix String.length].
    rewrite Ascii.eqb_refl. cbn [andb]. simpl Nat.sub.
    by rewrite split_from_absent.
  - rewrite string_app_cons.
    cbn [GoStrings.split_from GoStrings.HasPrefix String.length].
    destruct (Ascii.eqb c c0); cbn [andb].
    + simpl Nat.sub. rewrite last_cons. by rewrite IH.
    + apply IH.
Qed.

(** The last piece keeps a tail that holds no separator. *)
Lemma last_split_char_tail c0 tail_ pre cur :
  GoStrings.Contains tail_ (String c0 "") = false ->
  exists q,
    last (GoStrings.split_from (String c0 "") 0 cur (pre +:+ tail_))
    = Some (q +:+ tail_).
Proof.
  intros Ht. revert cur. induction pre as [|c pre IH]; intros cur.
  - rewrite string_app_nil_l. exists cur. by rewrite split_from_absent.
  - rewrite string_app_cons.
    cbn [GoStrings.split_from GoStrings.HasPrefix String.length].
    destruct (Ascii.eqb c c0); cbn [andb].
    + simpl Nat.sub. destruct (IH "") as (q & Hq). exists q.
      rewrite last_cons. by rewrite Hq.
    + apply IH.
Qed.

Lemma substring_app_l (a b : string) :
  String.substring 0 (String.length a) (a +:+ b) = a.
Proof.
  induction a as [|x a IH]; [by destruct b|].
  rewrite string_app_cons. simpl. by rewrite IH.
Qed.

Lemma substring_app_r (a b : string) :
  String.substring (String.length a) (String.length b) (a +:+ b) = b.
Proof.
  induction a as [|x a IH].
  - rewrite string_app_nil_l. simpl.
    induction b as [|y b IHb]; [done|]. simpl. by rewrite IHb.
  - rewrite string_app_cons. simpl. apply IH.
Qed.

Lemma TrimSuffix_app s suffix : TrimSuffix (s +:+ suffix) suffix = s.
Proof.
  unfold TrimSuffix, HasSuffix. rewrite string_length_app.
  replace (String.length s + String.length suffix - String.length suffix)%nat
    with (String.length s) by lia.
  rewrite substring_app_r, substring_app_l.
  rewrite bool_decide_eq_true_2 by done.
  destruct (_ <=? _)%nat eqn:Hle; [done|].
  apply Nat.leb_gt in Hle. lia.
Qed.

(** ** The name of the repository *)

Lemma lastPart_Split_char c0 s :
  exists part,
    lastPart (GoStrings.Split s (String c0 "")) = Returned part
    /\ GoStrings.Contains part (String c0 "") = false.
Proof.
  destruct (last_split_char_free c0 s "" eq_refl) as (part & Hl & Hp).
  exists part. unfold lastPart, GoStrings.Split. by rewrite Hl.
Qed.

Lemma GetRepoName_one_component (RepoPath remoteOrigin : string) :
  exists repoName,
    GetRepoName RepoPath remoteOrigin = Returned repoName
    /\ GoStrings.Contains repoName "/" = false.
Proof.
  unfold GetRepoName. case_bool_decide; [apply lastPart_Split_char|].
  destruct (GoStrings.Contains _ "http"); [apply lastPart_Split_char|].
  destruct (lastPart_Split_char ":" (TrimSuffix remoteOrigin ".git"))
    as (part & -> & _).
  apply lastPart_Split_char.
Qed.

(** X9: [GetRepoName] never fails and never panics, whatever the path and
    the remote are, and the name it returns holds no slash: it is one path
    component, never an owner followed by a repository. *)
Theorem X9_GetRepoName_returns_one_component (RepoPath remoteOrigin : string) :
  exists repoName,
    GetRepoName RepoPath remoteOrigin = Returned repoName
    /\ GoStrings.Contains repoName "/" = false.
Proof. apply GetRepoName_one_component. Qed.

Lemma GetRepoName_remote RepoPath base name :
  GoStrings.Contains name "/" = false ->
  GoStrings.Contains name ":" = false ->
  GetRepoName RepoPath (base +:+ "/" +:+ name +:+ ".git") = Returned name.
Proof.
  intros Hslash Hcolon. unfold GetRepoName.
  rewrite bool_decide_eq_false_2.
  2: { destruct base; [rewrite string_app_nil_l | rewrite string_app_cons]; done. }
  replace (base +:+ "/" +:+ name +:+ ".git")
    with ((base +:+ "/" +:+ name) +:+ ".git")
    by by rewrite !string_app_assoc.
  rewrite TrimSuffix_app.
  destruct (GoStrings.Contains _ "http").
  - unfold lastPart, GoStrings.Split. by rewrite last_split_char_suffix.
  - assert (GoStrings.Contains ("/" +:+ name) ":" = false) as Htail.
    { rewrite string_app_cons, string_app_nil_l.
      by apply Contains_char_cons. }
    destruct (last_split_char_tail ":" ("/" +:+ name) base "" Htail) as (q & Hq).
    unfold lastPart at 1. unfold GoStrings.Split at 1.
    rewrite Hq.
    unfold lastPart, GoStrings.Split. by rewrite last_split_char_suffix.
Qed.

Lemma TrimRight_snoc_in s c cutset :
  inCutset c cutset = true ->
  TrimRight (s +:+ String c "") cutset = TrimRight s cutset.
Proof.
  intros Hc. induction s as [|x s IH].
  - rewrite string_app_nil_l. simpl. by rewrite Hc.
  - rewrite string_app_cons. cbn [TrimRight]. by rewrite IH.
Qed.

Lemma TrimRight_snoc_out s c cutset :
  inCutset c cutset = false ->
  TrimRight (s +:+ String c "") cutset = s +:+ String c "".
Proof.
  intros Hc. induction s as [|x s IH].
  - rewrite string_app_nil_l. simpl. by rewrite Hc.
  - rewrite string_app_cons. cbn [TrimRight]. rewrite IH.
    by destruct s.
Qed.

(** X10: for a remote that ends with a slash, a name and [.git], the name
    holding neither a slash nor a colon, the repository is called by that
    name, whether the remote was cloned over http or over ssh; so it is when
    git prints the remote with a line feed.  Without a remote the name is
    the last component of the path of the repository. *)
Theorem X10_repo_name_is_the_last_component (RepoPath base name : string) :
  GoStrings.Contains name "/" = false ->
  GoStrings.Contains name ":" = false ->
  GetRepoName RepoPath (base +:+ "/" +:+ name +:+ ".git") = Returned name
  /\ initRepo RepoPath
       (base +:+ "/" +:+ name +:+ ".git" +:+ String lineFeed "")
     = Returned {| RepoName := name; Emails := []; SuggestedEmails := [] |}
  /\ initRepo (base +:+ "/" +:+ name) ""
     = Returned {| RepoName := name; Emails := []; SuggestedEmails := [] |}.
Proof.
  intros Hslash Hcolon. split_and!.
  - by apply GetRepoName_remote.
  - unfold initRepo.
    replace (base +:+ "/" +:+ name +:+ ".git" +:+ String lineFeed "")
      with ((base +:+ "/" +:+ name +:+ ".gi" +:+ "t") +:+ String lineFeed "")
      by by rewrite !string_app_assoc.
    rewrite TrimRight_snoc_in by done.
    replace (base +:+ "/" +:+ name +:+ ".gi" +:+ "t")
      with ((base +:+ "/" +:+ name +:+ ".gi") +:+ "t")
      by by rewrite !string_app_assoc.
    rewrite !TrimRight_snoc_out by done.
    replace ((base +:+ "/" +:+ name +:+ ".gi") +:+ "t")
      with (base +:+ "/" +:+ name +:+ ".git")
      by by rewrite !string_app_assoc.
    by rewrite GetRepoName_remote.
  - unfold initRepo. cbn [TrimRight]. unfold GetRepoName.
    rewrite bool_decide_eq_true_2 by done.
    unfold lastPart, GoStrings.Split. by rewrite last_split_char_suffix.
Qed.

Lemma X10_repo_name_is_the_last_component_witness :
  GetRepoName "/home/ann/work" "git@github.com:Techloopio/extractor_tool.git"
  = Returned "extractor_tool"
  /\ initRepo "/home/ann/work" "" <> Panicked.
Proof.
  destruct (X10_repo_name_is_the_last_component "/home/ann/work"
              "git@github.com:Techloopio" "extractor_tool" eq_refl eq_refl)
    as (H1 & _ & _).
  split; [exact H1 | discriminate].
Defined.

(** X11: [initRepo] drops the line ends at the end of what git printed: a
    line feed or a carriage return appended to the output changes nothing.
    It never fails; the repository it makes has no emails yet and a name
    without a slash. *)
Theorem X11_initRepo_ignores_trailing_line_ends (RepoPath out : string) :
  initRepo RepoPath (out +:+ String lineFeed "") = initRepo RepoPath out
  /\ initRepo RepoPath (out +:+ String carriageReturn "") = initRepo RepoPath out
  /\ exists repoName,
       initRepo RepoPath out
       = Returned {| RepoName := repoName; Emails := []; SuggestedEmails := [] |}
       /\ GoStrings.Contains repoName "/" = false.
Proof.
  split_and!.
  - unfold initRepo. by rewrite TrimRight_snoc_in.
  - unfold initRepo. by rewrite TrimRight_snoc_in.
  - unfold initRepo.
    destruct (GetRepoName_one_component RepoPath
                (TrimRight (TrimRight out (String carriageReturn (String lineFeed "")))
                   (String lineFeed ""))) as (repoName & -> & Hn).
    by exists repoName.
Qed.

(** ** The selection of the user's commits *)

(** In [name -> email] the separator found first is the one written after
    the name, when the name holds no [>]. *)
Lemma split_arrow_piece name rest cur :
  GoStrings.Contains name ">" = false ->
  GoStrings.split_from " -> " 0 cur (name +:+ " -> " +:+ rest)
  = (cur +:+ name) :: GoStrings.split_from " -> " 0 "" rest.
Proof.
  revert cur. induction name as [|c name IH]; intros cur Hn.
  - rewrite string_app_nil_l, string_app_nil_r.
    pose proof (HasPrefix_app " -> " rest) as Hpre.
    rewrite string_app_cons in *.
    cbn [GoStrings.split_from]. rewrite Hpre.
    f_equal; apply (split_from_skip " -> " "-> " rest "").
  - apply Contains_char_cons in Hn as [Hc Hn].
    assert (GoStrings.HasPrefix (String c name +:+ " -> " +:+ rest) " -> " = false)
      as Hpre.
    { destruct name as [|d [|e name]];
        rewrite ?string_app_cons, ?string_app_nil_l;
        cbn [GoStrings.HasPrefix];
        repeat match goal with
               | |- context [Ascii.eqb ?x ?y] =>
                   destruct (Ascii.eqb_spec x y); subst; cbn [andb]
               end; done. }
    rewrite string_app_cons in *. cbn [GoStrings.split_from]. rewrite Hpre.
    rewrite IH by done.
    by rewrite string_app_assoc, string_app_cons, string_app_nil_l.
Qed.

Lemma Split_entry name email :
  GoStrings.Contains name ">" = false ->
  GoStrings.Contains email " -> " = false ->
  GoStrings.Split (name +:+ " -> " +:+ email) " -> " = [name; email].
Proof.
  intros Hn He. unfold GoStrings.Split.
  rewrite split_arrow_piece by done. by rewrite split_from_absent.
Qed.

(** A string in which a non-empty separator occurs has two pieces at least. *)
Lemma split_from_present c0 sep' cur s :
  GoStrings.Contains s (String c0 sep') = true ->
  exists p q rest, GoStrings.split_from (String c0 sep') 0 cur s = p :: q :: rest.
Proof.
  revert cur. induction s as [|c s IH]; intros cur; [done|].
  cbn [GoStrings.Contains GoStrings.split_from].
  destruct (GoStrings.HasPrefix (String c s) (String c0 sep')).
  - intros _.
    pose proof (split_from_nonempty (String c0 sep')
                  (String.length (String c0 sep') - 1) "" s) as Hne.
    destruct (GoStrings.split_from _ _ "" s) as [|q rest]; [done|]. eauto.
  - apply IH.
Qed.

Lemma Split_arrow_second s :
  is_Some (GoStrings.Split s " -> " !! 1%nat) <-> GoStrings.Contains s " -> " = true.
Proof.
  unfold GoStrings.Split. split.
  - intros Hs. destruct (GoStrings.Contains s " -> ") eqn:Hc; [done|].
    rewrite split_from_absent in Hs by done. by destruct Hs.
  - intros Hc. destruct (split_from_present _ _ "" s Hc) as (p & q & rest & ->).
    by eexists.
Qed.

Lemma Split_length_pos s sep : (0 <? length (GoStrings.Split s sep))%nat = true.
Proof.
  pose proof (split_from_nonempty sep 0 "" s) as Hne. unfold GoStrings.Split.
  destruct (GoStrings.split_from sep 0 "" s); [done|]. done.
Qed.

(** The loop of [getEmailsWithoutNames]: [written] is what the slice holds
    before index [i]. *)
Lemma getEmailsWithoutNames_from_spec written emailsMap emails :
  match getEmailsWithoutNames_from (length written) emailsMap
          (written ++ replicate (length emails) "") emails with
  | Returned (emailsArray, emailsMap') =>
      exists seconds,
        emailsArray = written ++ seconds
        /\ Forall2 (fun a s => GoStrings.Split s " -> " !! 1%nat = Some a)
             seconds emails
        /\ (forall k, is_Some (emailsMap' !! k)
                      <-> is_Some (emailsMap !! k) \/ k ∈ seconds)
        /\ (forall k, emailsMap' !! k = Some true
                      <-> emailsMap !! k = Some true \/ k ∈ seconds)
  | Failed _ => False
  | Panicked => Exists (fun s => GoStrings.Contains s " -> " = false) emails
  end.
Proof.
  revert written emailsMap.
  induction emails as [|s emails IH]; intros written emailsMap.
  - simpl. exists []. rewrite !app_nil_r. split_and!; try done.
    + intros k. rewrite elem_of_nil. tauto.
    + intros k. rewrite elem_of_nil. tauto.
  - cbn [getEmailsWithoutNames_from length replicate].
    rewrite Split_length_pos.
    destruct (GoStrings.Split s " -> " !! 1%nat) as [field1|] eqn:Hf.
    + assert (<[length written := field1]> (written ++ "" :: replicate (length emails) "")
              = (written ++ [field1]) ++ replicate (length emails) "") as ->.
      { rewrite insert_app_r_alt by lia. rewrite Nat.sub_diag. simpl.
        by rewrite <- app_assoc. }
      specialize (IH (written ++ [field1]) (<[field1 := true]> emailsMap)).
      rewrite length_app in IH. simpl in IH.
      rewrite Nat.add_1_r in IH.
      destruct (getEmailsWithoutNames_from _ _ _ emails) as [[arr m]| |].
      * destruct IH as (seconds & -> & Hsec & Hdom & Htrue).
        exists (field1 :: seconds). rewrite <- app_assoc. split_and!; try done.
        -- by constructor.
        -- intros k. rewrite Hdom, elem_of_cons.
           destruct (decide (k = field1)) as [->|Hk].
           ++ rewrite lookup_insert_eq. split; [auto | by intros _; left; eexists].
           ++ rewrite lookup_insert_ne by done. tauto.
        -- intros k. rewrite Htrue, elem_of_cons.
           destruct (decide (k = field1)) as [->|Hk].
           ++ rewrite lookup_insert_eq. split; [auto | by intros _; left].
           ++ rewrite lookup_insert_ne by done. tauto.
      * done.
      * by apply Exists_cons_tl.
    + apply Exists_cons_hd.
      destruct (GoStrings.Contains s " -> ") eqn:Hc; [|done].
      apply Split_arrow_second in Hc. rewrite Hf in Hc. by destruct Hc.
Qed.

(** X12: [getEmailsWithoutNames] panics exactly when one of the entries
    does not hold the separator [ -> ]; it never returns an error.  When it
    returns, the slice has one email for every entry, in order, which is
    the second piece of the entry split at the separator, and the keys of
    the map are the emails of the slice. *)
Theorem X12_getEmailsWithoutNames_outcomes (emails : list string) :
  (getEmailsWithoutNames emails = Panicked
   <-> Exists (fun s => GoStrings.Contains s " -> " = false) emails)
  /\ (forall e, getEmailsWithoutNames emails <> Failed e)
  /\ (forall emailsArray emailsMap,
        getEmailsWithoutNames emails = Returned (emailsArray, emailsMap) ->
        Forall2 (fun a s => GoStrings.Split s " -> " !! 1%nat = Some a)
          emailsArray emails
        /\ (forall k, emailsMap !! k = Some true <-> k ∈ emailsArray)
        /\ (forall k, is_Some (emailsMap !! k) <-> k ∈ emailsArray)).
Proof.
  pose proof (getEmailsWithoutNames_from_spec [] ∅ emails) as H.
  simpl in H. fold (getEmailsWithoutNames emails) in H.
  destruct (getEmailsWithoutNames emails) as [[arr m]| |].
  - destruct H as (seconds & -> & Hsec & Hdom & Htrue). split_and!.
    + split; [done|]. intros Hex. exfalso.
      apply Exists_exists in Hex as (s & Hs & Hc).
      apply list_elem_of_lookup in Hs as [i Hi].
      destruct (Forall2_lookup_r _ _ _ _ _ Hsec Hi) as (a & _ & Ha).
      assert (is_Some (GoStrings.Split s " -> " !! 1%nat)) as Hsome by by eexists.
      apply Split_arrow_second in Hsome. congruence.
    + done.
    + intros arr' m' [= <- <-]. split_and!; [done | |].
      * intros k. rewrite Htrue, lookup_empty. split; [by intros [?|?] | auto].
      * intros k. rewrite Hdom, lookup_empty.
        split; [intros [[? ?]|?]; done | auto].
  - done.
  - split_and!; [done | done | done].
Qed.

Lemma getAllEmails_from_spec emails allKeys allEmails list_ commits :
  (forall x, x ∈ allKeys <-> is_Some (emails !! x)) ->
  exists firsts,
    getAllEmails_from emails allEmails commits = allEmails ++ (emailEntry <$> firsts)
    /\ removeDuplicateStrings_from allKeys list_ (Commit.AuthorEmail <$> commits)
       = list_ ++ (Commit.AuthorEmail <$> firsts)
    /\ sublist firsts commits.
Proof.
  revert emails allKeys allEmails list_.
  induction commits as [|v commits IH]; intros emails allKeys allEmails list_ Hkeys.
  - exists []. by rewrite !app_nil_r.
  - cbn [getAllEmails_from fmap list_fmap removeDuplicateStrings_from].
    destruct (emails !! Commit.AuthorEmail v) as [seen|] eqn:Hv.
    + rewrite bool_decide_eq_true_2 by (apply Hkeys; by eexists).
      destruct (IH emails allKeys allEmails list_ Hkeys) as (firsts & H1 & H2 & H3).
      exists firsts. split_and!; [done | done | by apply sublist_cons].
    + rewrite bool_decide_eq_false_2.
      2: { rewrite Hkeys, Hv. by intros [? ?]. }
      destruct (IH (<[Commit.AuthorEmail v := true]> emails)
                  ({[Commit.AuthorEmail v]} ∪ allKeys)
                  (allEmails ++ [emailEntry v])
                  (list_ ++ [Commit.AuthorEmail v])) as (firsts & H1 & H2 & H3).
      { intros x. rewrite elem_of_union, elem_of_singleton, Hkeys.
        destruct (decide (x = Commit.AuthorEmail v)) as [->|Hx].
        - rewrite lookup_insert_eq. split; [by eexists | auto].
        - rewrite lookup_insert_ne by done. tauto. }
      exists (v :: firsts). split_and!.
      * rewrite H1. by rewrite <- app_assoc.
      * rewrite H2. by rewrite <- app_assoc.
      * by apply sublist_skip.
Qed.

Lemma seconds_of_entries seconds (firsts : list Commit.t) :
  Forall (fun c => GoStrings.Contains (Commit.AuthorName c) ">" = false
                   /\ GoStrings.Contains (Commit.AuthorEmail c) " -> " = false)
    firsts ->
  Forall2 (fun a s => GoStrings.Split s " -> " !! 1%nat = Some a)
    seconds (emailEntry <$> firsts) ->
  seconds = Commit.AuthorEmail <$> firsts.
Proof.
  intros Hgood. revert seconds.
  induction Hgood as [|c firsts [Hn He] _ IH]; intros seconds H.
  - by apply Forall2_nil_inv_r in H.
  - rewrite fmap_cons in H.
    apply Forall2_cons_inv_r in H as (a & rest & Ha & Hrest & ->).
    unfold emailEntry in Ha. rewrite Split_entry in Ha by done.
    injection Ha as <-. rewrite fmap_cons. f_equal. by apply IH.
Qed.

Lemma getEmailsWithoutNames_entries (firsts : list Commit.t) :
  Forall (fun c => GoStrings.Contains (Commit.AuthorName c) ">" = false
                   /\ GoStrings.Contains (Commit.AuthorEmail c) " -> " = false)
    firsts ->
  exists emailsMap,
    getEmailsWithoutNames (emailEntry <$> firsts)
    = Returned (Commit.AuthorEmail <$> firsts, emailsMap)
    /\ (forall k, emailsMap !! k = Some true <-> k ∈ Commit.AuthorEmail <$> firsts)
    /\ (forall k, is_Some (emailsMap !! k) <-> k ∈ Commit.AuthorEmail <$> firsts).
Proof.
  intros Hgood.
  pose proof (getEmailsWithoutNames_from_spec [] ∅ (emailEntry <$> firsts)) as H.
  simpl in H. fold (getEmailsWithoutNames (emailEntry <$> firsts)) in H.
  destruct (getEmailsWithoutNames (emailEntry <$> firsts)) as [[arr m]| |].
  - destruct H as (seconds & -> & Hsec & Hdom & Htrue).
    rewrite (seconds_of_entries seconds firsts Hgood Hsec) in *.
    exists m. split_and!; [done | |].
    + intros k. rewrite Htrue, lookup_empty. split; [by intros [?|?] | auto].
    + intros k. rewrite Hdom, lookup_empty.
      split; [intros [[? ?]|?]; done | auto].
  - done.
  - exfalso. apply Exists_exists in H as (s & Hs & Hc).
    apply list_elem_of_fmap in Hs as (c & -> & Hin).
    rewrite Forall_forall in Hgood. destruct (Hgood c Hin) as [Hn He].
    assert (is_Some (GoStrings.Split (emailEntry c) " -> " !! 1%nat)) as Hsome.
    { unfold emailEntry. rewrite Split_entry by done. by eexists. }
    apply Split_arrow_second in Hsome. congruence.
Qed.

(** X13: the entries [getAllEmails] offers are read back by
    [getEmailsWithoutNames]: when no author name holds a [>] and no email
    holds the separator, the emails returned are the author emails of the
    commits, each once, in the order of their first commit, and the keys of
    the map are the author emails of the commits. *)
Theorem X13_offered_entries_are_read_back (commits : list Commit.t) :
  Forall (fun c => GoStrings.Contains (Commit.AuthorName c) ">" = false
                   /\ GoStrings.Contains (Commit.AuthorEmail c) " -> " = false)
    commits ->
  exists emailsMap,
    getEmailsWithoutNames (getAllEmails commits)
    = Returned (removeDuplicateStrings (Commit.AuthorEmail <$> commits), emailsMap)
    /\ (forall k, emailsMap !! k = Some true
                  <-> exists c, c ∈ commits /\ Commit.AuthorEmail c = k).
Proof.
  intros Hgood.
  destruct (getAllEmails_from_spec ∅ ∅ [] [] commits) as (firsts & H1 & H2 & H3).
  { intros x. rewrite elem_of_empty, lookup_empty. split; [done | by intros [? ?]]. }
  simpl in H1, H2. fold (getAllEmails commits) in H1.
  fold (removeDuplicateStrings (Commit.AuthorEmail <$> commits)) in H2.
  assert (Forall (fun c => GoStrings.Contains (Commit.AuthorName c) ">" = false
                           /\ GoStrings.Contains (Commit.AuthorEmail c) " -> " = false)
            firsts) as Hfirsts.
  { rewrite Forall_forall in *. intros c Hc. apply Hgood.
    by apply (elem_of_sublist firsts commits). }
  destruct (getEmailsWithoutNames_entries firsts Hfirsts) as (m & Hm & Htrue & _).
  exists m. rewrite H1, H2. split; [done|].
  intros k. rewrite Htrue, <- H2, elem_of_removeDuplicateStrings, list_elem_of_fmap.
  split; intros (c & ? & ?); exists c; done.
Qed.

Lemma X13_offered_entries_are_read_back_witness :
  exists emailsMap,
    getEmailsWithoutNames (getAllEmails [commitGo; commitPython; commitOneFile])
    = Returned (["ann@x.org"; "bob@x.org"], emailsMap).
Proof.
  destruct (X13_offered_entries_are_read_back [commitGo; commitPython; commitOneFile])
    as (m & Hm & _).
  { repeat constructor. }
  exists m. exact Hm.
Defined.

Lemma foldl_insert_true_lookup (init : gmap string bool) (l : list string) k :
  is_Some (foldl (fun selectedEmails email => <[email := true]> selectedEmails)
             init l !! k)
  <-> is_Some (init !! k) \/ k ∈ l.
Proof.
  revert init. induction l as [|x l IH]; intros init; cbn [foldl].
  - rewrite elem_of_nil. tauto.
  - rewrite IH, elem_of_cons. destruct (decide (k = x)) as [->|Hk].
    + rewrite lookup_insert_eq. split; [auto | by intros _; left; eexists].
    + rewrite lookup_insert_ne by done. tauto.
Qed.

Lemma map_fold_insert_true_lookup (emailsMap : gmap string bool) k :
  is_Some (map_fold (fun mail (_ : bool) selectedEmails => <[mail := true]> selectedEmails)
             (∅ : gmap string bool) emailsMap !! k)
  <-> is_Some (emailsMap !! k).
Proof.
  revert k.
  apply (map_fold_weak_ind
           (fun (r : gmap string bool) (m : gmap string bool) =>
              forall k, is_Some (r !! k) <-> is_Some (m !! k))).
  - intros k. by rewrite !lookup_empty.
  - intros i x m r Hi IH k. destruct (decide (k = i)) as [->|Hk].
    + rewrite !lookup_insert_eq. split; by eexists.
    + rewrite !lookup_insert_ne by done. apply IH.
Qed.

(** X14: [analyseCommits] keeps, in the order of the harvest, exactly the
    commits whose author email was chosen, and appends the chosen emails to
    the emails of the repository.  With [UserEmails] set these are the
    emails chosen; without, they are the emails of the entries picked in
    the selection, when the names of their authors hold no [>] and their
    emails no separator.  When no commit was harvested nothing is changed
    and the error of the harvest, if any, is dropped. *)
Theorem X14_analyseCommits_keeps_the_commits_of_the_chosen_emails
    SelectEmail UserEmails (commits : list Commit.t) err repoEmails before :
  analyseCommits SelectEmail UserEmails ([], err) (repoEmails, before)
  = Returned (repoEmails, before)
  /\ (commits <> [] ->
      (UserEmails <> [] ->
       analyseCommits SelectEmail UserEmails (commits, None) (repoEmails, before)
       = Returned (repoEmails ++ UserEmails,
                   filter (fun v => Commit.AuthorEmail v ∈ UserEmails) commits))
      /\ (UserEmails = [] ->
          forall picked : list Commit.t,
            SelectEmail (getAllEmails commits) = emailEntry <$> picked ->
            Forall (fun c => GoStrings.Contains (Commit.AuthorName c) ">" = false
                             /\ GoStrings.Contains (Commit.AuthorEmail c) " -> " = false)
              picked ->
            analyseCommits SelectEmail UserEmails (commits, None) (repoEmails, before)
            = Returned (repoEmails ++ (Commit.AuthorEmail <$> picked),
                        filter (fun v => Commit.AuthorEmail v
                                         ∈ Commit.AuthorEmail <$> picked) commits))).
Proof.
  split; [done|]. intros Hne.
  assert ((length commits =? 0)%nat = false) as Hlen.
  { destruct commits; [done|]. done. }
  split.
  - intros Hu. unfold analyseCommits. rewrite Hlen.
    assert ((length UserEmails =? 0)%nat = false) as ->.
    { destruct UserEmails; [done|]. done. }
    f_equal. f_equal. apply list_filter_iff. intros v.
    rewrite foldl_insert_true_lookup, lookup_empty.
    split; [intros [[? ?]|?]; done | auto].
  - intros -> picked Hsel Hgood. unfold analyseCommits. rewrite Hlen.
    cbn [length Nat.eqb]. rewrite Hsel.
    destruct (getEmailsWithoutNames_entries picked Hgood) as (m & -> & _ & Hdom).
    f_equal. f_equal. apply list_filter_iff. intros v.
    by rewrite map_fold_insert_true_lookup, Hdom.
Qed.

Lemma X14_analyseCommits_keeps_the_commits_of_the_chosen_emails_witness :
  analyseCommits (fun entries => entries) ["bob@x.org"]
    ([commitGo; commitPython; commitNight], None) ([], [])
  = Returned (["bob@x.org"], [commitPython; commitNight]).
Proof.
  destruct (X14_analyseCommits_keeps_the_commits_of_the_chosen_emails
              (fun entries => entries) ["bob@x.org"]
              [commitGo; commitPython; commitNight] None [] [])
    as (_ & H).
  destruct (H ltac:(discriminate)) as (Hheadless & _).
  rewrite (Hheadless ltac:(discriminate)). f_equal.
Defined.

(** ** The coordinator of the harvest *)

Lemma initialJobs_spec (n : nat) (x lastOffset : Z) :
  0 <= x -> (x + Z.of_nat n) * step <= GoInt.max_int ->
  initialJobs x n lastOffset
  = (pageJob <$> seqZ x (Z.of_nat n),
     if decide (n = 0%nat) then lastOffset else (x + Z.of_nat n - 1) * step).
Proof.
  revert x lastOffset. induction n as [|n IH]; intros x lastOffset Hx Hmax; [done|].
  cbn [initialJobs].
  assert (GoInt.add x 1 = x + 1) as ->.
  { apply int_add_exact. clear IH.
    unfold GoInt.in_range, GoInt.min_int, GoInt.max_int, step in *. lia. }
  assert (int_mul x step = x * step) as Hmul.
  { apply wrap_id. clear IH.
    unfold GoInt.in_range, GoInt.min_int, GoInt.max_int, step in *. lia. }
  assert (int_mul step x = x * step) as ->.
  { unfold int_mul. rewrite Z.mul_comm. apply Hmul. }
  rewrite Hmul, IH by (clear IH; unfold step in *; lia).
  clear IH.
  rewrite (seqZ_cons x (Z.of_nat (S n))) by lia.
  replace (Z.pred (Z.of_nat (S n))) with (Z.of_nat n) by lia.
  replace (Z.succ x) with (x + 1) by lia.
  f_equal. destruct (decide (n = 0%nat)) as [->|Hn].
  - simpl. by rewrite Z.add_simpl_r.
  - rewrite decide_False by done. f_equal. lia.
Qed.

Lemma nextJobs_spec numCPU (events : list coordinatorEvent) (j w : Z) :
  0 <= j -> (j + 1 + Z.of_nat (length events)) * step <= GoInt.max_int ->
  nextJobs numCPU (j * step) w events
  = pageJob <$> seqZ (j + 1) (Z.of_nat (length (batchesReceived numCPU w events))).
Proof.
  revert j w. induction events as [|ev events IH]; intros j w Hj Hmax; [done|].
  cbn [length] in Hmax. destruct ev; cbn [nextJobs batchesReceived].
  - assert (GoInt.add (j * step) step = (j + 1) * step) as ->.
    { clear IH. rewrite int_add_exact; [lia|].
      unfold GoInt.in_range, GoInt.min_int, GoInt.max_int, step in *. lia. }
    rewrite IH by (clear IH; lia). clear IH. cbn [length].
    rewrite (seqZ_cons (j + 1) (Z.of_nat (S _))) by lia.
    rewrite Nat2Z.inj_succ, Z.pred_succ.
    replace (Z.succ (j + 1)) with (j + 1 + 1) by lia. done.
  - destruct (w + 1 =? numCPU); [done|].
    apply IH; clear IH; unfold step in *; lia.
  - done.
Qed.

(** X15: the jobs [getCommits] hands out are the pages 0, 1, 2, ... of the
    log, each of 1000 commits, without a gap and without a repeat: one for
    every processor at the start and one more for every batch received
    before the loop returns.  (The machine has a processor, and the offsets
    stay in the range of [int].) *)
Theorem X15_jobs_are_the_consecutive_pages numCPU (events : list coordinatorEvent) :
  1 <= numCPU ->
  (numCPU + Z.of_nat (length events)) * 1000 <= GoInt.max_int ->
  getCommits_jobs numCPU events
  = pageJob <$> seqZ 0 (numCPU
                        + Z.of_nat (length (batchesReceived numCPU 0 events))).
Proof.
  intros Hcpu Hmax. unfold getCommits_jobs.
  rewrite (initialJobs_spec (Z.to_nat numCPU) 0 0)
    by (unfold step; lia).
  rewrite decide_False by lia.
  rewrite Z2Nat.id by lia.
  replace ((0 + numCPU - 1) * step) with ((numCPU - 1) * step) by lia.
  rewrite nextJobs_spec by (unfold step; lia).
  replace (numCPU - 1 + 1) with (0 + numCPU) by lia.
  rewrite <- fmap_app. f_equal. symmetry. apply seqZ_app; lia.
Qed.

Lemma X15_jobs_are_the_consecutive_pages_witness :
  getCommits_jobs 2 [FromResults [commitGo]; FromNoMore; FromResults [commitPython];
                     FromNoMore; FromResults []]
  = [pageJob 0; pageJob 1; pageJob 2; pageJob 3].
Proof.
  rewrite X15_jobs_are_the_consecutive_pages; [reflexivity | lia |].
  unfold GoInt.max_int. simpl. lia.
Defined.

Lemma getCommits_loop_spec numCPU (events : list coordinatorEvent) commits w :
  0 <= w < numCPU ->
  match getCommits_loop numCPU commits w events with
  | Some (cs, e) =>
      e = None
      /\ cs = commits ++ concat (batchesReceived numCPU w events)
      /\ (CtxDone ∈ events \/ numCPU <= w + countNoMore events)
  | None => (CtxDone ∉ events) /\ w + countNoMore events < numCPU
  end.
Proof.
  revert commits w. induction events as [|ev events IH]; intros commits w Hw.
  - simpl. split; [apply not_elem_of_nil | lia].
  - destruct ev; cbn [getCommits_loop batchesReceived countNoMore concat].
    + specialize (IH (commits ++ res) w Hw).
      destruct (getCommits_loop numCPU (commits ++ res) w events) as [[cs e]|].
      * destruct IH as (-> & -> & Hstop). split_and!; [done | by rewrite app_assoc |].
        destruct Hstop; [left; by right | by right].
      * destruct IH as [Hno Hc]. split; [|done].
        rewrite not_elem_of_cons. done.
    + destruct (Z.eqb_spec (w + 1) numCPU) as [Heq|Hneq].
      * split_and!; [done | by rewrite app_nil_r |].
        right. assert (0 <= countNoMore events); [|lia].
        clear. induction events as [|[] ? ?]; simpl; lia.
      * specialize (IH commits (w + 1) ltac:(lia)).
        destruct (getCommits_loop numCPU commits (w + 1) events) as [[cs e]|].
        -- destruct IH as (-> & -> & Hstop). split_and!; [done | done |].
           destruct Hstop; [left; by right | right; lia].
        -- destruct IH as [Hno Hc]. split; [|lia].
           rewrite not_elem_of_cons. done.
    + split_and!; [done | by rewrite app_nil_r | left; left].
Qed.

(** X16: the select loop of [getCommits] returns exactly when the deadline
    fires or as many exhaustion signals arrive as there are processors;
    otherwise it waits for ever.  What it returns are the batches received
    until then, concatenated in the order of their arrival, and never an
    error. *)
Theorem X16_getCommits_returns_or_waits numCPU (events : list coordinatorEvent) :
  1 <= numCPU ->
  (getCommits_loop numCPU [] 0 events = None
   <-> (CtxDone ∉ events) /\ countNoMore events < numCPU)
  /\ (forall cs e,
        getCommits_loop numCPU [] 0 events = Some (cs, e) ->
        e = None /\ cs = concat (batchesReceived numCPU 0 events)).
Proof.
  intros Hcpu.
  pose proof (getCommits_loop_spec numCPU events [] 0 ltac:(lia)) as H.
  destruct (getCommits_loop numCPU [] 0 events) as [[cs e]|].
  - destruct H as (-> & -> & Hstop). split.
    + split; [done|]. intros [Hno Hc]. destruct Hstop; [done | lia].
    + by intros cs' e' [= <- <-].
  - destruct H as [Hno Hc]. split; [|done].
    split; [intros _; split; [done | lia] | done].
Qed.

Lemma X16_getCommits_returns_or_waits_witness :
  getCommits_loop 2 [] 0 [FromResults [commitGo]; FromNoMore] = None.
Proof.
  apply (proj1 (X16_getCommits_returns_or_waits 2
                  [FromResults [commitGo]; FromNoMore] ltac:(lia))).
  split; [|simpl; lia].
  intros H. apply elem_of_cons in H as [H|H]; [discriminate|].
  apply elem_of_cons in H as [H|H]; [discriminate|]. inversion H.
Defined.

(** ** The harvester *)

(** X17: what a harvest worker sends.  For the pages it takes, in order, it
    sends one batch for every page, the commits read from it, as long as the
    pages hold a commit; at the first page without a commit it sends the
    exhaustion signal and returns; at the first page it cannot read it
    returns the error, or panics, and sends nothing more, no signal either.
    It never sends an empty batch and never a batch after the signal. *)
Theorem X17_commitWorker_sends_batches_then_at_most_one_signal
    (pages : list (list string)) :
  exists batches,
    Forall (fun b => b <> []) batches
    /\ Forall2 (fun b p => parsePage p = Returned b)
         batches (take (length batches) pages)
    /\ ((commitWorker pages = (Results <$> batches, Returned tt)
         /\ length batches = length pages)
        \/ (commitWorker pages = ((Results <$> batches) ++ [NoMore], Returned tt)
            /\ exists p, pages !! length batches = Some p
                         /\ parsePage p = Returned [])
        \/ (exists p e, pages !! length batches = Some p
                        /\ parsePage p = Failed e
                        /\ commitWorker pages = (Results <$> batches, Failed e))
        \/ (exists p, pages !! length batches = Some p
                      /\ parsePage p = Panicked
                      /\ commitWorker pages = (Results <$> batches, Panicked))).
Proof.
  induction pages as [|p pages IH].
  - exists []. split_and!; [done | done |]. by left.
  - cbn [commitWorker]. destruct (parsePage p) as [[|c batch]|e|] eqn:Hp.
    + exists []. split_and!; [done | done |]. right; left. split; [done|].
      by exists p.
    + destruct IH as (batches & Hne & Hall & Hcases).
      exists ((c :: batch) :: batches). split_and!.
      * by constructor.
      * cbn [length take]. by constructor.
      * cbn [length lookup list_lookup fmap list_fmap].
        destruct Hcases as [[-> Hlen]|[[-> Hex]|[(p' & e & ? & ? & ->)|(p' & ? & ? & ->)]]].
        -- left. split; [done|]. by rewrite Hlen.
        -- right; left. done.
        -- right; right; left. by exists p', e.
        -- right; right; right. by exists p'.
    + exists []. split_and!; [done | done |]. right; right; left. by exists p, e.
    + exists []. split_and!; [done | done |]. right; right; right. by exists p.
Qed.









Lemma Replace_first_BEGIN rest :
  GoStrings.Replace ("|||BEGIN|||" +:+ rest) "|||BEGIN|||" "" 1 = rest.
Proof.
  rewrite !string_app_cons, string_app_nil_l.
  unfold GoStrings.Replace. by destruct rest.
Qed.

(** X19: the header line git prints under the format of the harvester is
    read back: when the hash, the name and the email of the author and the
    date hold no vertical bar, the commit has that hash, that name and that
    email, and for date the author date rewritten in the layout of the
    aggregator, or the empty string when the author date is not in git's
    layout.  The header is never a cause of error. *)
Theorem X19_header_line_is_read_back (hash authorName authorEmail authorDate : string) :
  GoStrings.Contains hash "|" = false ->
  GoStrings.Contains authorName "|" = false ->
  GoStrings.Contains authorEmail "|" = false ->
  GoStrings.Contains authorDate "|" = false ->
  parseHeader (headerLine hash authorName authorEmail authorDate)
  = Returned {| Commit.Hash := hash;
                Commit.AuthorName := authorName;
                Commit.AuthorEmail := authorEmail;
                Commit.Date := match GoTime.ParseGit authorDate with
                               | Some t => GoTime.Format t
                               | None => ""
                               end;
                Commit.ChangedFiles := [];
                Commit.Libraries := ∅ |}.
Proof.
  intros Hh Hn He Hd. unfold parseHeader, headerLine.
  rewrite Replace_first_BEGIN. unfold GoStrings.Split.
  rewrite (split_from_piece "|" "||SEP|||" hash) by done.
  rewrite (split_from_piece "|" "||SEP|||" authorName) by done.
  rewrite (split_from_piece "|" "||SEP|||" authorEmail) by done.
  rewrite split_from_absent.
  2: { clear -Hd. induction authorDate as [|c s IH]; [done|].
       apply Contains_char_cons in Hd as [Hc Hs].
       cbn [GoStrings.Contains GoStrings.HasPrefix].
       destruct (Ascii.eqb_spec c "|") as [->|_]; [done|]. cbn [andb].
       by apply IH. }
  rewrite !string_app_nil_l. done.
Qed.

Lemma X19_header_line_is_read_back_witness :
  parseHeader headerAnn = Returned (commitAnn []).
Proof.
  exact (X19_header_line_is_read_back "h1" "Ann" "ann@x.org"
           "Mon Jan 1 10:00:00 2024 +0000" eq_refl eq_refl eq_refl eq_refl).
Defined.


Lemma allSpace_not_header m :
  allSpace m = true -> GoStrings.HasPrefix m "|||BEGIN|||" = false.
Proof.
  destruct m as [|c m]; [done|].
  cbn [allSpace GoStrings.HasPrefix].
  destruct (Ascii.eqb_spec c "|") as [->|_]; [done | done].
Qed.



(** ** The analysis worker *)

Section WorkerFacts.

Variable ShouldUseFile : string -> bool.
Variable DetectLanguageFromFile : string -> string -> string.
Variable DetectLanguageFromExtension : string -> string.
Variable GetAnalyzer : string -> option (string -> list string).
Variable getFileContent : string -> string -> option string.
Variable SkipLibraries : bool.

Let analyseFile' :=
  analyseFile ShouldUseFile DetectLanguageFromFile DetectLanguageFromExtension
    GetAnalyzer getFileContent SkipLibraries.
Let analyseFiles' :=
  analyseFiles ShouldUseFile DetectLanguageFromFile DetectLanguageFromExtension
    GetAnalyzer getFileContent SkipLibraries.
Let analyseCommit' :=
  analyseCommit ShouldUseFile DetectLanguageFromFile DetectLanguageFromExtension
    GetAnalyzer getFileContent SkipLibraries.
Let libraryWorker' :=
  libraryWorker ShouldUseFile DetectLanguageFromFile DetectLanguageFromExtension
    GetAnalyzer getFileContent SkipLibraries.
Let detectedLanguage' :=
  detectedLanguage ShouldUseFile DetectLanguageFromFile DetectLanguageFromExtension
    getFileContent.
Let analysedFile' :=
  analysedFile ShouldUseFile DetectLanguageFromFile DetectLanguageFromExtension
    getFileContent.
Let storeExtracted' :=
  storeExtracted ShouldUseFile DetectLanguageFromFile DetectLanguageFromExtension
    GetAnalyzer getFileContent SkipLibraries.
Let extractedLibraries' :=
  extractedLibraries ShouldUseFile DetectLanguageFromFile DetectLanguageFromExtension
    GetAnalyzer getFileContent SkipLibraries.
Let analysedCommit' :=
  analysedCommit ShouldUseFile DetectLanguageFromFile DetectLanguageFromExtension
    GetAnalyzer getFileContent SkipLibraries.
Let storedFor' :=
  storedFor ShouldUseFile DetectLanguageFromFile DetectLanguageFromExtension
    GetAnalyzer getFileContent SkipLibraries.

(** One iteration writes the language found to the file of its index and
    stores what is extracted. *)
Lemma analyseFile_spec hash (n : nat) fileChange (files : list ChangedFile.t) libraries :
  analyseFile' hash n fileChange files libraries
  = (if bool_decide (detectedLanguage' hash fileChange = "") then files
     else alter (setLanguage (detectedLanguage' hash fileChange)) n files,
     storeExtracted' hash libraries fileChange).
Proof.
  unfold analyseFile', analyseFile, storeExtracted', storeExtracted,
    extractedLibraries, detectedLanguage', detectedLanguage.
  repeat (case_bool_decide || case_match); simplify_eq; try done.
Qed.

Lemma analyseFiles_no_deadline (done : nat -> bool) c remaining pre libraries sent :
  (forall n, done n = false) ->
  analyseFiles' done c (length pre) remaining (pre ++ remaining) libraries sent
  = (pre ++ (analysedFile' (Commit.Hash c) <$> remaining),
     foldl (storeExtracted' (Commit.Hash c)) libraries remaining,
     sent).
Proof.
  intros Hdone. revert pre libraries.
  induction remaining as [|fileChange rest IH]; intros pre libraries; [done|].
  unfold analyseFiles'. cbn [analyseFiles]. rewrite Hdone.
  pose proof (analyseFile_spec (Commit.Hash c) (length pre) fileChange
                (pre ++ fileChange :: rest) libraries) as Hfile.
  unfold analyseFile' in Hfile. rewrite Hfile.
  assert ((if bool_decide (detectedLanguage' (Commit.Hash c) fileChange = "")
           then pre ++ fileChange :: rest
           else alter (setLanguage (detectedLanguage' (Commit.Hash c) fileChange))
                  (length pre) (pre ++ fileChange :: rest))
          = (pre ++ [analysedFile' (Commit.Hash c) fileChange]) ++ rest) as ->.
  { unfold analysedFile', analysedFile. fold detectedLanguage'.
    rewrite <- app_assoc. case_bool_decide; [done|].
    rewrite <- (Nat.add_0_r (length pre)). by rewrite alter_app_r. }
  specialize (IH (pre ++ [analysedFile' (Commit.Hash c) fileChange])
                (storeExtracted' (Commit.Hash c) libraries fileChange)).
  rewrite length_app, Nat.add_1_r in IH. unfold analyseFiles' in IH.
  rewrite IH. cbn [fmap list_fmap foldl]. by rewrite <- app_assoc.
Qed.

Lemma analyseCommit_no_deadline (done : nat -> bool) c :
  (forall n, done n = false) ->
  analyseCommit' done c = [SendCommit (analysedCommit' c); SendResult].
Proof.
  intros Hdone. unfold analyseCommit', analyseCommit.
  pose proof (analyseFiles_no_deadline done c (Commit.ChangedFiles c) [] ∅ [] Hdone)
    as H.
  unfold analyseFiles' in H. simpl in H. rewrite H. done.
Qed.

Lemma libraryWorker_no_deadline (done : nat -> nat -> bool) k commits :
  (forall k n, done k n = false) ->
  libraryWorker_from ShouldUseFile DetectLanguageFromFile DetectLanguageFromExtension
    GetAnalyzer getFileContent SkipLibraries done k commits
  = concat ((fun c => [SendCommit (analysedCommit' c); SendResult]) <$> commits).
Proof.
  intros Hdone. revert k. induction commits as [|c commits IH]; intros k; [done|].
  cbn [libraryWorker_from fmap list_fmap concat].
  pose proof (analyseCommit_no_deadline (done k) c (Hdone k)) as Hc.
  unfold analyseCommit' in Hc. rewrite Hc, IH. done.
Qed.

Lemma storeExtracted_lookup hash libraries fileChange lang :
  default [] (storeExtracted' hash libraries fileChange !! lang)
  = default [] (libraries !! lang) ++ storedFor' hash lang fileChange
  /\ (is_Some (storeExtracted' hash libraries fileChange !! lang)
      <-> is_Some (libraries !! lang)
          \/ exists fileLibraries,
               extractedLibraries' hash fileChange = Some (lang, fileLibraries)).
Proof.
  unfold storeExtracted', storeExtracted, storedFor', storedFor.
  fold extractedLibraries'.
  destruct (extractedLibraries' hash fileChange) as [[lang' items]|].
  - unfold storeFileLibraries. destruct (decide (lang' = lang)) as [->|Hl].
    + rewrite lookup_insert_eq, bool_decide_eq_true_2 by done. split; [done|].
      split; [intros _; right; by eexists | by eexists].
    + rewrite lookup_insert_ne, bool_decide_eq_false_2 by done.
      rewrite app_nil_r. split; [done|].
      split; [by left | intros [?|[? ?]]; [done | congruence]].
  - rewrite app_nil_r. split; [done|].
    split; [by left | intros [?|[? ?]]; done].
Qed.

Lemma foldl_storeExtracted_lookup hash (files : list ChangedFile.t) libraries lang :
  default [] (foldl (storeExtracted' hash) libraries files !! lang)
  = default [] (libraries !! lang) ++ concat (storedFor' hash lang <$> files)
  /\ (is_Some (foldl (storeExtracted' hash) libraries files !! lang)
      <-> is_Some (libraries !! lang)
          \/ exists fileChange fileLibraries,
               fileChange ∈ files
               /\ extractedLibraries' hash fileChange = Some (lang, fileLibraries)).
Proof.
  revert libraries. induction files as [|f files IH]; intros libraries.
  - simpl. rewrite app_nil_r. split; [done|].
    split; [by left | intros [?|(? & ? & H & _)]; [done | inversion H]].
  - cbn [foldl fmap list_fmap concat].
    destruct (IH (storeExtracted' hash libraries f)) as [IH1 IH2].
    destruct (storeExtracted_lookup hash libraries f lang) as [H1 H2].
    split.
    + by rewrite IH1, H1, app_assoc.
    + rewrite IH2, H2. split.
      * intros [[?|(items & ?)]|(f' & items & ? & ?)].
        -- by left.
        -- right. exists f, items. split; [left | done].
        -- right. exists f', items. split; [by right | done].
      * intros [?|(f' & items & Hin & ?)]; [by left; left|].
        apply elem_of_cons in Hin as [->|Hin].
        -- left; right. by exists items.
        -- right. by exists f', items.
Qed.

(** X21: without a deadline a worker sends, for every commit it takes and
    in their order, the commit once and then one completion signal.  The
    commit sent keeps its hash, author and date; each of its files keeps its
    path and counts and has the language found for it, or its own when none
    is found; the libraries of a language are what the analyzer of that
    language extracted from the files found to be of that language, file
    after file, as they are stored; a language has a list exactly when
    something was extracted for one of the files. *)
Theorem X21_worker_without_deadline (done : nat -> nat -> bool) (commits : list Commit.t) :
  (forall k n, done k n = false) ->
  libraryWorker' done commits
  = concat ((fun c => [SendCommit (analysedCommit' c); SendResult]) <$> commits)
  /\ sentCommits (libraryWorker' done commits) = analysedCommit' <$> commits
  /\ sentResults (libraryWorker' done commits) = length commits
  /\ forall c,
       Commit.ChangedFiles (analysedCommit' c)
       = analysedFile' (Commit.Hash c) <$> Commit.ChangedFiles c
       /\ fileCounts <$> Commit.ChangedFiles (analysedCommit' c)
          = fileCounts <$> Commit.ChangedFiles c
       /\ forall lang,
            default [] (Commit.Libraries (analysedCommit' c) !! lang)
            = concat (storedFor' (Commit.Hash c) lang <$> Commit.ChangedFiles c)
            /\ (is_Some (Commit.Libraries (analysedCommit' c) !! lang)
                <-> exists fileChange fileLibraries,
                      fileChange ∈ Commit.ChangedFiles c
                      /\ extractedLibraries' (Commit.Hash c) fileChange
                         = Some (lang, fileLibraries)).
Proof.
  intros Hdone.
  pose proof (libraryWorker_no_deadline done 0 commits Hdone) as Hw.
  fold (libraryWorker ShouldUseFile DetectLanguageFromFile DetectLanguageFromExtension
          GetAnalyzer getFileContent SkipLibraries done commits) in Hw.
  fold libraryWorker' in Hw.
  split_and!.
  - done.
  - rewrite Hw. clear. induction commits as [|c commits IH]; [done|].
    cbn [fmap list_fmap concat]. rewrite sentCommits_app, IH. done.
  - rewrite Hw. clear. induction commits as [|c commits IH]; [done|].
    cbn [fmap list_fmap concat]. rewrite sentResults_app, IH. done.
  - intros c. split_and!.
    + done.
    + cbn [analysedCommit' analysedCommit withLibraries Commit.ChangedFiles].
      rewrite <- list_fmap_compose. apply list_fmap_ext. intros i f _.
      unfold analysedFile. simpl. by case_bool_decide.
    + intros lang.
      destruct (foldl_storeExtracted_lookup (Commit.Hash c) (Commit.ChangedFiles c)
                  ∅ lang) as [H1 H2].
      rewrite lookup_empty in H1, H2. simpl in H1. split; [exact H1|].
      etrans; [exact H2|]. split; [intros [[? ?]|?]; done | auto].
Qed.

Let sentFor' :=
  sentFor ShouldUseFile DetectLanguageFromFile DetectLanguageFromExtension
    GetAnalyzer getFileContent SkipLibraries.

Let workerInv' :=
  workerInv ShouldUseFile DetectLanguageFromFile DetectLanguageFromExtension
    GetAnalyzer getFileContent SkipLibraries.

Lemma workerInv_sentFor c n files libraries :
  workerInv' c n files libraries ->
  sentFor' c (withLibraries c files libraries).
Proof.
  intros (Hlen & Hfiles & _ & Hlibs). split_and!.
  - done.
  - cbn [withLibraries Commit.ChangedFiles].
    apply Forall2_same_length_lookup. split; [done|].
    intros i f' f Hf' Hf. destruct (Hfiles i f' Hf') as (f0 & Hf0 & Hor).
    by simplify_eq.
  - cbn [withLibraries Commit.ChangedFiles Commit.Libraries]. intros lang Hl.
    destruct (Hlibs lang Hl) as (? & ? & ? & i & f' & _ & Hi & ?).
    split_and!; try done. exists f'. split; [|done].
    by apply list_elem_of_lookup_2 in Hi.
Qed.

Lemma workerInv_step c (n : nat) fileChange files libraries :
  Commit.ChangedFiles c !! n = Some fileChange ->
  workerInv' c n files libraries ->
  workerInv' c (S n)
    (analyseFile' (Commit.Hash c) n fileChange files libraries).1
    (analyseFile' (Commit.Hash c) n fileChange files libraries).2.
Proof.
  intros Hn (Hlen & Hfiles & Hrest & Hlibs).
  rewrite analyseFile_spec. cbn [fst snd].
  set (lang := detectedLanguage' (Commit.Hash c) fileChange).
  assert (files !! n = Some fileChange) as Hfn by (rewrite Hrest; [done | lia]).
  assert (forall lang', is_Some (storeExtracted' (Commit.Hash c) libraries fileChange !! lang') ->
            is_Some (libraries !! lang')
            \/ (lang' = lang /\ lang <> "" /\ SkipLibraries = false
                /\ is_Some (GetAnalyzer lang))) as Hstore.
  { intros lang' Hs.
    apply (storeExtracted_lookup (Commit.Hash c) libraries fileChange lang') in Hs
      as [?|(items & Hex)]; [by left | right].
    unfold extractedLibraries', extractedLibraries in Hex.
    fold detectedLanguage' in Hex. fold lang in Hex.
    case_bool_decide; [done|]. destruct SkipLibraries; [done|].
    destruct (GetAnalyzer lang) eqn:Ha; [|done].
    destruct (getFileContent _ _); [|done].
    injection Hex as <- _. split_and!; try done; by eexists. }
  case_bool_decide as Hlang.
  - split_and!; try done.
    + intros i Hi. apply Hrest. lia.
    + intros lang' Hs. destruct (Hstore lang' Hs) as [Hold|(_ & ? & _)]; [|done].
      destruct (Hlibs lang' Hold) as (? & ? & ? & i & f' & ? & ? & ?).
      split_and!; try done. exists i, f'. split_and!; [lia | done | done].
  - split_and!.
    + by rewrite length_alter.
    + intros i f' Hi. destruct (decide (i = n)) as [->|Hne].
      * rewrite list_lookup_alter_eq, Hfn in Hi. simpl in Hi. injection Hi as <-.
        exists fileChange. split; [done|]. right.
        unfold analysedFile', analysedFile. fold detectedLanguage'. fold lang.
        by rewrite bool_decide_eq_false_2.
      * rewrite list_lookup_alter_ne in Hi by done. by apply Hfiles.
    + intros i Hi. rewrite list_lookup_alter_ne by lia. apply Hrest. lia.
    + intros lang' Hs. destruct (Hstore lang' Hs) as [Hold|(-> & ? & ? & ?)].
      * destruct (Hlibs lang' Hold) as (? & ? & ? & i & f' & ? & ? & ?).
        split_and!; try done. exists i, f'. split_and!; [lia | | done].
        rewrite list_lookup_alter_ne by lia. done.
      * split_and!; try done. exists n, (setLanguage lang fileChange).
        split_and!; [lia | | done].
        rewrite list_lookup_alter_eq, Hfn. done.
Qed.

Lemma sentCommits_sends sent c : sentCommits (sent ++ sendsOf c) = sentCommits sent ++ [c].
Proof. by rewrite sentCommits_app. Qed.

Lemma analyseFiles_inv (done : nat -> bool) c remaining (n : nat) files libraries sent :
  drop n (Commit.ChangedFiles c) = remaining ->
  workerInv' c n files libraries ->
  sent = concat (sendsOf <$> sentCommits sent) ->
  Forall (sentFor' c) (sentCommits sent) ->
  let '(files', libraries', sent') :=
    analyseFiles' done c n remaining files libraries sent in
  (exists n', workerInv' c n' files' libraries')
  /\ sent' = concat (sendsOf <$> sentCommits sent')
  /\ Forall (sentFor' c) (sentCommits sent').
Proof.
  revert n files libraries sent.
  induction remaining as [|fileChange rest IH]; intros n files libraries sent Hdrop Hinv Hp Hs.
  - simpl. split_and!; [by exists n | done | done].
  - unfold analyseFiles'. cbn [analyseFiles].
    assert (Commit.ChangedFiles c !! n = Some fileChange) as Hn.
    { pose proof (lookup_drop (Commit.ChangedFiles c) n 0) as Hl.
      rewrite Hdrop, Nat.add_0_r in Hl. by rewrite <- Hl. }
    assert (drop (S n) (Commit.ChangedFiles c) = rest) as Hdrop'.
    { rewrite (drop_S _ _ _ Hn) in Hdrop. by injection Hdrop. }
    destruct (done n).
    + assert (workerInv' c (S n) files libraries) as Hinv'.
      { destruct Hinv as (? & ? & Hrest & Hlibs). split_and!; try done.
        - intros i Hi. apply Hrest. lia.
        - intros lang Hl. destruct (Hlibs lang Hl) as (? & ? & ? & i & f' & ? & ? & ?).
          split_and!; try done. exists i, f'. split_and!; [lia | done | done]. }
      apply (IH (S n) files libraries
               (sent ++ sendsOf (withLibraries c files libraries))); try done.
      * rewrite sentCommits_sends, fmap_app, concat_app, <- Hp. simpl.
        by rewrite ?app_nil_r.
      * rewrite sentCommits_sends. apply Forall_app. split; [done|].
        constructor; [|constructor]. by apply (workerInv_sentFor c n).
    + pose proof (workerInv_step c n fileChange files libraries Hn Hinv) as Hstep.
      unfold analyseFile' in Hstep.
      destruct (analyseFile _ _ _ _ _ _ _ _ _ _ _) as [files1 libraries1].
      by apply (IH (S n) files1 libraries1 sent).
Qed.

Lemma analyseCommit_inv (done : nat -> bool) c :
  exists group,
    analyseCommit' done c = concat (sendsOf <$> group)
    /\ sentCommits (analyseCommit' done c) = group
    /\ group <> []
    /\ Forall (sentFor' c) group.
Proof.
  unfold analyseCommit', analyseCommit.
  pose proof (analyseFiles_inv done c (Commit.ChangedFiles c) 0
                (Commit.ChangedFiles c) ∅ [] eq_refl) as H.
  unfold analyseFiles' in H.
  destruct (analyseFiles _ _ _ _ _ _ _ _ _ _ _ _ _) as [[files libraries] sent].
  destruct H as ((n' & Hinv) & Hp & Hs); try done.
  { split_and!; try done.
    - intros i f' Hi. exists f'. by split; [|left].
    - intros lang [? Hl]. by rewrite lookup_empty in Hl. }
  exists (sentCommits sent ++ [withLibraries c files libraries]).
  fold (sendsOf (withLibraries c files libraries)).
  rewrite sentCommits_sends. split_and!.
  - rewrite fmap_app, concat_app, <- Hp. simpl. by rewrite ?app_nil_r.
  - done.
  - by destruct (sentCommits sent).
  - apply Forall_app. split; [done|]. constructor; [|constructor].
    by apply (workerInv_sentFor c n').
Qed.

(** X22: whatever the deadline does, every commit a worker sends is
    followed at once by one completion signal, and the commits sent are, for
    each commit taken and in their order, one reading of it or more: each
    with the hash, the author and the date of that commit, with its files in
    their places, every one as harvested or with the language found for it,
    and with libraries only under languages that are not empty, have an
    analyzer and are the language of one of the files of the reading. *)
Theorem X22_worker_sends_readings_of_its_commits
    (done : nat -> nat -> bool) (commits : list Commit.t) :
  exists groups,
    libraryWorker' done commits = concat (sendsOf <$> concat groups)
    /\ sentCommits (libraryWorker' done commits) = concat groups
    /\ sentResults (libraryWorker' done commits) = length (concat groups)
    /\ Forall2 (fun group c => group <> [] /\ Forall (sentFor' c) group)
         groups commits.
Proof.
  unfold libraryWorker', libraryWorker. generalize 0%nat.
  induction commits as [|c commits IH]; intros k.
  - exists []. by split_and!.
  - cbn [libraryWorker_from].
    destruct (analyseCommit_inv (done k) c) as (group & Hg1 & Hg2 & Hg3 & Hg4).
    unfold analyseCommit' in Hg1, Hg2.
    destruct (IH (S k)) as (groups & H1 & H2 & H3 & H4).
    exists (group :: groups).
    assert (forall l : list Commit.t,
              sentResults (concat (sendsOf <$> l)) = length l) as Hres.
    { clear. induction l as [|c l IH]; [done|].
      cbn [fmap list_fmap concat]. rewrite sentResults_app, IH. done. }
    split_and!.
    + rewrite Hg1, H1. cbn [concat]. by rewrite fmap_app, concat_app.
    + rewrite sentCommits_app, Hg2, H2. done.
    + rewrite sentResults_app, Hg1, Hres, H3. cbn [concat].
      by rewrite length_app.
    + by constructor.
Qed.

(** X23: with [SkipLibraries] set no commit a worker sends has a library,
    whatever the deadline does. *)
Theorem X23_no_library_when_libraries_are_skipped
    (done : nat -> nat -> bool) (commits : list Commit.t) :
  SkipLibraries = true ->
  Forall (fun c' => Commit.Libraries c' = ∅)
    (sentCommits (libraryWorker' done commits)).
Proof.
  intros Hskip. unfold libraryWorker', libraryWorker. generalize 0%nat.
  induction commits as [|c commits IH]; intros k; [constructor|].
  cbn [libraryWorker_from]. rewrite sentCommits_app. apply Forall_app.
  split; [|apply IH].
  destruct (analyseCommit_inv (done k) c) as (group & _ & Hg2 & _ & Hg4).
  unfold analyseCommit' in Hg2. rewrite Hg2.
  eapply Forall_impl; [exact Hg4|]. intros c' (_ & _ & Hlibs).
  apply map_empty. intros lang.
  destruct (Commit.Libraries c' !! lang) eqn:Hl; [|done].
  destruct (Hlibs lang ltac:(by eexists)) as (_ & Hno & _). congruence.
Qed.

End WorkerFacts.

Lemma X21_worker_without_deadline_witness :
  sentResults
    (libraryWorker (fun _ => false) (fun _ _ => "")
       (fun extension => if bool_decide (extension = "go") then "Go" else "")
       (fun _ => None) (fun _ _ => None) false (fun _ _ => false)
       [commitOneFile; commitNight])
  = 2%nat.
Proof.
  exact (proj1 (proj2 (proj2
    (X21_worker_without_deadline (fun _ => false) (fun _ _ => "")
       (fun extension => if bool_decide (extension = "go") then "Go" else "")
       (fun _ => None) (fun _ _ => None) false (fun _ _ => false)
       [commitOneFile; commitNight] (fun _ _ => eq_refl))))).
Defined.

Lemma X23_no_library_when_libraries_are_skipped_witness :
  Forall (fun c' => Commit.Libraries c' = ∅)
    (sentCommits
       (libraryWorker (fun _ => false) (fun _ _ => "")
          (fun extension => if bool_decide (extension = "go") then "Go" else "")
          (fun _ => Some (fun _ => ["fmt"])) (fun _ _ => Some "") true
          (fun _ n => bool_decide (n = 0%nat))
          [commitOneFile; commitGo])).
Proof.
  exact (X23_no_library_when_libraries_are_skipped
           (fun _ => false) (fun _ _ => "")
           (fun extension => if bool_decide (extension = "go") then "Go" else "")
           (fun _ => Some (fun _ => ["fmt"])) (fun _ _ => Some "") true
           (fun _ n => bool_decide (n = 0%nat))
           [commitOneFile; commitGo] eq_refl).
Defined.

(** ** From the harvest to the buckets *)

Section Pipeline.

Variable ShouldUseFile : string -> bool.
Variable DetectLanguageFromFile : string -> string -> string.
Variable DetectLanguageFromExtension : string -> string.
Variable GetAnalyzer : string -> option (string -> list string).
Variable getFileContent : string -> string -> option string.
Variable SkipLibraries : bool.
Variable SelectEmail : list string -> list string.
Variable UserEmails : list string.
Variable Obfuscate : OptimizedCommitForExport.t -> OptimizedCommitForExport.t.

Let analysedCommit' :=
  analysedCommit ShouldUseFile DetectLanguageFromFile DetectLanguageFromExtension
    GetAnalyzer getFileContent SkipLibraries.
Let analysedFile' :=
  analysedFile ShouldUseFile DetectLanguageFromFile DetectLanguageFromExtension
    getFileContent.

Lemma commitsOfDay_analysed key (l : list Commit.t) :
  commitsOfDay key (analysedCommit' <$> l) = analysedCommit' <$> commitsOfDay key l.
Proof.
  unfold commitsOfDay. induction l as [|c l IH]; [done|].
  rewrite fmap_cons. destruct (decide (dayKey c = key)) as [Hk|Hk].
  - rewrite !filter_cons_True by done. by rewrite fmap_cons, IH.
  - rewrite !filter_cons_False by done. done.
Qed.

Lemma analysedCommit_fileCounts c :
  fileCounts <$> Commit.ChangedFiles (analysedCommit' c)
  = fileCounts <$> Commit.ChangedFiles c.
Proof.
  cbn [analysedCommit' analysedCommit withLibraries Commit.ChangedFiles].
  rewrite <- list_fmap_compose. apply list_fmap_ext. intros i f _.
  unfold analysedFile. simpl. by case_bool_decide.
Qed.

Lemma totalOver_analysed (l : list Commit.t) :
  totalOver ChangedFile.Insertions (analysedCommit' <$> l)
  = totalOver ChangedFile.Insertions l
  /\ totalOver ChangedFile.Deletions (analysedCommit' <$> l)
     = totalOver ChangedFile.Deletions l.
Proof.
  induction l as [|c l [IHi IHd]]; [done|].
  rewrite fmap_cons. cbn [totalOver foldr].
  fold (totalOver ChangedFile.Insertions (analysedCommit' <$> l)).
  fold (totalOver ChangedFile.Deletions (analysedCommit' <$> l)).
  fold (totalOver ChangedFile.Insertions l).
  fold (totalOver ChangedFile.Deletions l).
  destruct (totalOf_fileCounts _ _ (analysedCommit_fileCounts c)) as [-> ->].
  by rewrite IHi, IHd.
Qed.

Lemma analyseCommits_headless (commits : list Commit.t) repoEmails before :
  commits <> [] -> UserEmails <> [] ->
  analyseCommits SelectEmail UserEmails (commits, None) (repoEmails, before)
  = Returned (repoEmails ++ UserEmails,
              filter (fun v => Commit.AuthorEmail v ∈ UserEmails) commits).
Proof.
  intros Hne Hu. unfold analyseCommits.
  assert ((length commits =? 0)%nat = false) as -> by by destruct commits.
  assert ((length UserEmails =? 0)%nat = false) as -> by by destruct UserEmails.
  f_equal. f_equal. apply list_filter_iff. intros v.
  rewrite foldl_insert_true_lookup, lookup_empty.
  split; [intros [[? ?]|?]; done | auto].
Qed.

Lemma filter_day_chosen key (commits : list Commit.t) :
  filter (fun c => dayKey c = key /\ Commit.AuthorEmail c ∈ UserEmails) commits
  = commitsOfDay key (filter (fun v => Commit.AuthorEmail v ∈ UserEmails) commits).
Proof.
  unfold commitsOfDay. induction commits as [|c l IH]; [done|].
  destruct (decide (Commit.AuthorEmail c ∈ UserEmails)) as [He|He].
  - rewrite (filter_cons_True (fun v => Commit.AuthorEmail v ∈ UserEmails)) by done.
    destruct (decide (dayKey c = key)) as [Hk|Hk].
    + rewrite !filter_cons_True by done. by rewrite IH.
    + rewrite !filter_cons_False by tauto. done.
  - rewrite (filter_cons_False (fun v => Commit.AuthorEmail v ∈ UserEmails)) by done.
    rewrite filter_cons_False by tauto. done.
Qed.

(** X24: from the harvest to the buckets, with [UserEmails] set, no
    deadline and no obfuscation.  The commits [analyseCommits] keeps are
    analysed by the workers, each once, and reach the aggregator in any
    order.  Then every bucket stands for a day on which a chosen author has
    a commit; its count is the number of the harvested commits of that day
    by the chosen authors, its insertions and deletions are the sums the
    harvester read for them, its author emails are those of these commits
    and all are chosen emails, and its languages are languages found for
    files of these commits. *)
Theorem X24_buckets_of_the_chosen_authors
    (commits userCommits received : list Commit.t) repoEmails before emails b :
  commits <> [] -> UserEmails <> [] ->
  analyseCommits SelectEmail UserEmails (commits, None) (repoEmails, before)
  = Returned (emails, userCommits) ->
  received ≡ₚ analysedCommit' <$> userCommits ->
  b ∈ exportLoop false Obfuscate received ->
  let day :=
    filter (fun c => dayKey c = OptimizedCommitForExport.Date b
                     /\ Commit.AuthorEmail c ∈ UserEmails) commits in
  day <> []
  /\ OptimizedCommitForExport.Commits b = GoInt.wrap (Z.of_nat (length day))
  /\ OptimizedCommitForExport.Insertions b
     = GoInt.wrap (totalOver ChangedFile.Insertions day)
  /\ OptimizedCommitForExport.Deletions b
     = GoInt.wrap (totalOver ChangedFile.Deletions day)
  /\ (forall x, x ∈ OptimizedCommitForExport.AuthorEmails b
                <-> exists c, c ∈ day /\ Commit.AuthorEmail c = x)
  /\ Forall (fun x => x ∈ UserEmails) (OptimizedCommitForExport.AuthorEmails b)
  /\ Forall (fun lang =>
               lang <> ""
               /\ exists c f, c ∈ day /\ f ∈ Commit.ChangedFiles c
                  /\ ChangedFile.Language (analysedFile' (Commit.Hash c) f) = lang)
       (OptimizedCommitForExport.Languages b).
Proof.
  intros Hne Hu Han Hperm Hb day.
  rewrite analyseCommits_headless in Han by done.
  injection Han as _ <-.
  set (key := OptimizedCommitForExport.Date b) in *.
  set (chosen := filter (fun v => Commit.AuthorEmail v ∈ UserEmails) commits) in *.
  assert (day = commitsOfDay key chosen) as Hday by apply filter_day_chosen.
  destruct (exportLoop_bucket_of_its_day false Obfuscate received b
              ltac:(discriminate) Hb) as [Hrne He].
  fold key in Hrne, He.
  assert (commitsOfDay key received ≡ₚ analysedCommit' <$> day) as Hdayperm.
  { rewrite Hday, <- commitsOfDay_analysed. unfold commitsOfDay. by rewrite Hperm. }
  assert (Forall (fun c => dayKey c = key) (commitsOfDay key received)) as Hall.
  { apply Forall_forall. intros c Hc. by apply list_elem_of_filter in Hc as [? _]. }
  destruct (one_day_bucket_summary Obfuscate key _ Hrne Hall)
    as (b' & He' & _ & Hi & Hd & Hc & _ & Hem & _).
  rewrite He in He'. injection He' as <-.
  destruct (totalOver_analysed day) as [Hti Htd].
  assert (forall x, x ∈ OptimizedCommitForExport.AuthorEmails b
                    <-> exists c, c ∈ day /\ Commit.AuthorEmail c = x) as Hemails.
  { intros x. rewrite Hem. split.
    - intros (c' & Hc' & <-). rewrite Hdayperm in Hc'.
      apply list_elem_of_fmap in Hc' as (c & -> & Hin). by exists c.
    - intros (c & Hin & <-). exists (analysedCommit' c). split; [|done].
      rewrite Hdayperm. by apply list_elem_of_fmap_2. }
  split_and!.
  - intros Hnil. rewrite Hnil in Hdayperm.
    apply Permutation_nil_r in Hdayperm. done.
  - rewrite Hc, (Permutation_length Hdayperm), length_fmap. done.
  - by rewrite Hi, (totalOver_perm _ _ _ Hdayperm), Hti.
  - by rewrite Hd, (totalOver_perm _ _ _ Hdayperm), Htd.
  - done.
  - apply Forall_forall. intros x Hx. apply Hemails in Hx as (c & Hin & <-).
    unfold day in Hin. apply list_elem_of_filter in Hin as [[_ ?] _]. done.
  - destruct (commitsOfDay key received) as [|c1 rest] eqn:Hr; [done|].
    destruct (exportLoop_one_day false Obfuscate key c1 rest
                ltac:(discriminate) Hall) as [He1 _].
    rewrite He in He1. injection He1 as Hbeq.
    rewrite Hbeq at 1.
    rewrite foldl_mergeCommit_Languages. cbn [newBucket OptimizedCommitForExport.Languages].
    assert (c1 ∈ analysedCommit' <$> day) as Hc1 by (rewrite <- Hdayperm; left).
    apply list_elem_of_fmap in Hc1 as (c & -> & Hin).
    apply Forall_forall. intros lang Hl.
    rewrite commitLanguagesOf_unionInto, elem_of_unionInto in Hl.
    destruct Hl as [Hl|Hl]; [inversion Hl|].
    apply list_elem_of_filter in Hl as [Hlang Hl].
    apply list_elem_of_fmap in Hl as (f' & -> & Hf').
    cbn [analysedCommit' analysedCommit withLibraries Commit.ChangedFiles] in Hf'.
    apply list_elem_of_fmap in Hf' as (f & -> & Hf).
    split; [done|]. by exists c, f.
Qed.

End Pipeline.

Lemma X24_buckets_of_the_chosen_authors_witness :
  let analysed :=
    analysedCommit (fun _ => false) (fun _ _ => "") (fun _ => "") (fun _ => None)
      (fun _ _ => None) true in
  exists b,
    b ∈ exportLoop false id [analysed commitNight; analysed commitPython]
    /\ OptimizedCommitForExport.Commits b = 1
    /\ OptimizedCommitForExport.AuthorEmails b = ["bob@x.org"].
Proof.
  intros analysed.
  set (received := [analysed commitNight; analysed commitPython]).
  set (b := hd (newBucket false id commitGo "" [] 0 0) (exportLoop false id received)).
  assert (b ∈ exportLoop false id received) as Hb by (vm_compute; left).
  exists b. split; [exact Hb|].
  destruct (X24_buckets_of_the_chosen_authors
              (fun _ => false) (fun _ _ => "") (fun _ => "") (fun _ => None)
              (fun _ _ => None) true (fun entries => entries) ["bob@x.org"] id
              [commitGo; commitPython; commitNight] [commitPython; commitNight]
              received [] [] ["bob@x.org"] b
              ltac:(discriminate) ltac:(discriminate) eq_refl
              (perm_swap (analysed commitPython) (analysed commitNight) []) Hb)
    as (_ & Hc & _).
  split; [rewrite Hc; by vm_compute | by vm_compute].
Defined.

(** ** The date from the harvester to the aggregator *)

Lemma digits_from_zeros k s :
  GoStrings.digits_from 0 (GoTime.zeros k +:+ s) = GoStrings.digits_from 0 s.
Proof.
  induction k as [|k IH]; [done|].
  cbn [GoTime.zeros]. rewrite string_app_cons. exact IH.
Qed.

Lemma digits_from_of_uint_acc d acc :
  GoStrings.digits_from (Z.pos acc) (DecimalString.NilEmpty.string_of_uint d)
  = Some (Z.pos (Pos.of_uint_acc d acc)).
Proof.
  revert acc. induction d; intros acc; [done|..];
    cbn [DecimalString.NilEmpty.string_of_uint GoStrings.digits_from Pos.of_uint_acc];
    rewrite <- IHd;
    match goal with
    | |- (if ?b then _ else _) = _ => change b with true; cbv iota
    end;
    f_equal;
    match goal with
    | |- context [GoStrings.digitVal ?c] =>
        let v := eval vm_compute in (GoStrings.digitVal c) in
        change (GoStrings.digitVal c) with v
    end; lia.
Qed.

Lemma digits_from_of_uint d :
  GoStrings.digits_from 0 (DecimalString.NilEmpty.string_of_uint d)
  = Some (Z.of_N (Pos.of_uint d)).
Proof.
  induction d; [done|..];
    cbn [DecimalString.NilEmpty.string_of_uint GoStrings.digits_from Pos.of_uint];
    first [exact IHd | apply digits_from_of_uint_acc].
Qed.

Lemma isDigit_uint_of_char c l :
  GoStrings.isDigit c = true ->
  is_Some (DecimalString.uint_of_char c (Some l)).
Proof.
  destruct c as [[] [] [] [] [] [] [] []]; try discriminate; intros _; by eexists.
Qed.

Lemma digits_string_uint acc s v :
  GoStrings.digits_from acc s = Some v ->
  exists d, DecimalString.NilEmpty.string_of_uint d = s.
Proof.
  revert acc. induction s as [|c s IH]; intros acc; [by exists Decimal.Nil|].
  cbn [GoStrings.digits_from].
  destruct (GoStrings.isDigit c) eqn:Hc; [|done]. intros Hs.
  destruct (IH _ Hs) as (d & Hd).
  destruct (isDigit_uint_of_char c d Hc) as (d' & Hd').
  exists d'. apply DecimalString.NilEmpty.sus. simpl.
  pose proof (DecimalString.NilEmpty.usu d) as Hu. rewrite Hd in Hu.
  by rewrite Hu.
Qed.

Lemma length_string_of_uint d :
  String.length (DecimalString.NilEmpty.string_of_uint d) = Decimal.nb_digits d.
Proof. induction d; simpl; congruence. Qed.

Lemma zeros_snoc k : GoTime.zeros k +:+ "0" = GoTime.zeros (S k).
Proof.
  induction k as [|k IH]; [done|].
  cbn [GoTime.zeros] in *. by rewrite string_app_cons, IH.
Qed.

Lemma zeros_nzhead d :
  GoTime.zeros (Decimal.nb_digits d - Decimal.nb_digits (Decimal.nzhead d))
  +:+ DecimalString.NilEmpty.string_of_uint (Decimal.nzhead d)
  = DecimalString.NilEmpty.string_of_uint d.
Proof.
  induction d; try (simpl; by rewrite ?Nat.sub_diag).
  pose proof (DecimalFacts.nb_digits_nzhead d) as Hle.
  cbn [Decimal.nzhead Decimal.nb_digits DecimalString.NilEmpty.string_of_uint].
  replace (S (Decimal.nb_digits d) - Decimal.nb_digits (Decimal.nzhead d))%nat
    with (S (Decimal.nb_digits d - Decimal.nb_digits (Decimal.nzhead d)))
    by lia.
  cbn [GoTime.zeros]. by rewrite string_app_cons, IHd.
Qed.

Lemma zeros_unorm d :
  d <> Decimal.Nil ->
  GoTime.zeros (Decimal.nb_digits d
                - String.length (DecimalString.NilZero.string_of_uint (Decimal.unorm d)))
  +:+ DecimalString.NilZero.string_of_uint (Decimal.unorm d)
  = DecimalString.NilEmpty.string_of_uint d.
Proof.
  intros Hd. pose proof (zeros_nzhead d) as Hz. unfold Decimal.unorm.
  destruct (Decimal.nzhead d) eqn:Hn;
    try (cbn [DecimalString.NilZero.string_of_uint];
         rewrite length_string_of_uint; exact Hz).
  simpl in Hz. rewrite Nat.sub_0_r, string_app_nil_r in Hz.
  cbn [DecimalString.NilZero.string_of_uint
         DecimalString.NilEmpty.string_of_uint String.length].
  rewrite <- Hz.
  destruct (Decimal.nb_digits d) as [|n] eqn:Hnb.
  - by apply DecimalFacts.nb_digits_0 in Hnb.
  - simpl Nat.sub. rewrite Nat.sub_0_r. apply zeros_snoc.
Qed.

(** A string of digits is printed back by [appendInt] at its own width. *)
Lemma appendInt_digits p y :
  p <> "" ->
  GoStrings.digits_from 0 p = Some y ->
  0 <= y /\ GoTime.appendInt y (String.length p) = p.
Proof.
  intros Hp Hy. destruct (digits_string_uint 0 p y Hy) as (d & Hd).
  pose proof (digits_from_of_uint d) as Hv. rewrite Hd, Hy in Hv.
  injection Hv as ->. split; [lia|].
  unfold GoTime.appendInt, GoTime.decimal.
  assert ((Z.of_N (Pos.of_uint d) <? 0) = false) as -> by (apply Z.ltb_ge; lia).
  rewrite Z.abs_eq by lia. rewrite N2Z.id.
  change (Pos.of_uint d) with (N.of_uint d).
  rewrite DecimalN.Unsigned.to_of, string_app_nil_l.
  rewrite <- Hd at 1. rewrite length_string_of_uint, <- Hd.
  apply zeros_unorm. intros ->. by subst p.
Qed.

Lemma getyear_appendInt value y rest rest' :
  GoTime.getyear value = Some (y, rest) ->
  GoTime.getyear (GoTime.appendInt y 4 +:+ rest') = Some (y, rest').
Proof.
  unfold GoTime.getyear at 1.
  destruct value as [|c1 [|c2 [|c3 [|c4 value]]]]; try done.
  destruct (GoStrings.digits_from 0 _) as [y'|] eqn:Hy; [|done].
  cbn [mbind option_bind]. intros Heq. simplify_eq.
  destruct (appendInt_digits (String c1 (String c2 (String c3 (String c4 "")))) _
              ltac:(discriminate) Hy) as [_ Hp].
  cbn [String.length] in Hp. rewrite Hp.
  rewrite !string_app_cons, string_app_nil_l.
  unfold GoTime.getyear. by rewrite Hy.
Qed.

(** A number below 100 is printed as two digits that are read back. *)
Lemma appendInt_two n :
  0 <= n < 100 ->
  exists a b,
    GoTime.appendInt n 2 = String a (String b "")
    /\ GoStrings.isDigit a = true
    /\ forall rest fixed,
         GoTime.getnum (String a (String b rest)) fixed = Some (n, rest).
Proof.
  intros Hn.
  assert (exists k : nat, n = Z.of_nat k /\ (k < 100)%nat) as (k & -> & Hk)
    by (exists (Z.to_nat n); lia).
  clear Hn.
  do 100 (destruct k as [|k]; [eexists _, _; split_and!; reflexivity|]).
  lia.
Qed.

Lemma lookup_from_bounds i tab val j rest :
  GoTime.lookup_from i tab val = Some (j, rest) ->
  i <= j < i + Z.of_nat (length tab).
Proof.
  revert i. induction tab as [|v tab IH]; intros i; [done|].
  cbn [GoTime.lookup_from length]. destruct (GoTime.matchName v val).
  - intros [= <- <-]. lia.
  - intros H. apply IH in H. lia.
Qed.

Lemma getzone_form value off rest :
  GoTime.getzone value = Some (off, rest) ->
  exists z, 0 <= z <= 1500 /\ (off = z * 60 \/ off = - (z * 60)).
Proof.
  unfold GoTime.getzone.
  destruct value as [|sign [|h1 [|h2 [|m1 [|m2 value]]]]]; try done.
  destruct (GoTime.getnum (String h1 _) true) as [[hr ?]|] eqn:Eh; [|done].
  destruct (GoTime.getnum (String m1 _) true) as [[mm ?]|] eqn:Em; [|done].
  cbn [mbind option_bind].
  apply getnum_bounds in Eh, Em.
  destruct (_ || _) eqn:Er; [done|].
  apply orb_false_iff in Er as [Er1 Er2].
  apply Z.ltb_ge in Er1, Er2.
  exists (hr * 60 + mm). split; [lia|].
  destruct (Ascii.eqb sign "+"); [simplify_eq; by left|].
  destruct (Ascii.eqb sign "-"); [simplify_eq; by right | done].
Qed.

Lemma numericZone_getzone z :
  0 <= z < 1500 ->
  GoTime.getzone (GoTime.numericZone (z * 60)) = Some (z * 60, "")
  /\ GoTime.getzone (GoTime.numericZone (- (z * 60))) = Some (- (z * 60), "").
Proof.
  intros Hz.
  assert (0 <= z / 60 < 100 /\ 0 <= z mod 60 < 100 /\ z / 60 <= 24
          /\ z mod 60 < 60 /\ (z / 60 * 60 + z mod 60) * 60 = z * 60) as Hb
    by (Z.div_mod_to_equations; lia).
  destruct Hb as (Hh & Hm & Hh24 & Hm60 & Hsum).
  destruct (appendInt_two (z / 60) Hh) as (a & b & Ha & _ & Hga).
  destruct (appendInt_two (z mod 60) Hm) as (a' & b' & Ha' & _ & Hga').
  assert (forall sign : ascii,
            GoTime.getzone (String sign (String a (String b (String a' (String b' "")))))
            = if Ascii.eqb sign "+" then Some (z * 60, "")
              else if Ascii.eqb sign "-" then Some (- (z * 60), "")
              else None) as Hget.
  { intros sign. unfold GoTime.getzone. rewrite Hga, Hga'.
    cbn [mbind option_bind].
    assert (((24 <? z / 60) || (60 <? z mod 60)) = false) as ->.
    { apply orb_false_iff. split; apply Z.ltb_ge; lia. }
    by rewrite Hsum. }
  assert (forall zone, Z.abs zone = z ->
            GoTime.appendInt (Z.abs zone / 60) 2 +:+ GoTime.appendInt (Z.abs zone mod 60) 2
            = String a (String b (String a' (String b' "")))) as Hprint.
  { intros zone ->. by rewrite Ha, Ha'. }
  assert (GoTime.getzone (GoTime.numericZone (z * 60)) = Some (z * 60, "")) as Hpos.
  { unfold GoTime.numericZone. rewrite Z.quot_mul by lia.
    assert ((z <? 0) = false) as -> by (apply Z.ltb_ge; lia).
    rewrite (Hprint z) by lia.
    rewrite string_app_cons, string_app_nil_l. by rewrite Hget. }
  split; [done|].
  destruct (decide (z = 0)) as [->|Hz0]; [exact Hpos|].
  unfold GoTime.numericZone.
  rewrite Z.quot_opp_l, Z.quot_mul by lia.
  assert ((- z <? 0) = true) as -> by (apply Z.ltb_lt; lia).
  rewrite (Hprint (- z)) by lia.
  rewrite string_app_cons, string_app_nil_l. by rewrite Hget.
Qed.

Lemma cutspace_digit a rest :
  GoStrings.isDigit a = true -> GoTime.cutspace (String a rest) = String a rest.
Proof.
  intros Ha. cbn [GoTime.cutspace].
  destruct (Ascii.eqb_spec a " ") as [->|_]; [done | done].
Qed.

Ltac eval_ascii_eqb :=
  repeat match goal with
         | |- context [Ascii.eqb ?a ?b] =>
             let v := eval vm_compute in (Ascii.eqb a b) in
             lazymatch v with
             | true => change (Ascii.eqb a b) with true
             | false => change (Ascii.eqb a b) with false
             end
         end.

Lemma cutspace_space a rest :
  a <> " "%char ->
  GoTime.cutspace (String " " (String a rest)) = String a rest.
Proof.
  intros Ha. cbn [GoTime.cutspace]. eval_ascii_eqb.
  destruct (Ascii.eqb_spec a " ") as [->|_]; [done | done].
Qed.

Lemma isDigit_not_space a : GoStrings.isDigit a = true -> a <> " "%char.
Proof. by intros Ha ->. Qed.

Lemma Parse_Format_of_ParseGit authorDate t :
  GoTime.ParseGit authorDate = Some t ->
  Z.abs (GoTime.Offset t) < 25 * 3600 ->
  GoTime.Parse (GoTime.Format t) = Some t.
Proof.
  unfold GoTime.ParseGit. intros H.
  repeat match type of H with
         | (mbind _ ?x = Some _) =>
             let E := fresh "E" in
             destruct x as [[? ?]|] eqn:E; cbn [mbind option_bind] in H;
             [|discriminate]
         | (mbind _ ?x = Some _) =>
             let E := fresh "E" in
             destruct x eqn:E; cbn [mbind option_bind] in H; [|discriminate]
         | ((if ?b then None else _) = Some _) =>
             let E := fresh "E" in
             destruct b eqn:E; [discriminate|]
         | ((match ?v with EmptyString => _ | String _ _ => None end) = Some _) =>
             destruct v; [|discriminate]
         end.
  injection H as <-. cbn [GoTime.Offset]. intros Hoff.
  rename z5 into year, z0 into month, z1 into day, z2 into hour, z3 into min,
    z4 into sec, z6 into zoneOffset.
  pose proof (lookup_from_bounds _ _ _ _ _ E1) as Hmonth.
  pose proof (getnum_bounds _ _ _ _ E3) as Hday.
  pose proof (getnum_bounds _ _ _ _ E5) as Hhour.
  pose proof (getnum_bounds _ _ _ _ E8) as Hmin.
  pose proof (getnum_bounds _ _ _ _ E11) as Hsec.
  destruct (getzone_form _ _ _ E16) as (zn & Hz & Hzone).
  pose proof (fun rest' => getyear_appendInt _ _ _ rest' E14) as Hyear.
  repeat match goal with
         | E : (_ <=? _) = false |- _ => apply Z.leb_gt in E
         end.
  cbn [length GoTime.shortMonthNames] in Hmonth.
  assert (0 <= zn < 1500) as Hz' by lia.
  destruct (numericZone_getzone zn Hz') as [Hzp Hzn].
  assert (GoTime.getzone (GoTime.numericZone zoneOffset) = Some (zoneOffset, ""))
    as Hgetzone by (destruct Hzone as [-> | ->]; done).
  assert (exists sign tail_, GoTime.numericZone zoneOffset = String sign tail_
                             /\ (sign = "+"%char \/ sign = "-"%char))
    as (sign & ztail & Hzs & Hsign).
  { unfold GoTime.numericZone. destruct (_ <? 0); eexists _, _;
      (split; [by rewrite string_app_cons, string_app_nil_l|]); auto. }
  destruct (appendInt_two month ltac:(lia)) as (m1 & m2 & Hm & _ & Hgm).
  destruct (appendInt_two day ltac:(lia)) as (d1 & d2 & Hd & _ & Hgd).
  destruct (appendInt_two hour ltac:(lia)) as (h1 & h2 & Hh & Hh1 & Hgh).
  destruct (appendInt_two min ltac:(lia)) as (i1 & i2 & Hi & _ & Hgi).
  destruct (appendInt_two sec ltac:(lia)) as (e1 & e2 & He & _ & Hge).
  unfold GoTime.Format, GoTime.Parse.
  cbn [GoTime.Year GoTime.Month GoTime.Day GoTime.Hour GoTime.Minute
         GoTime.Second GoTime.Offset].
  rewrite Hyear. cbn [mbind option_bind].
  rewrite Hm, Hd, Hh, Hi, He, Hzs.
  rewrite !string_app_cons, !string_app_nil_l.
  cbn [GoTime.skipByte]. eval_ascii_eqb. cbn [mbind option_bind].
  rewrite Hgm. cbn [mbind option_bind].
  assert (((month <=? 0) || (12 <? month)) = false) as ->.
  { apply orb_false_iff. split; [apply Z.leb_gt | apply Z.ltb_ge]; lia. }
  cbn [GoTime.skipByte]. eval_ascii_eqb. cbn [mbind option_bind].
  rewrite Hgd. cbn [mbind option_bind GoTime.skipSpace]. eval_ascii_eqb.
  rewrite (cutspace_space h1) by by apply isDigit_not_space.
  cbn [mbind option_bind].
  rewrite Hgh. cbn [mbind option_bind].
  assert ((24 <=? hour) = false) as -> by (apply Z.leb_gt; lia).
  cbn [GoTime.skipByte]. eval_ascii_eqb. cbn [mbind option_bind].
  rewrite Hgi. cbn [mbind option_bind].
  assert ((60 <=? min) = false) as -> by (apply Z.leb_gt; lia).
  cbn [GoTime.skipByte]. eval_ascii_eqb. cbn [mbind option_bind].
  rewrite Hge. cbn [mbind option_bind].
  assert ((60 <=? sec) = false) as -> by (apply Z.leb_gt; lia).
  cbn [GoTime.skipFraction]. eval_ascii_eqb. cbn [orb andb].
  cbn [GoTime.skipSpace]. eval_ascii_eqb.
  rewrite (cutspace_space sign) by (destruct Hsign as [-> | ->]; done).
  cbn [mbind option_bind].
  rewrite <- Hzs, Hgetzone. cbn [mbind option_bind].
  by rewrite E17.
Qed.

(** X25: the date the harvester writes for an author date in git's layout
    is read by the aggregator as the same time: the same date, time of day
    and offset.  So the day key of the commit is midnight of the calendar
    date the author's clock showed, and such a commit never falls into the
    bucket of the zero time.  (The offset is less than 25 hours, as every
    offset git prints.) *)
Theorem X25_harvested_date_is_read_by_the_aggregator
    (c : Commit.t) (authorDate : string) (t : GoTime.Time) :
  GoTime.ParseGit authorDate = Some t ->
  Z.abs (GoTime.Offset t) < 25 * 3600 ->
  Commit.Date c = GoTime.Format t ->
  GoTime.Parse (Commit.Date c) = Some t
  /\ dayKey c
     = GoTime.String
         (GoTime.Date (GoTime.Year t) (GoTime.Month t) (GoTime.Day t) 0 0 0).
Proof.
  intros Hgit Hoff Hdate.
  pose proof (Parse_Format_of_ParseGit authorDate t Hgit Hoff) as Hparse.
  rewrite Hdate. split; [done|].
  unfold dayKey, getStartOfDayFromStringDate. by rewrite Hdate, Hparse.
Qed.

Lemma X25_harvested_date_is_read_by_the_aggregator_witness :
  dayKey (commitAnn []) = "2024-01-01 00:00:00 +0000 UTC".
Proof.
  destruct (X25_harvested_date_is_read_by_the_aggregator (commitAnn [])
              "Mon Jan 1 10:00:00 2024 +0000"
              (GoTime.mkTime 2024 1 1 10 0 0 0 "")
              eq_refl ltac:(simpl; lia) eq_refl) as [_ Hkey].
  rewrite Hkey. reflexivity.
Defined.

(** ** The library functions on sample inputs *)

Example Contains_reversed : GoStrings.Contains "=>" "a => b" = false.
Proof. reflexivity. Qed.
Example Replace_ex : GoStrings.Replace "../a/../b" "../" "" (-1) = "a/b".
Proof. reflexivity. Qed.
Example Replace1_ex : GoStrings.Replace "|||BEGIN|||h|||BEGIN|||" "|||BEGIN|||" "" 1 = "h|||BEGIN|||".
Proof. reflexivity. Qed.
Example Split_ex : GoStrings.Split "h|||SEP|||a b|||SEP|||e|||SEP|||" "|||SEP|||" = ["h"; "a b"; "e"; ""].
Proof. reflexivity. Qed.
Example Fields_ex : GoStrings.Fields "  12	-  a b.go " = ["12"; "-"; "a"; "b.go"].
Proof. reflexivity. Qed.
Example Atoi_ex : GoStrings.Atoi "-12" = Some (-12) /\ GoStrings.Atoi "1x" = None /\ GoStrings.Atoi "" = None /\ GoStrings.Atoi "9223372036854775808" = None.
Proof. vm_compute. auto. Qed.
Example Ext_ex : GoStrings.Ext "a.b/c.tar.gz" = ".gz" /\ GoStrings.Ext "a.b/c" = "" /\ GoStrings.Ext ".bashrc" = ".bashrc".
Proof. vm_compute. auto. Qed.

Example Parse_ex1 : GoTime.Parse "2024-01-01 23:00:00 -0500" = Some (GoTime.mkTime 2024 1 1 23 0 0 (-18000) "").
Proof. vm_compute. reflexivity. Qed.
Example Parse_ex2 : GoTime.Parse "" = None /\ GoTime.Parse "2023-02-29 10:00:00 +0000" = None /\ GoTime.Parse "2024-02-29 9:00:00.25  +0100" <> None.
Proof. vm_compute. repeat split; congruence. Qed.
Example String_ex : GoTime.String (GoTime.Date 2024 1 1 0 0 0) = "2024-01-01 00:00:00 +0000 UTC" /\ GoTime.String (GoTime.Date 1 1 1 0 0 0) = "0001-01-01 00:00:00 +0000 UTC".
Proof. vm_compute. auto. Qed.
Example Unix_ex : GoTime.Unix (GoTime.mkTime 2024 1 1 23 0 0 (-18000) "") = 1704168000 /\ GoTime.civil_from_days (1704168000 / 86400) = (2024, 1, 2) /\ GoTime.Unix GoTime.zero = -62135596800.
Proof. vm_compute. auto. Qed.

Example ParseGit_ex : GoTime.Format <$> GoTime.ParseGit "Tue Jan 2 09:05:00 2024 -0500" = Some "2024-01-02 09:05:00 -0500" /\ GoTime.ParseGit "yesterday" = None.
Proof. vm_compute. auto. Qed.

(** The scenario of the spec: commits at 10:00 and 23:00 UTC of 2024-01-01
    share the bucket of that day, and a commit at 00:01 UTC of 2024-01-02
    opens the next one. *)
Example scenario_two_days :
  map (fun b => (OptimizedCommitForExport.Date b, OptimizedCommitForExport.Commits b))
    (exportLoop false id
       [commitGo; commitPython;
        Commit.mk "h8" "Ann" "ann@x.org" "2024-01-02 00:01:00 +0000" [] ∅])
  = [("2024-01-01 00:00:00 +0000 UTC", 2); ("2024-01-02 00:00:00 +0000 UTC", 1)].
Proof. vm_compute. reflexivity. Qed.

(** A page of git's output, read by the harvester. *)
Example parsePage_pageGood :
  parsePage pageGood
  = Returned [commitAnn [ChangedFile.mk "a.go" 3 1 ""; ChangedFile.mk "img.png" 0 0 ""]].
Proof. vm_compute. reflexivity. Qed.
